(** * sdf-to-usd-converter: a shallow embedding of the conversion core

    The development follows the Python package [sdf_to_usd]:
    - [utils.py]          pose algebra, pose parsing, URI resolution, name sanitizer
    - [parser.py]         the intermediate model and the SDF loader
    - [physics.py]        joint mapping (axis snapping, limits, drives)
    - [mesh_converter.py] the caching mesh converter
    - [materials.py]      the material builder and its cache
    - [usd_builder.py]    the stage builder
    - [converter.py]      the orchestrator

    Modelling conventions.
    - A Python [float] is idealised as a real number ([R]): no rounding, no
      NaN, no infinities, no signed zero.
    - A Python [str] is a [string]; each character stands for one code point
      in the range U+0000..U+00FF.
    - Exceptions are values of [PyError]; a function that may raise returns
      a sum.  Log records of level warning and error are kept, debug and
      info records are dropped.
    - The file system, the XML reader, the USD stage and the external asset
      converter are not part of the package.  What the code asks of them is
      either a field of the environment record [Env] or an explicit input
      (an [Element] tree for a parsed document). *)

From Stdlib Require Import Reals Lra Lia Ascii String.
From stdpp Require Import base option list strings sorting pretty gmap.

Local Open Scope string_scope.

(** ** Python built-ins on characters and strings *)

Module Py.

Definition code (c : ascii) : N := N_of_ascii c.

Definition in_range (lo hi : N) (c : ascii) : bool :=
  ((lo <=? code c) && (code c <=? hi))%N.

Definition is_code (n : N) (c : ascii) : bool := (code c =? n)%N.

(** [str.isdigit]: decimal digits and the superscript digits of Latin-1. *)
Definition isdigit (c : ascii) : bool :=
  in_range 48 57 c || is_code 178 c || is_code 179 c || is_code 185 c.

(** [str.isalpha] on U+0000..U+00FF. *)
Definition isalpha (c : ascii) : bool :=
  in_range 65 90 c || in_range 97 122 c
  || is_code 170 c || is_code 181 c || is_code 186 c
  || in_range 192 214 c || in_range 216 246 c || in_range 248 255 c.

(** [str.isnumeric]: the digits and the vulgar fractions. *)
Definition isnumeric (c : ascii) : bool :=
  isdigit c || in_range 188 190 c.

Definition isalnum (c : ascii) : bool := isalpha c || isnumeric c.

(** [str.isspace] on U+0000..U+00FF. *)
Definition isspace (c : ascii) : bool :=
  in_range 9 13 c || in_range 28 32 c || is_code 133 c || is_code 160 c.

(** [str.lower] on one character. *)
Definition lower_char (c : ascii) : ascii :=
  if in_range 65 90 c || in_range 192 214 c || in_range 216 222 c
  then ascii_of_N (code c + 32) else c.

Fixpoint map_chars (f : ascii -> ascii) (s : string) : string :=
  match s with
  | EmptyString => EmptyString
  | String c r => String (f c) (map_chars f r)
  end.

Fixpoint filter_chars (p : ascii -> bool) (s : string) : string :=
  match s with
  | EmptyString => EmptyString
  | String c r => if p c then String c (filter_chars p r) else filter_chars p r
  end.

Definition lower (s : string) : string := map_chars lower_char s.

(** [s.replace(old, new)] for one-character [old] and [new]. *)
Definition replace (old new : ascii) (s : string) : string :=
  map_chars (fun c => if Ascii.eqb c old then new else c) s.

Fixpoint lstrip (s : string) : string :=
  match s with
  | String c r => if isspace c then lstrip r else s
  | EmptyString => EmptyString
  end.

(** Removes trailing white space: a character is kept when something that
    is kept follows it, or when it is not white space. *)
Fixpoint rstrip (s : string) : string :=
  match s with
  | EmptyString => EmptyString
  | String c r =>
      match rstrip r with
      | EmptyString => if isspace c then EmptyString else String c EmptyString
      | r' => String c r'
      end
  end.

Definition strip (s : string) : string := rstrip (lstrip s).

(** [s.split()]: maximal runs of characters that are not white space.
    [cur] is the run being read, in reverse. *)
Fixpoint split_go (cur : list ascii) (s : string) : list string :=
  match s with
  | EmptyString =>
      match cur with
      | [] => []
      | _ => [string_of_list_ascii (rev cur)]
      end
  | String c r =>
      if isspace c then
        match cur with
        | [] => split_go [] r
        | _ => string_of_list_ascii (rev cur) :: split_go [] r
        end
      else split_go (c :: cur) r
  end.

Definition split (s : string) : list string := split_go [] s.

Definition startswith (p s : string) : bool := String.prefix p s.

(** [s[n:]] *)
Fixpoint drop (n : nat) (s : string) : string :=
  match n, s with
  | S n', String _ r => drop n' r
  | _, _ => s
  end.

(** [s.split(sep, 1)] for a one-character separator: the text before the
    first separator, and the text after it when there is one. *)
Fixpoint split_once (sep : ascii) (s : string) : string * option string :=
  match s with
  | EmptyString => (EmptyString, None)
  | String c r =>
      if Ascii.eqb c sep then (EmptyString, Some r)
      else let '(h, t) := split_once sep r in (String c h, t)
  end.

End Py.

(** ** [os.path] for POSIX paths *)

Module OsPath.

Definition isabs (p : string) : bool := Py.startswith "/" p.

Fixpoint ends_with_slash (s : string) : bool :=
  match s with
  | EmptyString => false
  | String c EmptyString => Ascii.eqb c "/"
  | String _ r => ends_with_slash r
  end.

(** [os.path.join(a, b)] *)
Definition join (a b : string) : string :=
  if isabs b then b
  else if (String.eqb a "" || ends_with_slash a)%bool then a ++ b
  else a ++ "/" ++ b.

(** [os.path.basename(p)]: what follows the last slash. *)
Fixpoint basename (p : string) : string :=
  match p with
  | EmptyString => EmptyString
  | String c r =>
      if existsb (Ascii.eqb "/") (list_ascii_of_string r) then basename r
      else if Ascii.eqb c "/" then r else p
  end.

(** [s.rstrip("/")] *)
Fixpoint rstrip_slashes (s : string) : string :=
  match s with
  | EmptyString => EmptyString
  | String c r =>
      match rstrip_slashes r with
      | EmptyString => if Ascii.eqb c "/" then EmptyString else String c EmptyString
      | r' => String c r'
      end
  end.

(** [os.path.dirname(p)]: what precedes the file name, without its
    trailing slashes unless it consists of slashes only. *)
Definition dirname (p : string) : string :=
  let head := substring 0 (String.length p - String.length (basename p)) p in
  match rstrip_slashes head with
  | EmptyString => head
  | h => h
  end.

(** The file name split at its last dot.  [seen] says whether a character
    other than a dot precedes the position in the file name: leading dots
    do not start an extension. *)
Fixpoint splitext_name (seen : bool) (s : string) : string * string :=
  match s with
  | EmptyString => (EmptyString, EmptyString)
  | String c r =>
      let is_dot := Ascii.eqb c "." in
      let '(root, ext) := splitext_name (seen || negb is_dot) r in
      match ext with
      | EmptyString =>
          if (is_dot && seen)%bool then (EmptyString, s) else (String c root, ext)
      | _ => (String c root, ext)
      end
  end.

(** [os.path.splitext(p)] *)
Definition splitext (p : string) : string * string :=
  let name := basename p in
  let dir := substring 0 (String.length p - String.length name) p in
  let '(root, ext) := splitext_name false name in
  (dir ++ root, ext).

End OsPath.

(** ** utils.py *)

Inductive PyError :=
| ValueError (msg : string)
| TypeError (msg : string)
| AttributeError (msg : string)
| FileNotFoundError (msg : string)
| RuntimeError (msg : string).

Inductive LogLevel := WARNING | ERROR.

Definition LogRecord : Type := LogLevel * string.

(** [sanitize_usd_name] *)
Definition sanitize_usd_name (name : string) : string :=
  let result := Py.replace " " "_" (Py.replace "." "_" (Py.replace "-" "_" name)) in
  let result :=
    match result with
    | String c _ => if Py.isdigit c then String "_" result else result
    | EmptyString => result
    end in
  let result := Py.filter_chars (fun c => Py.isalnum c || Ascii.eqb c "_") result in
  if String.eqb result "" then "_unnamed" else result.

(** [resolve_model_uri] *)
Definition resolve_model_uri (uri model_dir : string) : string :=
  if Py.startswith "model://" uri then
    match Py.split_once "/" (Py.drop 8 uri) with
    | (_, Some rest) => OsPath.join model_dir rest
    | (_, None) => model_dir
    end
  else if Py.startswith "file://" uri then Py.drop 7 uri
  else if OsPath.isabs uri then uri
  else OsPath.join model_dir uri.

(** Comparisons of floats, as decidable propositions. *)
#[global] Instance Rlt_decision (a b : R) : Decision (a < b)%R := Rlt_dec a b.
#[global] Instance Rle_decision (a b : R) : Decision (a <= b)%R := Rle_dec a b.
#[global] Instance Rgt_decision (a b : R) : Decision (a > b)%R := Rgt_dec a b.
#[global] Instance Rge_decision (a b : R) : Decision (a >= b)%R := Rge_dec a b.
#[global] Instance R_eq_decision : EqDecision R := Req_dec_T.

(** [math] and [numpy] functions used by the package. *)
Module PyMath.

Local Open Scope R_scope.

(** [np.clip(v, lo, hi)] *)
Definition clip (v lo hi : R) : R := Rmin (Rmax v lo) hi.

(** [math.atan2(b, a)] *)
Definition atan2 (b a : R) : R :=
  if bool_decide (0 < a) then atan (b / a)
  else if bool_decide (a < 0) then
    if bool_decide (0 <= b) then atan (b / a) + PI else atan (b / a) - PI
  else if bool_decide (0 < b) then PI / 2
  else if bool_decide (b < 0) then - (PI / 2)
  else 0.

(** [math.radians] and [math.degrees] *)
Definition radians (a : R) : R := a * (PI / 180).
Definition degrees (a : R) : R := a * (180 / PI).

End PyMath.

(** *** The pose algebra *)

Module Pose.

Local Open Scope R_scope.

Record t := make { x : R; y : R; z : R; roll : R; pitch : R; yaw : R }.

Definition identity : t := make 0 0 0 0 0 0.

Definition position (p : t) : R * R * R := (x p, y p, z p).

(** A numpy array of shape (4, 4), read by row and column. *)
Definition Matrix : Type := nat -> nat -> R.

(** [m[i, j]] *)
Definition entry (m : Matrix) (i j : nat) : R := m i j.

(** [a @ b] *)
Definition matmul (a b : Matrix) : Matrix :=
  fun i j => entry a i 0 * entry b 0 j + entry a i 1 * entry b 1 j
             + entry a i 2 * entry b 2 j + entry a i 3 * entry b 3 j.

Definition to_matrix (p : t) : Matrix :=
  let cr := cos (roll p) in let sr := sin (roll p) in
  let cp := cos (pitch p) in let sp := sin (pitch p) in
  let cy := cos (yaw p) in let sy := sin (yaw p) in
  fun i j =>
    match (i, j) with
    | (0, 0)%nat => cy * cp
    | (0, 1)%nat => cy * sp * sr - sy * cr
    | (0, 2)%nat => cy * sp * cr + sy * sr
    | (1, 0)%nat => sy * cp
    | (1, 1)%nat => sy * sp * sr + cy * cr
    | (1, 2)%nat => sy * sp * cr - cy * sr
    | (2, 0)%nat => - sp
    | (2, 1)%nat => cp * sr
    | (2, 2)%nat => cp * cr
    | (0, 3)%nat => x p
    | (1, 3)%nat => y p
    | (2, 3)%nat => z p
    | (3, 3)%nat => 1
    | _ => 0
    end.

Definition to_quaternion_wxyz (p : t) : R * R * R * R :=
  let rot := to_matrix p in
  let trace := entry rot 0 0 + entry rot 1 1 + entry rot 2 2 in
  let '(w, qx, qy, qz) :=
    if bool_decide (trace > 0) then
      let s := 0.5 / sqrt (trace + 1) in
      (0.25 / s,
       (entry rot 2 1 - entry rot 1 2) * s,
       (entry rot 0 2 - entry rot 2 0) * s,
       (entry rot 1 0 - entry rot 0 1) * s)
    else if bool_decide (entry rot 0 0 > entry rot 1 1)
            && bool_decide (entry rot 0 0 > entry rot 2 2) then
      let s := 2 * sqrt (1 + entry rot 0 0 - entry rot 1 1 - entry rot 2 2) in
      ((entry rot 2 1 - entry rot 1 2) / s,
       0.25 * s,
       (entry rot 0 1 + entry rot 1 0) / s,
       (entry rot 0 2 + entry rot 2 0) / s)
    else if bool_decide (entry rot 1 1 > entry rot 2 2) then
      let s := 2 * sqrt (1 + entry rot 1 1 - entry rot 0 0 - entry rot 2 2) in
      ((entry rot 0 2 - entry rot 2 0) / s,
       (entry rot 0 1 + entry rot 1 0) / s,
       0.25 * s,
       (entry rot 1 2 + entry rot 2 1) / s)
    else
      let s := 2 * sqrt (1 + entry rot 2 2 - entry rot 0 0 - entry rot 1 1) in
      ((entry rot 1 0 - entry rot 0 1) / s,
       (entry rot 0 2 + entry rot 2 0) / s,
       (entry rot 1 2 + entry rot 2 1) / s,
       0.25 * s) in
  let norm := sqrt (w * w + qx * qx + qy * qy + qz * qz) in
  (w / norm, qx / norm, qy / norm, qz / norm).

Definition from_matrix (mat : Matrix) : t :=
  let pitch := asin (- PyMath.clip (entry mat 2 0) (-1) 1) in
  if bool_decide (Rabs (cos pitch) > 1e-6) then
    make (entry mat 0 3) (entry mat 1 3) (entry mat 2 3)
         (PyMath.atan2 (entry mat 2 1) (entry mat 2 2))
         pitch
         (PyMath.atan2 (entry mat 1 0) (entry mat 0 0))
  else
    make (entry mat 0 3) (entry mat 1 3) (entry mat 2 3)
         (PyMath.atan2 (- entry mat 1 2) (entry mat 1 1))
         pitch
         0.

Definition compose (parent child : t) : t :=
  from_matrix (matmul (to_matrix parent) (to_matrix child)).

End Pose.

Abbreviation Pose := Pose.t.

(** *** Results of functions that may raise and may log *)

Inductive Outcome (A : Type) : Type :=
| Ok (a : A) (log : list LogRecord)
| Raised (e : PyError).

Arguments Ok {A} a log.
Arguments Raised {A} e.

#[global] Instance Outcome_ret : MRet Outcome := fun A a => Ok a [].

#[global] Instance Outcome_bind : MBind Outcome := fun A B f m =>
  match m with
  | Ok a l =>
      match f a with
      | Ok b l' => Ok b (l ++ l')
      | Raised e => Raised e
      end
  | Raised e => Raised e
  end.

Definition warn {A : Type} (msg : string) (a : A) : Outcome A := Ok a [(WARNING, msg)].

(** [[f(v) for v in l]]: stops at the first element on which [f] raises. *)
Fixpoint for_each {A B : Type} (f : A -> Outcome B) (l : list A) : Outcome (list B) :=
  match l with
  | [] => mret []
  | a :: r => b ← f a; bs ← for_each f r; mret (b :: bs)
  end.

(** ** parser.py: the intermediate model *)

Definition Vec3 : Type := R * R * R.

Record SdfInertia := {
  ixx : R; ixy : R; ixz : R; iyy : R; iyz : R; izz : R
}.

Record SdfInertial := {
  inertial_mass : R;
  inertial_pose : Pose;
  inertial_inertia : SdfInertia
}.

Record SdfMeshGeometry := {
  mesh_uri : string;
  mesh_resolved_path : string;
  mesh_scale : Vec3
}.

Record SdfBoxGeometry := { box_size : Vec3 }.
Record SdfCylinderGeometry := { cylinder_radius : R; cylinder_length : R }.
Record SdfSphereGeometry := { sphere_radius : R }.
Record SdfCapsuleGeometry := { capsule_radius : R; capsule_length : R }.

(** The geometry container: five optional fields, as in the dataclass. *)
Record SdfGeometry := {
  geom_mesh : option SdfMeshGeometry;
  geom_box : option SdfBoxGeometry;
  geom_cylinder : option SdfCylinderGeometry;
  geom_sphere : option SdfSphereGeometry;
  geom_capsule : option SdfCapsuleGeometry
}.

Record SdfPbrMaterial := {
  pbr_metalness : R;
  pbr_roughness : R;
  pbr_albedo_map : string;
  pbr_albedo_map_resolved : string
}.

Record SdfMaterial := {
  mat_diffuse : Vec3;
  mat_specular : Vec3;
  mat_pbr : option SdfPbrMaterial
}.

Record SdfVisual := {
  visual_name : string;
  visual_pose : Pose;
  visual_geometry : option SdfGeometry;
  visual_material : option SdfMaterial
}.

Record SdfCollision := {
  collision_name : string;
  collision_pose : Pose;
  collision_geometry : option SdfGeometry
}.

Record SdfJointAxis := {
  axis_xyz : Vec3;
  axis_lower_limit : R;
  axis_upper_limit : R;
  axis_damping : R;
  axis_stiffness : R;
  axis_friction : R
}.

Record SdfJoint := {
  joint_name : string;
  joint_type : string;
  joint_parent : string;
  joint_child : string;
  joint_pose : Pose;
  joint_axis : SdfJointAxis
}.

Record SdfLink := {
  link_name : string;
  link_pose : Pose;
  link_inertial : option SdfInertial;
  link_visuals : list SdfVisual;
  link_collisions : list SdfCollision
}.

Record SdfModel := {
  model_name : string;
  model_pose : Pose;
  model_links : list SdfLink;
  model_joints : list SdfJoint
}.

(** The defaults of the dataclasses. *)
Definition SdfInertia_default : SdfInertia :=
  {| ixx := 0; ixy := 0; ixz := 0; iyy := 0; iyz := 0; izz := 0 |}.
Definition SdfInertial_default : SdfInertial :=
  {| inertial_mass := 0; inertial_pose := Pose.identity;
     inertial_inertia := SdfInertia_default |}.
Definition SdfMeshGeometry_default : SdfMeshGeometry :=
  {| mesh_uri := ""; mesh_resolved_path := ""; mesh_scale := (1, 1, 1)%R |}.
Definition SdfBoxGeometry_default : SdfBoxGeometry := {| box_size := (1, 1, 1)%R |}.
Definition SdfCylinderGeometry_default : SdfCylinderGeometry :=
  {| cylinder_radius := 0.5; cylinder_length := 1 |}.
Definition SdfSphereGeometry_default : SdfSphereGeometry := {| sphere_radius := 0.5 |}.
Definition SdfCapsuleGeometry_default : SdfCapsuleGeometry :=
  {| capsule_radius := 0.5; capsule_length := 1 |}.
Definition SdfGeometry_default : SdfGeometry :=
  {| geom_mesh := None; geom_box := None; geom_cylinder := None;
     geom_sphere := None; geom_capsule := None |}.
Definition SdfPbrMaterial_default : SdfPbrMaterial :=
  {| pbr_metalness := 0; pbr_roughness := 0.5;
     pbr_albedo_map := ""; pbr_albedo_map_resolved := "" |}.
Definition SdfMaterial_default : SdfMaterial :=
  {| mat_diffuse := (0.8, 0.8, 0.8)%R; mat_specular := (0.1, 0.1, 0.1)%R;
     mat_pbr := None |}.
Definition SdfJointAxis_default : SdfJointAxis :=
  {| axis_xyz := (0, 0, 1)%R; axis_lower_limit := (-1e16)%R; axis_upper_limit := 1e16%R;
     axis_damping := 0; axis_stiffness := 0; axis_friction := 0 |}.

(** The truth value of an optional dataclass instance: an instance is
    true (the dataclasses define neither [__bool__] nor [__len__]), [None]
    is false. *)
Definition is_set {A : Type} (o : option A) : bool :=
  match o with Some _ => true | None => false end.

(** [SdfGeometry.type_name] *)
Definition type_name (g : SdfGeometry) : string :=
  if is_set (geom_mesh g) then "mesh"
  else if is_set (geom_box g) then "box"
  else if is_set (geom_cylinder g) then "cylinder"
  else if is_set (geom_sphere g) then "sphere"
  else if is_set (geom_capsule g) then "capsule"
  else "unknown".

(** [SdfModel.get_link] *)
Definition get_link (m : SdfModel) (name : string) : option SdfLink :=
  List.find (fun l => String.eqb (link_name l) name) (model_links m).

(** An [xml.etree.ElementTree.Element]: tag, attributes, text, children. *)
#[local] Unset Elimination Schemes.
Inductive Element :=
| Elem (tag : string) (attrib : list (string * string)) (text : option string)
       (children : list Element).

#[local] Set Elimination Schemes.

Definition tag (e : Element) : string := let 'Elem t _ _ _ := e in t.
Definition attrib (e : Element) : list (string * string) := let 'Elem _ a _ _ := e in a.
Definition text (e : Element) : option string := let 'Elem _ _ t _ := e in t.
Definition children (e : Element) : list Element := let 'Elem _ _ _ c := e in c.

(** [elem.find(name)]: the first child with that tag. *)
Definition find (name : string) (e : Element) : option Element :=
  List.find (fun c => String.eqb (tag c) name) (children e).

(** [elem.findall(name)]: the children with that tag, in document order. *)
Definition findall (name : string) (e : Element) : list Element :=
  List.filter (fun c => String.eqb (tag c) name) (children e).

(** [elem.get(key, default)] *)
Definition get (key default : string) (e : Element) : string :=
  match List.find (fun kv => String.eqb (fst kv) key) (attrib e) with
  | Some kv => snd kv
  | None => default
  end.

Section Parsing.

(** The built-in [float] on a string: the number read, or nothing when it
    raises [ValueError]. *)
Variable py_float : string -> option R.

Definition float_of_str (s : string) : Outcome R :=
  match py_float s with
  | Some v => mret v
  | None => Raised (ValueError ("could not convert string to float: " ++ s))
  end.

(** [parse_pose_string] *)
Definition parse_pose_string (pose_str : string) (degrees : bool) : Outcome Pose :=
  parts ← for_each float_of_str (Py.split (Py.strip pose_str));
  match parts with
  | [x; y; z; roll; pitch; yaw] =>
      if degrees then
        mret (Pose.make x y z (PyMath.radians roll) (PyMath.radians pitch) (PyMath.radians yaw))
      else mret (Pose.make x y z roll pitch yaw)
  | _ => warn ("Invalid pose string (expected 6 values): '" ++ pose_str ++ "'")
              Pose.identity
  end.

(** The directory of the SDF file, [SdfParser.model_dir]. *)
Variable model_dir : string.

(** [e.text.strip()] *)
Definition stripped_text (e : Element) : Outcome string :=
  match text e with
  | Some t => mret (Py.strip t)
  | None => Raised (AttributeError "'NoneType' object has no attribute 'strip'")
  end.

(** [float(e.text)] *)
Definition float_of_text (e : Element) : Outcome R :=
  match text e with
  | Some t => float_of_str t
  | None => Raised (TypeError "float() argument must be a string or a real number")
  end.

(** [[float(v) for v in e.text.strip().split()]] *)
Definition floats_of_text (e : Element) : Outcome (list R) :=
  t ← stripped_text e; for_each float_of_str (Py.split t).

(** [tuple(parts[:3]) if len(parts) >= 3 else default] *)
Definition vec3_or (default : Vec3) (parts : list R) : Vec3 :=
  match parts with
  | a :: b :: c :: _ => (a, b, c)
  | _ => default
  end.

(** [child = e.find(name); if child is not None: field = f(child)] *)
Definition field_of {A : Type} (name : string) (e : Element)
    (f : Element -> Outcome A) (current : A) : Outcome A :=
  match find name e with
  | Some child => f child
  | None => mret current
  end.

Definition _parse_pose (elem : Element) : Outcome Pose :=
  match text elem with
  | None => mret Pose.identity
  | Some t =>
      let degrees := String.eqb (Py.lower (get "degrees" "false" elem)) "true" in
      parse_pose_string t degrees
  end.

Definition _parse_inertia (elem : Element) : Outcome SdfInertia :=
  vxx ← field_of "ixx" elem float_of_text 0%R;
  vxy ← field_of "ixy" elem float_of_text 0%R;
  vxz ← field_of "ixz" elem float_of_text 0%R;
  vyy ← field_of "iyy" elem float_of_text 0%R;
  vyz ← field_of "iyz" elem float_of_text 0%R;
  vzz ← field_of "izz" elem float_of_text 0%R;
  mret {| ixx := vxx; ixy := vxy; ixz := vxz; iyy := vyy; iyz := vyz; izz := vzz |}.

Definition _parse_inertial (elem : Element) : Outcome SdfInertial :=
  mass ← field_of "mass" elem float_of_text 0%R;
  pose ← field_of "pose" elem _parse_pose Pose.identity;
  inertia ← field_of "inertia" elem _parse_inertia SdfInertia_default;
  mret {| inertial_mass := mass; inertial_pose := pose; inertial_inertia := inertia |}.

Definition _parse_mesh (mesh_elem : Element) : Outcome SdfMeshGeometry :=
  '(uri, resolved) ←
    match find "uri" mesh_elem with
    | Some uri_elem =>
        uri ← stripped_text uri_elem;
        mret (uri, resolve_model_uri uri model_dir)
    | None => mret ("", "")
    end;
  scale ← field_of "scale" mesh_elem
            (fun e => parts ← floats_of_text e; mret (vec3_or (1, 1, 1)%R parts))
            (1, 1, 1)%R;
  mret {| mesh_uri := uri; mesh_resolved_path := resolved; mesh_scale := scale |}.

Definition _parse_box (box_elem : Element) : Outcome SdfBoxGeometry :=
  size ← field_of "size" box_elem
           (fun e => parts ← floats_of_text e; mret (vec3_or (1, 1, 1)%R parts))
           (1, 1, 1)%R;
  mret {| box_size := size |}.

Definition _parse_cylinder (cyl_elem : Element) : Outcome SdfCylinderGeometry :=
  r ← field_of "radius" cyl_elem float_of_text 0.5%R;
  l ← field_of "length" cyl_elem float_of_text 1%R;
  mret {| cylinder_radius := r; cylinder_length := l |}.

Definition _parse_sphere (sphere_elem : Element) : Outcome SdfSphereGeometry :=
  r ← field_of "radius" sphere_elem float_of_text 0.5%R;
  mret {| sphere_radius := r |}.

Definition _parse_capsule (capsule_elem : Element) : Outcome SdfCapsuleGeometry :=
  r ← field_of "radius" capsule_elem float_of_text 0.5%R;
  l ← field_of "length" capsule_elem float_of_text 1%R;
  mret {| capsule_radius := r; capsule_length := l |}.

(** [SdfParser._parse_geometry]: the first shape child found, looked for in
    the order mesh, box, cylinder, sphere, capsule, fills its field and
    returns; with none of them the container is returned as created. *)
Definition _parse_geometry (elem : Element) : Outcome SdfGeometry :=
  let geom := SdfGeometry_default in
  match find "mesh" elem with
  | Some mesh_elem =>
      mesh ← _parse_mesh mesh_elem;
      mret {| geom_mesh := Some mesh; geom_box := geom_box geom;
              geom_cylinder := geom_cylinder geom; geom_sphere := geom_sphere geom;
              geom_capsule := geom_capsule geom |}
  | None =>
  match find "box" elem with
  | Some box_elem =>
      box ← _parse_box box_elem;
      mret {| geom_mesh := geom_mesh geom; geom_box := Some box;
              geom_cylinder := geom_cylinder geom; geom_sphere := geom_sphere geom;
              geom_capsule := geom_capsule geom |}
  | None =>
  match find "cylinder" elem with
  | Some cyl_elem =>
      cyl ← _parse_cylinder cyl_elem;
      mret {| geom_mesh := geom_mesh geom; geom_box := geom_box geom;
              geom_cylinder := Some cyl; geom_sphere := geom_sphere geom;
              geom_capsule := geom_capsule geom |}
  | None =>
  match find "sphere" elem with
  | Some sphere_elem =>
      sph ← _parse_sphere sphere_elem;
      mret {| geom_mesh := geom_mesh geom; geom_box := geom_box geom;
              geom_cylinder := geom_cylinder geom; geom_sphere := Some sph;
              geom_capsule := geom_capsule geom |}
  | None =>
  match find "capsule" elem with
  | Some capsule_elem =>
      cap ← _parse_capsule capsule_elem;
      mret {| geom_mesh := geom_mesh geom; geom_box := geom_box geom;
              geom_cylinder := geom_cylinder geom; geom_sphere := geom_sphere geom;
              geom_capsule := Some cap |}
  | None => mret geom
  end end end end end.

Definition _parse_pbr (metal_elem : Element) : Outcome SdfPbrMaterial :=
  m ← field_of "metalness" metal_elem float_of_text 0%R;
  r ← field_of "roughness" metal_elem float_of_text 0.5%R;
  '(a, resolved) ←
    match find "albedo_map" metal_elem with
    | Some a_elem =>
        a ← stripped_text a_elem;
        mret (a, resolve_model_uri a model_dir)
    | None => mret ("", "")
    end;
  mret {| pbr_metalness := m; pbr_roughness := r;
          pbr_albedo_map := a; pbr_albedo_map_resolved := resolved |}.

Definition _parse_material (elem : Element) : Outcome SdfMaterial :=
  diffuse ← field_of "diffuse" elem
              (fun e => parts ← floats_of_text e; mret (vec3_or (0.8, 0.8, 0.8)%R parts))
              (0.8, 0.8, 0.8)%R;
  specular ← field_of "specular" elem
               (fun e => parts ← floats_of_text e; mret (vec3_or (0.1, 0.1, 0.1)%R parts))
               (0.1, 0.1, 0.1)%R;
  pbr ←
    match find "pbr" elem with
    | Some pbr_elem =>
        match find "metal" pbr_elem with
        | Some metal_elem => pbr ← _parse_pbr metal_elem; mret (Some pbr)
        | None => mret None
        end
    | None => mret None
    end;
  mret {| mat_diffuse := diffuse; mat_specular := specular; mat_pbr := pbr |}.

Definition _parse_visual (elem : Element) : Outcome SdfVisual :=
  pose ← field_of "pose" elem _parse_pose Pose.identity;
  geometry ← field_of "geometry" elem
               (fun e => g ← _parse_geometry e; mret (Some g)) None;
  material ← field_of "material" elem
               (fun e => m ← _parse_material e; mret (Some m)) None;
  mret {| visual_name := get "name" "visual" elem; visual_pose := pose;
          visual_geometry := geometry; visual_material := material |}.

Definition _parse_collision (elem : Element) : Outcome SdfCollision :=
  pose ← field_of "pose" elem _parse_pose Pose.identity;
  geometry ← field_of "geometry" elem
               (fun e => g ← _parse_geometry e; mret (Some g)) None;
  mret {| collision_name := get "name" "collision" elem; collision_pose := pose;
          collision_geometry := geometry |}.

Definition _parse_joint_axis (elem : Element) : Outcome SdfJointAxis :=
  let d := SdfJointAxis_default in
  xyz ← field_of "xyz" elem
          (fun e => parts ← floats_of_text e; mret (vec3_or (0, 0, 1)%R parts))
          (axis_xyz d);
  '(lower, upper) ←
    match find "limit" elem with
    | Some limit_elem =>
        lower ← field_of "lower" limit_elem float_of_text (axis_lower_limit d);
        upper ← field_of "upper" limit_elem float_of_text (axis_upper_limit d);
        mret (lower, upper)
    | None => mret (axis_lower_limit d, axis_upper_limit d)
    end;
  '(damping, stiffness, friction) ←
    match find "dynamics" elem with
    | Some dynamics_elem =>
        dm ← field_of "damping" dynamics_elem float_of_text (axis_damping d);
        st ← field_of "stiffness" dynamics_elem float_of_text (axis_stiffness d);
        fr ← field_of "friction" dynamics_elem float_of_text (axis_friction d);
        mret (dm, st, fr)
    | None => mret (axis_damping d, axis_stiffness d, axis_friction d)
    end;
  mret {| axis_xyz := xyz; axis_lower_limit := lower; axis_upper_limit := upper;
          axis_damping := damping; axis_stiffness := stiffness;
          axis_friction := friction |}.

Definition _parse_joint (elem : Element) : Outcome SdfJoint :=
  pose ← field_of "pose" elem _parse_pose Pose.identity;
  parent ← field_of "parent" elem stripped_text "";
  child ← field_of "child" elem stripped_text "";
  axis ← field_of "axis" elem _parse_joint_axis SdfJointAxis_default;
  mret {| joint_name := get "name" "joint" elem;
          joint_type := get "type" "revolute" elem;
          joint_parent := parent; joint_child := child;
          joint_pose := pose; joint_axis := axis |}.

(** The loop over the visual children: a parsed visual is appended when
    its geometry is true. *)
Fixpoint parse_visuals (elems : list Element) : Outcome (list SdfVisual) :=
  match elems with
  | [] => mret []
  | vis_elem :: rest =>
      visual ← _parse_visual vis_elem;
      visuals ← parse_visuals rest;
      mret (if is_set (visual_geometry visual) then visual :: visuals else visuals)
  end.

Fixpoint parse_collisions (elems : list Element) : Outcome (list SdfCollision) :=
  match elems with
  | [] => mret []
  | col_elem :: rest =>
      collision ← _parse_collision col_elem;
      collisions ← parse_collisions rest;
      mret (if is_set (collision_geometry collision)
            then collision :: collisions else collisions)
  end.

Definition _parse_link (elem : Element) : Outcome SdfLink :=
  pose ← field_of "pose" elem _parse_pose Pose.identity;
  inertial ← field_of "inertial" elem
               (fun e => i ← _parse_inertial e; mret (Some i)) None;
  visuals ← parse_visuals (findall "visual" elem);
  collisions ← parse_collisions (findall "collision" elem);
  mret {| link_name := get "name" "link" elem; link_pose := pose;
          link_inertial := inertial; link_visuals := visuals;
          link_collisions := collisions |}.

Definition _parse_model (elem : Element) : Outcome SdfModel :=
  pose ← field_of "pose" elem _parse_pose Pose.identity;
  links ← for_each _parse_link (findall "link" elem);
  joints ← for_each _parse_joint (findall "joint" elem);
  mret {| model_name := get "name" "model" elem; model_pose := pose;
          model_links := links; model_joints := joints |}.

(** [SdfParser.parse], from the root element of the document that
    [ET.parse] has read. *)
Definition parse (root : Element) : Outcome SdfModel :=
  match find "model" root with
  | Some model_elem => _parse_model model_elem
  | None =>
      if String.eqb (tag root) "model" then _parse_model root
      else Raised (ValueError "No <model> element found")
  end.

End Parsing.

(** ** The USD stage

    The stage is kept as the sequence of calls made on the scene writer, in
    the order of the calls.  A call on a prim that the code has just defined
    is taken to succeed; the [GetPrimAtPath] tests guarding such calls are
    true and are not recorded. *)

Definition Quat : Type := R * R * R * R.

Inductive Value :=
| VFloat (v : R)
| VVec3 (v : Vec3)
| VQuat (q : Quat)
| VToken (s : string)
| VAsset (s : string)
| VTargets (l : list string).

Inductive StageOp :=
| CreateNew (path : string)
| SetStageUpAxis (axis : string)
| SetStageMetersPerUnit (v : R)
| DefinePrim (path : string)
| SetDefaultPrim (path : string)
| Define (schema path : string)
| AddTranslateOp (path : string) (v : Vec3)
| AddOrientOp (path : string) (q : Quat)
| AddScaleOp (path : string) (v : Vec3)
| AddReference (path asset : string)
| SetAttr (path attr : string) (v : Value)
| CreateInput (path name : string) (v : Value)
| CreateOutput (path name : string)
| ConnectToSource (path input source output : string)
| Apply (api path : string)
| ApplyDrive (path kind : string)
| Bind (path material : string)
| Save.

(** ** physics.py *)

(** [PhysicsBuilder._determine_axis] *)
Definition _determine_axis (xyz : Vec3) : string :=
  let '(vx, vy, vz) := xyz in
  let ax := Rabs vx in
  let ay := Rabs vy in
  let az := Rabs vz in
  if bool_decide (ax >= ay)%R && bool_decide (ax >= az)%R then "X"
  else if bool_decide (ay >= ax)%R && bool_decide (ay >= az)%R then "Y"
  else "Z".

(** The bodies and the joint frame, common to the three joint schemas. *)
Definition joint_bodies (joint_path parent_path child_path : string) : list StageOp :=
  [SetAttr joint_path "Body0Rel" (VTargets [parent_path]);
   SetAttr joint_path "Body1Rel" (VTargets [child_path])].

Definition joint_frame (joint_path : string) (joint : SdfJoint) : list StageOp :=
  [SetAttr joint_path "LocalPos0" (VVec3 (Pose.position (joint_pose joint)));
   SetAttr joint_path "LocalRot0" (VQuat (Pose.to_quaternion_wxyz (joint_pose joint)))].

(** [PhysicsBuilder._create_revolute_joint] *)
Definition _create_revolute_joint (joint_path parent_path child_path : string)
    (joint : SdfJoint) : list StageOp :=
  let axis := _determine_axis (axis_xyz (joint_axis joint)) in
  let lower_deg := PyMath.degrees (axis_lower_limit (joint_axis joint)) in
  let upper_deg := PyMath.degrees (axis_upper_limit (joint_axis joint)) in
  [Define "RevoluteJoint" joint_path]
  ++ joint_bodies joint_path parent_path child_path
  ++ [SetAttr joint_path "Axis" (VToken axis)]
  ++ joint_frame joint_path joint
  ++ (if bool_decide (Rabs lower_deg < 1e10)%R
      then [SetAttr joint_path "LowerLimit" (VFloat lower_deg)] else [])
  ++ (if bool_decide (Rabs upper_deg < 1e10)%R
      then [SetAttr joint_path "UpperLimit" (VFloat upper_deg)] else [])
  ++ (if bool_decide (axis_damping (joint_axis joint) > 0)%R
      then [ApplyDrive joint_path "angular";
            SetAttr joint_path "angular:Damping" (VFloat (axis_damping (joint_axis joint)))]
           ++ (if bool_decide (axis_stiffness (joint_axis joint) > 0)%R
               then [SetAttr joint_path "angular:Stiffness"
                             (VFloat (axis_stiffness (joint_axis joint)))]
               else [])
      else []).

(** [PhysicsBuilder._create_prismatic_joint] *)
Definition _create_prismatic_joint (joint_path parent_path child_path : string)
    (joint : SdfJoint) : list StageOp :=
  let axis := _determine_axis (axis_xyz (joint_axis joint)) in
  [Define "PrismaticJoint" joint_path]
  ++ joint_bodies joint_path parent_path child_path
  ++ [SetAttr joint_path "Axis" (VToken axis)]
  ++ joint_frame joint_path joint
  ++ (if bool_decide (Rabs (axis_lower_limit (joint_axis joint)) < 1e10)%R
      then [SetAttr joint_path "LowerLimit" (VFloat (axis_lower_limit (joint_axis joint)))]
      else [])
  ++ (if bool_decide (Rabs (axis_upper_limit (joint_axis joint)) < 1e10)%R
      then [SetAttr joint_path "UpperLimit" (VFloat (axis_upper_limit (joint_axis joint)))]
      else [])
  ++ (if bool_decide (axis_damping (joint_axis joint) > 0)%R
      then [ApplyDrive joint_path "linear";
            SetAttr joint_path "linear:Damping" (VFloat (axis_damping (joint_axis joint)))]
      else []).

(** [PhysicsBuilder._create_fixed_joint] *)
Definition _create_fixed_joint (joint_path parent_path child_path : string)
    (joint : SdfJoint) : list StageOp :=
  [Define "FixedJoint" joint_path]
  ++ joint_bodies joint_path parent_path child_path
  ++ joint_frame joint_path joint.

(** [PhysicsBuilder.create_joint]: the calls made and the records logged. *)
Definition create_joint (model_path : string) (joint : SdfJoint)
    : list StageOp * list LogRecord :=
  let name := sanitize_usd_name (joint_name joint) in
  let joint_path := model_path ++ "/" ++ name in
  let parent_path := model_path ++ "/" ++ sanitize_usd_name (joint_parent joint) in
  let child_path := model_path ++ "/" ++ sanitize_usd_name (joint_child joint) in
  if String.eqb (joint_type joint) "revolute" then
    (_create_revolute_joint joint_path parent_path child_path joint, [])
  else if String.eqb (joint_type joint) "prismatic" then
    (_create_prismatic_joint joint_path parent_path child_path joint, [])
  else if String.eqb (joint_type joint) "fixed" then
    (_create_fixed_joint joint_path parent_path child_path joint, [])
  else if String.eqb (joint_type joint) "ball" then
    (_create_fixed_joint joint_path parent_path child_path joint,
     [(WARNING, "  Ball joint '" ++ joint_name joint
                ++ "' converted to fixed (not fully supported)")])
  else
    ([], [(WARNING, "  Unsupported joint type '" ++ joint_type joint
                    ++ "' for '" ++ joint_name joint ++ "'")]).

(** [PhysicsBuilder.apply_rigid_body] *)
Definition apply_rigid_body (link_path : string) (link : SdfLink) : list StageOp :=
  Apply "RigidBodyAPI" link_path ::
  match link_inertial link with
  | Some inertial =>
      if bool_decide (inertial_mass inertial > 0)%R then
        [Apply "MassAPI" link_path;
         SetAttr link_path "Mass" (VFloat (inertial_mass inertial));
         SetAttr link_path "CenterOfMass"
                 (VVec3 (Pose.position (inertial_pose inertial)));
         SetAttr link_path "DiagonalInertia"
                 (VVec3 (ixx (inertial_inertia inertial),
                         iyy (inertial_inertia inertial),
                         izz (inertial_inertia inertial)))]
      else []
  | None => []
  end.

(** The value of attribute [attr] of prim [path] on a stage: the last one set. *)
Definition attr_value (ops : list StageOp) (path attr : string) : option Value :=
  last (omap (fun op =>
                match op with
                | SetAttr p a v =>
                    if String.eqb p path && String.eqb a attr then Some v else None
                | _ => None
                end) ops).

(** ** The environment of a run *)

(** What the run asks of the operating system and of the asset converter.
    [fs_exists] describes the files present when the run starts; the files
    the run writes are kept in the state.  [run_conversion source output] is
    the outcome of one task of the external asset converter: [true] when
    [wait_until_finished] reports success. *)
Record Env := {
  fs_exists : string -> bool;
  abspath : string -> string;
  relpath : string -> string -> string;
  listdir : string -> list string;
  run_conversion : string -> string -> bool
}.

(** [_material_hash] renders the fields as text; the key is kept here as
    the fields themselves (the rendering of a float, of a triple and of the
    trailing map name determines the fields). *)
Definition MaterialKey : Type := Vec3 * Vec3 * option (R * R * string).

(** The state owned by one run: the converter's cache and what it did, the
    material builder's cache and counter, the stage, the log. *)
Record RunState := {
  mesh_cache : gmap string string;
  conversions : list (string * string);
  copies : list (string * string);
  created : list string;
  material_cache : list (MaterialKey * string);
  material_counter : nat;
  stage : list StageOp;
  log : list LogRecord
}.

Definition initial_state : RunState :=
  {| mesh_cache := ∅; conversions := []; copies := []; created := [];
     material_cache := []; material_counter := 0; stage := []; log := [] |}.

Definition set_mesh_cache (c : gmap string string) (st : RunState) : RunState :=
  {| mesh_cache := c; conversions := conversions st; copies := copies st;
     created := created st; material_cache := material_cache st;
     material_counter := material_counter st; stage := stage st; log := log st |}.

(** One call of [_run_conversion] is recorded. *)
Definition add_conversion (source output : string) (st : RunState) : RunState :=
  {| mesh_cache := mesh_cache st; conversions := conversions st ++ [(source, output)];
     copies := copies st; created := created st; material_cache := material_cache st;
     material_counter := material_counter st; stage := stage st; log := log st |}.

(** [shutil.copy2(src, dst)] *)
Definition copy2 (src dst : string) (st : RunState) : RunState :=
  {| mesh_cache := mesh_cache st; conversions := conversions st;
     copies := copies st ++ [(src, dst)]; created := created st ++ [dst];
     material_cache := material_cache st; material_counter := material_counter st;
     stage := stage st; log := log st |}.

Definition add_created (path : string) (st : RunState) : RunState :=
  {| mesh_cache := mesh_cache st; conversions := conversions st; copies := copies st;
     created := created st ++ [path]; material_cache := material_cache st;
     material_counter := material_counter st; stage := stage st; log := log st |}.

Definition set_materials (c : list (MaterialKey * string)) (n : nat) (st : RunState)
    : RunState :=
  {| mesh_cache := mesh_cache st; conversions := conversions st; copies := copies st;
     created := created st; material_cache := c; material_counter := n;
     stage := stage st; log := log st |}.

Definition emit (ops : list StageOp) (st : RunState) : RunState :=
  {| mesh_cache := mesh_cache st; conversions := conversions st; copies := copies st;
     created := created st; material_cache := material_cache st;
     material_counter := material_counter st; stage := stage st ++ ops; log := log st |}.

Definition add_log (records : list LogRecord) (st : RunState) : RunState :=
  {| mesh_cache := mesh_cache st; conversions := conversions st; copies := copies st;
     created := created st; material_cache := material_cache st;
     material_counter := material_counter st; stage := stage st;
     log := log st ++ records |}.

(** [os.path.exists] during the run. *)
Definition path_exists (env : Env) (st : RunState) (path : string) : bool :=
  fs_exists env path || bool_decide (path ∈ created st).

(** ** mesh_converter.py *)

Definition SUPPORTED_MESH_FORMATS : list string :=
  [".dae"; ".stl"; ".obj"; ".fbx"; ".gltf"; ".glb"].

Definition texture_exts : list string :=
  [".png"; ".jpg"; ".jpeg"; ".tga"; ".bmp"; ".tiff"; ".hdr"].

(** The values of the cache, [self._cache.values()]. *)
Definition cache_values (c : gmap string string) : list string := (map_to_list c).*2.

(** The first and the later names tried for a converted mesh. *)
Definition usd_candidate (output_dir base_name : string) (counter : nat) : string :=
  match counter with
  | 0 => OsPath.join output_dir (base_name ++ ".usd")
  | _ => OsPath.join output_dir (base_name ++ "_" ++ pretty counter ++ ".usd")
  end.

(** The loop [while usd_path in self._cache.values()], entered with the
    name of rank [counter]; [fuel] bounds the number of further names
    tried.  [unique_usd_path_total] shows that the bound used by [convert]
    is never reached. *)
Fixpoint unique_usd_path (fuel : nat) (used : list string)
    (output_dir base_name : string) (counter : nat) : option string :=
  let usd_path := usd_candidate output_dir base_name counter in
  if bool_decide (usd_path ∈ used) then
    match fuel with
    | 0 => None
    | S fuel' => unique_usd_path fuel' used output_dir base_name (S counter)
    end
  else Some usd_path.

(** What follows the base name in the name of rank [k]: [usd_candidate] is
    the output directory joined with the base name and this suffix. *)
Definition usd_suffix (k : nat) : string :=
  match k with
  | 0 => ".usd"
  | _ => "_" ++ pretty k ++ ".usd"
  end.

(** [MeshConverter._copy_adjacent_textures] *)
Definition _copy_adjacent_textures (env : Env) (output_dir mesh_path : string)
    (st : RunState) : RunState :=
  let mesh_dir := OsPath.dirname mesh_path in
  foldl (fun st fname =>
           if bool_decide (Py.lower (snd (OsPath.splitext fname)) ∈ texture_exts) then
             let src := OsPath.join mesh_dir fname in
             let dst := OsPath.join output_dir fname in
             if path_exists env st dst then st else copy2 src dst st
           else st)
        st (listdir env mesh_dir).

(** [MeshConverter.convert]; [output_dir] is [self.output_dir], the meshes
    directory.  A successful task of the asset converter leaves its output
    file on disk. *)
Definition mesh_convert (env : Env) (output_dir source_path : string) (st : RunState)
    : (PyError + string) * RunState :=
  let source_path := abspath env source_path in
  if negb (path_exists env st source_path) then
    (inl (FileNotFoundError ("Mesh file not found: " ++ source_path)), st)
  else
    match mesh_cache st !! source_path with
    | Some usd_path => (inr usd_path, st)
    | None =>
        let ext := Py.lower (snd (OsPath.splitext source_path)) in
        if negb (bool_decide (ext ∈ SUPPORTED_MESH_FORMATS)) then
          (inl (RuntimeError ("Unsupported mesh format '" ++ ext ++ "'")), st)
        else
          let base_name := fst (OsPath.splitext (OsPath.basename source_path)) in
          let used := cache_values (mesh_cache st) in
          match unique_usd_path (length used) used output_dir base_name 0 with
          | None => (inl (RuntimeError "unique_usd_path: bound reached"), st)
          | Some usd_path =>
              let st := _copy_adjacent_textures env output_dir source_path st in
              let st := add_conversion source_path usd_path st in
              if run_conversion env source_path usd_path then
                (inr usd_path,
                 set_mesh_cache (<[source_path := usd_path]> (mesh_cache st))
                                (add_created usd_path st))
              else
                (inl (RuntimeError ("Mesh conversion failed for " ++ source_path)), st)
          end
    end.

(** [MeshConverter.copy_texture] *)
Definition copy_texture (env : Env) (output_dir source_path : string) (st : RunState)
    : string * RunState :=
  if negb (path_exists env st source_path) then
    (source_path, add_log [(WARNING, "Texture not found: " ++ source_path)] st)
  else
    let dest := OsPath.join output_dir (OsPath.basename source_path) in
    if path_exists env st dest then (dest, st)
    else (dest, copy2 source_path dest st).

(** ** materials.py *)

(** [MaterialBuilder._material_hash] *)
Definition _material_hash (mat : SdfMaterial) : MaterialKey :=
  (mat_diffuse mat, mat_specular mat,
   match mat_pbr mat with
   | Some pbr => Some (pbr_metalness pbr, pbr_roughness pbr, pbr_albedo_map pbr)
   | None => None
   end).

(** [key in cache] and [cache[key]] on a dictionary kept as the list of its
    items. *)
Fixpoint cache_lookup (key : MaterialKey) (cache : list (MaterialKey * string))
    : option string :=
  match cache with
  | [] => None
  | (k, v) :: rest => if decide (k = key) then Some v else cache_lookup key rest
  end.

(** [MaterialBuilder._setup_texture] *)
Definition _setup_texture (env : Env) (meshes_dir mat_path texture_file : string)
    (st : RunState) : RunState :=
  let '(texture_file, st) := copy_texture env meshes_dir texture_file st in
  let tex := mat_path ++ "/diffuse_texture" in
  let uv := mat_path ++ "/uv_reader" in
  emit [Define "Shader" tex;
        SetAttr tex "Id" (VToken "UsdUVTexture");
        CreateInput tex "file" (VAsset texture_file);
        CreateInput tex "wrapS" (VToken "repeat");
        CreateInput tex "wrapT" (VToken "repeat");
        CreateOutput tex "rgb";
        ConnectToSource (mat_path ++ "/PreviewSurface") "diffuseColor" tex "rgb";
        Define "Shader" uv;
        SetAttr uv "Id" (VToken "UsdPrimvarReader_float2");
        CreateInput uv "varname" (VToken "st");
        CreateOutput uv "result";
        ConnectToSource tex "st" uv "result"] st.

(** [MaterialBuilder.create_material]: the path of the material. *)
Definition create_material (env : Env) (meshes_dir looks_path : string)
    (sdf_mat : SdfMaterial) (name_hint : string) (st : RunState) : string * RunState :=
  let mat_key := _material_hash sdf_mat in
  match cache_lookup mat_key (material_cache st) with
  | Some mat_path => (mat_path, st)
  | None =>
      let mat_name :=
        if negb (String.eqb name_hint "") then sanitize_usd_name name_hint
        else "material_" ++ pretty (material_counter st) in
      let counter := S (material_counter st) in
      let mat_path := looks_path ++ "/" ++ mat_name in
      let shader := mat_path ++ "/PreviewSurface" in
      let st :=
        emit [Define "Material" mat_path;
              Define "Shader" shader;
              SetAttr shader "Id" (VToken "UsdPreviewSurface");
              CreateInput shader "diffuseColor" (VVec3 (mat_diffuse sdf_mat))] st in
      let st :=
        match mat_pbr sdf_mat with
        | Some pbr =>
            let st :=
              emit [CreateInput shader "metallic" (VFloat (pbr_metalness pbr));
                    CreateInput shader "roughness" (VFloat (pbr_roughness pbr))] st in
            if negb (String.eqb (pbr_albedo_map_resolved pbr) "")
               && path_exists env st (pbr_albedo_map_resolved pbr)
            then _setup_texture env meshes_dir mat_path (pbr_albedo_map_resolved pbr) st
            else st
        | None =>
            emit [CreateInput shader "metallic" (VFloat 0);
                  CreateInput shader "roughness" (VFloat 0.5)] st
        end in
      let '(sr, sg, sb) := mat_specular sdf_mat in
      let spec_avg := ((sr + sg + sb) / 3)%R in
      let st :=
        if bool_decide (spec_avg > 0.5)%R
        then emit [CreateInput shader "ior" (VFloat 1.5)] st else st in
      let st := emit [ConnectToSource mat_path "surface" shader "surface"] st in
      (mat_path, set_materials (material_cache st ++ [(mat_key, mat_path)]) counter st)
  end.

(** [MaterialBuilder.assign_material] *)
Definition assign_material (prim_path material_path : string) (st : RunState) : RunState :=
  emit [Bind prim_path material_path] st.

(** ** usd_builder.py *)

(** The options of a run, as the command line gives them. *)
Record Config := {
  output_path : string;
  up_axis : string;
  scale : R;
  include_physics : bool;
  include_collision : bool;
  merge_fixed_joints : bool
}.

Section Builder.

Variable env : Env.
Variable cfg : Config.

(** [SdfToUsdConverter.output_path] and the directories derived from it:
    the one given to the mesh converter, its [meshes] directory, and
    [UsdBuilder.output_dir]. *)
Definition abs_output_path : string := abspath env (output_path cfg).
Definition meshes_dir : string :=
  OsPath.join (OsPath.dirname abs_output_path) "meshes".
Definition builder_output_dir : string :=
  OsPath.dirname (abspath env abs_output_path).

(** [UsdBuilder._set_xform] *)
Definition _set_xform (path : string) (pose : Pose) (scale_arg : option Vec3)
    : list StageOp :=
  [AddTranslateOp path (Pose.x pose, Pose.y pose, Pose.z pose);
   AddOrientOp path (Pose.to_quaternion_wxyz pose)]
  ++ match scale_arg with
     | Some sc =>
         if negb (bool_decide (sc = (1, 1, 1)%R)) then [AddScaleOp path sc]
         else if negb (bool_decide (scale cfg = 1%R))
              then [AddScaleOp path (scale cfg, scale cfg, scale cfg)] else []
     | None =>
         if negb (bool_decide (scale cfg = 1%R))
         then [AddScaleOp path (scale cfg, scale cfg, scale cfg)] else []
     end.

(** [UsdBuilder._build_mesh_reference] *)
Definition _build_mesh_reference (prim_path : string) (mesh_geom : SdfMeshGeometry)
    (pose : Pose) (st : RunState) : option string * RunState :=
  let resolved := mesh_resolved_path mesh_geom in
  if String.eqb resolved "" || negb (path_exists env st resolved) then
    (None, add_log [(WARNING, "  Mesh file not found: " ++ resolved)] st)
  else
    match mesh_convert env meshes_dir resolved st with
    | (inl e, st) => (None, add_log [(ERROR, "  Mesh conversion failed")] st)
    | (inr usd_mesh_path, st) =>
        let rel_path := relpath env usd_mesh_path builder_output_dir in
        (Some prim_path,
         emit ([Define "Xform" prim_path]
               ++ _set_xform prim_path pose (Some (mesh_scale mesh_geom))
               ++ [AddReference prim_path ("./" ++ rel_path)]) st)
    end.

Definition _build_box (prim_path : string) (box : SdfBoxGeometry) (pose : Pose)
    (st : RunState) : option string * RunState :=
  let cube_path := prim_path ++ "/Box" in
  (Some cube_path,
   emit ([Define "Xform" prim_path]
         ++ _set_xform prim_path pose None
         ++ [Define "Cube" cube_path;
             SetAttr cube_path "Size" (VFloat 1);
             Define "Xform" cube_path;
             AddScaleOp cube_path (box_size box)]) st).

Definition _build_cylinder (prim_path : string) (cyl : SdfCylinderGeometry)
    (pose : Pose) (st : RunState) : option string * RunState :=
  let cyl_path := prim_path ++ "/Cylinder" in
  (Some cyl_path,
   emit ([Define "Xform" prim_path]
         ++ _set_xform prim_path pose None
         ++ [Define "Cylinder" cyl_path;
             SetAttr cyl_path "Radius" (VFloat (cylinder_radius cyl));
             SetAttr cyl_path "Height" (VFloat (cylinder_length cyl));
             SetAttr cyl_path "Axis" (VToken "Z")]) st).

Definition _build_sphere (prim_path : string) (sph : SdfSphereGeometry)
    (pose : Pose) (st : RunState) : option string * RunState :=
  let sph_path := prim_path ++ "/Sphere" in
  (Some sph_path,
   emit ([Define "Xform" prim_path]
         ++ _set_xform prim_path pose None
         ++ [Define "Sphere" sph_path;
             SetAttr sph_path "Radius" (VFloat (sphere_radius sph))]) st).

Definition _build_capsule (prim_path : string) (cap : SdfCapsuleGeometry)
    (pose : Pose) (st : RunState) : option string * RunState :=
  let cap_path := prim_path ++ "/Capsule" in
  (Some cap_path,
   emit ([Define "Xform" prim_path]
         ++ _set_xform prim_path pose None
         ++ [Define "Capsule" cap_path;
             SetAttr cap_path "Radius" (VFloat (capsule_radius cap));
             SetAttr cap_path "Height" (VFloat (capsule_length cap));
             SetAttr cap_path "Axis" (VToken "Z")]) st).

(** [UsdBuilder._build_geometry]: the path of the prim built, if any. *)
Definition _build_geometry (prim_path : string) (geometry : SdfGeometry) (pose : Pose)
    (st : RunState) : option string * RunState :=
  match geom_mesh geometry, geom_box geometry, geom_cylinder geometry,
        geom_sphere geometry, geom_capsule geometry with
  | Some mesh, _, _, _, _ => _build_mesh_reference prim_path mesh pose st
  | None, Some box, _, _, _ => _build_box prim_path box pose st
  | None, None, Some cyl, _, _ => _build_cylinder prim_path cyl pose st
  | None, None, None, Some sph, _ => _build_sphere prim_path sph pose st
  | None, None, None, None, Some cap => _build_capsule prim_path cap pose st
  | None, None, None, None, None => (None, st)
  end.

(** [UsdBuilder._build_visual] *)
Definition _build_visual (looks_path parent_path : string) (visual : SdfVisual)
    (st : RunState) : RunState :=
  let vis_name := sanitize_usd_name (visual_name visual) in
  let vis_path := parent_path ++ "/" ++ vis_name in
  match visual_geometry visual with
  | None => st
  | Some geometry =>
      match _build_geometry vis_path geometry (visual_pose visual) st with
      | (None, st) => st
      | (Some geom_path, st) =>
          match visual_material visual with
          | Some material =>
              let '(mat_path, st) :=
                create_material env meshes_dir looks_path material vis_name st in
              assign_material geom_path mat_path st
          | None => st
          end
      end
  end.

(** [UsdBuilder._build_collision] *)
Definition _build_collision (parent_path : string) (collision : SdfCollision)
    (st : RunState) : RunState :=
  let col_name := sanitize_usd_name (collision_name collision) in
  let col_path := parent_path ++ "/" ++ col_name in
  match collision_geometry collision with
  | None => st
  | Some geometry =>
      match _build_geometry col_path geometry (collision_pose collision) st with
      | (None, st) => st
      | (Some geom_path, st) => emit [Apply "CollisionAPI" geom_path] st
      end
  end.

(** The visuals scope of a link and its visuals, when the link has any. *)
Definition build_visuals (looks_path link_path : string) (visuals : list SdfVisual)
    (st : RunState) : RunState :=
  match visuals with
  | [] => st
  | _ =>
      let visuals_path := link_path ++ "/visuals" in
      foldl (fun st visual => _build_visual looks_path visuals_path visual st)
            (emit [Define "Scope" visuals_path] st) visuals
  end.

(** The collisions scope of a link and its collisions, when collisions are
    included and the link has any. *)
Definition build_collisions (link_path : string) (collisions : list SdfCollision)
    (st : RunState) : RunState :=
  if include_collision cfg then
    match collisions with
    | [] => st
    | _ =>
        let collisions_path := link_path ++ "/collisions" in
        foldl (fun st collision => _build_collision collisions_path collision st)
              (emit [Define "Scope" collisions_path] st) collisions
    end
  else st.

(** [UsdBuilder._build_link] *)
Definition _build_link (looks_path model_path : string) (link : SdfLink)
    (st : RunState) : RunState :=
  let link_path := model_path ++ "/" ++ sanitize_usd_name (link_name link) in
  let st := emit ([Define "Xform" link_path] ++ _set_xform link_path (link_pose link) None)
                 st in
  let st := if include_physics cfg then emit (apply_rigid_body link_path link) st
            else st in
  let st := build_visuals looks_path link_path (link_visuals link) st in
  build_collisions link_path (link_collisions link) st.

(** [UsdBuilder.build] *)
Definition build (model : SdfModel) (st : RunState) : RunState :=
  let model_path := "/" ++ sanitize_usd_name (model_name model) in
  let looks_path := model_path ++ "/Looks" in
  let st :=
    emit ([CreateNew abs_output_path;
           SetStageUpAxis (if String.eqb (up_axis cfg) "Z" then "Z" else "Y");
           SetStageMetersPerUnit 1;
           DefinePrim model_path;
           SetDefaultPrim model_path;
           Define "Xform" model_path]
          ++ _set_xform model_path (model_pose model) None
          ++ [Define "Scope" looks_path]
          ++ (if include_physics cfg then [Apply "ArticulationRootAPI" model_path]
              else [])) st in
  let st := foldl (fun st link => _build_link looks_path model_path link st)
                  st (model_links model) in
  let st :=
    if include_physics cfg then
      foldl (fun st joint =>
               let '(ops, records) := create_joint model_path joint in
               add_log records (emit ops st))
            st (model_joints model)
    else st in
  emit [Save] st.

(** ** converter.py *)

(** The mesh path of a geometry that is set and holds a mesh. *)
Definition mesh_path_of (geometry : option SdfGeometry) : option string :=
  match geometry with
  | Some g =>
      match geom_mesh g with
      | Some mesh => Some (mesh_resolved_path mesh)
      | None => None
      end
  | None => None
  end.

(** The paths added to [mesh_paths], in the order of the additions. *)
Definition link_mesh_paths (link : SdfLink) : list string :=
  omap (fun vis => mesh_path_of (visual_geometry vis)) (link_visuals link)
  ++ (if include_collision cfg
      then omap (fun col => mesh_path_of (collision_geometry col)) (link_collisions link)
      else []).

Definition collect_mesh_paths (model : SdfModel) : list string :=
  flat_map link_mesh_paths (model_links model).

(** The order of [str]: by code points, a prefix first. *)
Definition str_le (a b : string) : Prop := String.leb a b = true.

#[global] Instance str_le_dec (a b : string) : Decision (str_le a b).
Proof. unfold str_le. apply _. Defined.

(** [sorted(mesh_paths)] for the set [mesh_paths]. *)
Definition sorted_mesh_paths (model : SdfModel) : list string :=
  merge_sort str_le (remove_dups (collect_mesh_paths model)).

(** One turn of the loop that converts the meshes ahead of the build:
    the state and the number of meshes converted so far. *)
Definition preconvert_step (acc : RunState * nat) (mesh_path : string) : RunState * nat :=
  let '(st, converted) := acc in
  if path_exists env st mesh_path then
    match mesh_convert env meshes_dir mesh_path st with
    | (inr _, st) => (st, S converted)
    | (inl e, st) =>
        (add_log [(ERROR, "  Failed to convert " ++ mesh_path)] st, converted)
    end
  else (st, converted).

Definition preconvert (model : SdfModel) (st : RunState) : RunState * nat :=
  foldl preconvert_step (st, 0) (sorted_mesh_paths model).

(** What a run reports. *)
Record Summary := {
  summary_output : string;
  summary_links : nat;
  summary_joints : nat;
  summary_unique_meshes : nat;
  summary_converted : nat;
  final : RunState
}.

(** [SdfToUsdConverter.convert] from step 2 on, for the model that step 1
    has loaded. *)
Definition convert (model : SdfModel) : Summary :=
  let '(st, converted) := preconvert model initial_state in
  let st := build model st in
  {| summary_output := abs_output_path;
     summary_links := length (model_links model);
     summary_joints := length (model_joints model);
     summary_unique_meshes := length (sorted_mesh_paths model);
     summary_converted := converted;
     final := st |}.

End Builder.

(** ** Observations on a stage and on a geometry *)


(** The material bindings made on the stage: prim path and material path. *)
Definition bindings (ops : list StageOp) : list (string * string) :=
  omap (fun op => match op with Bind p m => Some (p, m) | _ => None end) ops.

(** The material prims defined on the stage. *)
Definition materials_defined (ops : list StageOp) : list string :=
  omap (fun op =>
          match op with
          | Define schema p => if String.eqb schema "Material" then Some p else None
          | _ => None
          end) ops.

(** The number of fields of a geometry container that are set. *)
Definition populated (g : SdfGeometry) : nat :=
  (if is_set (geom_mesh g) then 1 else 0) + (if is_set (geom_box g) then 1 else 0)
  + (if is_set (geom_cylinder g) then 1 else 0) + (if is_set (geom_sphere g) then 1 else 0)
  + (if is_set (geom_capsule g) then 1 else 0).

(** The number of calls of the asset converter with a given source. *)
Definition conversions_of (source : string) (calls : list (string * string)) : nat :=
  length (filter (fun c => c.1 = source) calls).

(** The attribute that [create_joint] leaves on the joint prim. *)
Definition joint_attr (model_path : string) (joint : SdfJoint) (attr : string)
    : option Value :=
  attr_value (create_joint model_path joint).1
             (model_path ++ "/" ++ sanitize_usd_name (joint_name joint)) attr.

(** A joint named [j] between links [a] and [b], of the given type and
    limits, with the defaults of the dataclasses elsewhere. *)
Definition joint_with (type : string) (lower upper : R) : SdfJoint :=
  {| joint_name := "j"; joint_type := type; joint_parent := "a"; joint_child := "b";
     joint_pose := Pose.identity;
     joint_axis := {| axis_xyz := (0, 0, 1)%R; axis_lower_limit := lower;
                      axis_upper_limit := upper; axis_damping := 0;
                      axis_stiffness := 0; axis_friction := 0 |} |}.

(** The limit that a joint of the given type emits for a stored value. *)
Definition emitted_limit (type : string) (stored : R) : option Value :=
  if String.eqb type "revolute" then
    if bool_decide (Rabs (PyMath.degrees stored) < 1e10)%R
    then Some (VFloat (PyMath.degrees stored)) else None
  else if String.eqb type "prismatic" then
    if bool_decide (Rabs stored < 1e10)%R then Some (VFloat stored) else None
  else None.

(** ** A reader of decimal literals

    [float] is not part of the package and the loader takes it as a
    parameter.  The examples below need one reader: [float_of_decimal]
    reads the texts sign, digits, point, digits, on which [float] returns
    the number written, and rejects every text that holds another character,
    among them the words made of letters other than the special values, on
    which [float] raises [ValueError]. *)

Fixpoint digits_value (acc : Z) (s : string) : option Z :=
  match s with
  | EmptyString => Some acc
  | String c r =>
      if Py.in_range 48 57 c
      then digits_value (10 * acc + (Z.of_N (Py.code c) - 48)) r
      else None
  end.

Definition float_of_decimal (s : string) : option R :=
  let '(negative, body) :=
    match s with
    | String "-" r => (true, r)
    | String "+" r => (false, r)
    | _ => (false, s)
    end in
  let '(int_part, frac_part) := Py.split_once "." body in
  let frac := default "" frac_part in
  if String.eqb (int_part ++ frac) "" then None
  else
    m ← digits_value 0 (int_part ++ frac);
    Some ((if negative then - IZR m else IZR m) / 10 ^ String.length frac)%R.

(** ** Documents used in the examples *)

(** A link [l] with one visual [v] whose geometry holds a plane, a shape of
    SDF that the loader does not read:
    [<sdf><model name="m"><link name="l"><visual name="v">
       <geometry><plane/></geometry></visual></link></model></sdf>] *)
Definition plane_doc : Element :=
  Elem "sdf" [("version", "1.7")] None
    [Elem "model" [("name", "m")] None
       [Elem "link" [("name", "l")] None
          [Elem "visual" [("name", "v")] None
             [Elem "geometry" [] None [Elem "plane" [] None []]]]]].

(** A link with a box visual, a visual without geometry, a sphere
    collision and a collision without geometry. *)
Definition mixed_doc : Element :=
  Elem "sdf" [("version", "1.7")] None
    [Elem "model" [("name", "m")] None
       [Elem "link" [("name", "l")] None
          [Elem "visual" [("name", "body")] None
             [Elem "geometry" [] None
                [Elem "box" [] None [Elem "size" [] (Some "1 2 3") []]]];
           Elem "visual" [("name", "ghost")] None
             [Elem "pose" [] (Some "0 0 1 0 0 0") []];
           Elem "collision" [("name", "hull")] None
             [Elem "geometry" [] None
                [Elem "sphere" [] None [Elem "radius" [] (Some "0.5") []]]];
           Elem "collision" [("name", "none")] None []]]].

(** ** Environments and models used in the examples *)

(** [os.path.relpath(path, start)] for a path below [start]. *)
Definition relpath_below (path start : string) : string :=
  if Py.startswith (start ++ "/") path then Py.drop (S (String.length start)) path
  else path.

(** A file system that holds the listed files and no texture; paths are
    absolute and normalised already; the asset converter succeeds on every
    mesh when [ok] is true and fails on every mesh otherwise. *)
Definition example_env (files : list string) (ok : bool) : Env :=
  {| fs_exists := fun p => bool_decide (p ∈ files);
     abspath := fun p => p;
     relpath := relpath_below;
     listdir := fun _ => [];
     run_conversion := fun _ _ => ok |}.

Definition example_cfg : Config :=
  {| output_path := "/out/m.usda"; up_axis := "Z"; scale := 1;
     include_physics := true; include_collision := true;
     merge_fixed_joints := false |}.

Definition mesh_geometry (path : string) : SdfGeometry :=
  {| geom_mesh := Some {| mesh_uri := path; mesh_resolved_path := path;
                          mesh_scale := (1, 1, 1)%R |};
     geom_box := None; geom_cylinder := None; geom_sphere := None;
     geom_capsule := None |}.

Definition box_geometry : SdfGeometry :=
  {| geom_mesh := None; geom_box := Some SdfBoxGeometry_default;
     geom_cylinder := None; geom_sphere := None; geom_capsule := None |}.

Definition mesh_visual (name path : string) : SdfVisual :=
  {| visual_name := name; visual_pose := Pose.identity;
     visual_geometry := Some (mesh_geometry path); visual_material := None |}.

Definition box_visual (name : string) (diffuse : Vec3) : SdfVisual :=
  {| visual_name := name; visual_pose := Pose.identity;
     visual_geometry := Some box_geometry;
     visual_material := Some {| mat_diffuse := diffuse;
                                mat_specular := (0.1, 0.1, 0.1)%R;
                                mat_pbr := None |} |}.

Definition link_of (name : string) (visuals : list SdfVisual) : SdfLink :=
  {| link_name := name; link_pose := Pose.identity; link_inertial := None;
     link_visuals := visuals; link_collisions := [] |}.

Definition model_of (links : list SdfLink) : SdfModel :=
  {| model_name := "m"; model_pose := Pose.identity; model_links := links;
     model_joints := [] |}.



(** Two links, each with a box visual named [visual]; the first is red, the
    second is blue. *)
Definition two_colours : SdfModel :=
  model_of [link_of "a" [box_visual "visual" (1, 0, 0)%R];
            link_of "b" [box_visual "visual" (0, 0, 1)%R]].

(** ** Invariants of a run *)

(** The extension of the source after [abspath] is one the converter takes. *)
Definition supported_source (source : string) : bool :=
  bool_decide (Py.lower (snd (OsPath.splitext source)) ∈ SUPPORTED_MESH_FORMATS).

(** The number of calls of the asset converter with source [source] up to a
    state of the run. *)
Definition attempts (source : string) (st : RunState) : nat :=
  conversions_of source (conversions st).

(** A source is in the cache after one call of the asset converter and is
    not in the cache before any. *)
Definition converted_once (source : string) (st : RunState) : Prop :=
  match mesh_cache st !! source with
  | Some _ => attempts source st = 1
  | None => attempts source st = 0
  end.

(** A later state of the run, seen from [source]: the cache has kept its
    entries, the stage has kept its calls, and [converted_once] is kept. *)
Definition extends (source : string) (st st' : RunState) : Prop :=
  (forall k v, mesh_cache st !! k = Some v -> mesh_cache st' !! k = Some v)
  /\ (forall op, op ∈ stage st -> op ∈ stage st')
  /\ (converted_once source st -> converted_once source st').

(** The same on the states of the loop that converts ahead of the build. *)
Definition extends_fst (source : string) (a b : RunState * nat) : Prop :=
  extends source a.1 b.1.








(** ** Further observations *)

(** The text has no slash. *)
Definition no_slash (s : string) : Prop :=
  existsb (Ascii.eqb "/") (list_ascii_of_string s) = false.

(** The characters that the sanitizer lets through. *)
Definition name_char (c : ascii) : bool := Py.isalnum c || Ascii.eqb c "_".

(** The three replacements of the sanitizer on one character. *)
Definition replaced (c : ascii) : ascii :=
  let r (old : ascii) (c : ascii) : ascii := if Ascii.eqb c old then "_"%char else c in
  r " "%char (r "."%char (r "-"%char c)).

(** The joint record with another type. *)
Definition with_type (type : string) (joint : SdfJoint) : SdfJoint :=
  {| joint_name := joint_name joint; joint_type := type;
     joint_parent := joint_parent joint; joint_child := joint_child joint;
     joint_pose := joint_pose joint; joint_axis := joint_axis joint |}.

(** The joint types that [create_joint] maps to a schema. *)
Definition mapped_joint_type (type : string) : bool :=
  bool_decide (type ∈ ["revolute"; "prismatic"; "fixed"; "ball"]).

(** A relation on the states of a run, seen on the states of the loop that
    converts ahead of the build. *)
Definition on_fst (R : relation RunState) : relation (RunState * nat) :=
  fun a b => R a.1 b.1.

(** No two sources of the cache share a converted file. *)
Definition cache_injective (c : gmap string string) : Prop :=
  forall s1 s2 usd, c !! s1 = Some usd -> c !! s2 = Some usd -> s1 = s2.

(** A later state of the run whose cache is injective when the cache of
    the earlier state is. *)
Definition keeps_injective (st st' : RunState) : Prop :=
  cache_injective (mesh_cache st) -> cache_injective (mesh_cache st').

(** A later state of the run whose stage is the stage of the earlier state
    with calls appended. *)
Definition stage_appended (st st' : RunState) : Prop :=
  exists ops, stage st' = (stage st ++ ops)%list.

(** The stage is the same. *)
Definition stage_kept (st st' : RunState) : Prop := stage st' = stage st.

(** No two texture copies made so far went to the same path, and every
    path a copy went to is among the files the run has written and held no
    file when the run started. *)
Definition copies_fresh (env : Env) (st : RunState) : Prop :=
  NoDup (copies st).*2
  /\ (forall d, d ∈ (copies st).*2 -> d ∈ created st /\ fs_exists env d = false).

Definition keeps_copies_fresh (env : Env) (st st' : RunState) : Prop :=
  copies_fresh env st -> copies_fresh env st'.

(** The texture copies made from [st] to [st']: nothing else is written,
    no two of them go to the same path, and each goes to a path that holds
    no file in [st]. *)
Definition copied_fresh (env : Env) (st st' : RunState) : Prop :=
  exists new,
    copies st' = (copies st ++ new)%list
    /\ created st' = (created st ++ new.*2)%list
    /\ NoDup new.*2
    /\ forall d, d ∈ new.*2 -> path_exists env st d = false.

(** The model without its collisions. *)
Definition link_without_collisions (link : SdfLink) : SdfLink :=
  {| link_name := link_name link; link_pose := link_pose link;
     link_inertial := link_inertial link; link_visuals := link_visuals link;
     link_collisions := [] |}.

Definition without_collisions (model : SdfModel) : SdfModel :=
  {| model_name := model_name model; model_pose := model_pose model;
     model_links := map link_without_collisions (model_links model);
     model_joints := model_joints model |}.

(** The model without its joints and without the inertials of its links. *)
Definition link_without_inertial (link : SdfLink) : SdfLink :=
  {| link_name := link_name link; link_pose := link_pose link;
     link_inertial := None; link_visuals := link_visuals link;
     link_collisions := link_collisions link |}.

Definition without_physics (model : SdfModel) : SdfModel :=
  {| model_name := model_name model; model_pose := model_pose model;
     model_links := map link_without_inertial (model_links model);
     model_joints := [] |}.

(** The options with another value of [merge_fixed_joints]. *)
Definition with_merge_fixed_joints (b : bool) (cfg : Config) : Config :=
  {| output_path := output_path cfg; up_axis := up_axis cfg; scale := scale cfg;
     include_physics := include_physics cfg;
     include_collision := include_collision cfg; merge_fixed_joints := b |}.

(** The prim of the model and the prim of a link. *)
Definition model_prim (model : SdfModel) : string :=
  "/" ++ sanitize_usd_name (model_name model).

Definition link_prim (model : SdfModel) (link : SdfLink) : string :=
  model_prim model ++ "/" ++ sanitize_usd_name (link_name link).

(** The options of the examples with a global scale of 2. *)
Definition scaled_cfg : Config :=
  {| output_path := "/out/m.usda"; up_axis := "Z"; scale := 2;
     include_physics := true; include_collision := true;
     merge_fixed_joints := false |}.

(** The options of the examples without collisions, and without physics. *)
Definition visual_only_cfg : Config :=
  {| output_path := "/out/m.usda"; up_axis := "Z"; scale := 1;
     include_physics := true; include_collision := false;
     merge_fixed_joints := false |}.

Definition no_physics_cfg : Config :=
  {| output_path := "/out/m.usda"; up_axis := "Z"; scale := 1;
     include_physics := false; include_collision := true;
     merge_fixed_joints := false |}.

(** A joint element with neither a type nor a limit:
    [<joint name="j"><parent>a</parent><child>b</child>
       <axis><xyz>0 0 1</xyz></axis></joint>] *)
Definition bare_joint_elem : Element :=
  Elem "joint" [("name", "j")] None
    [Elem "parent" [] (Some "a") [];
     Elem "child" [] (Some "b") [];
     Elem "axis" [] None [Elem "xyz" [] (Some "0 0 1") []]].

(** A model element with two links and the joint above between them. *)
Definition two_link_elem : Element :=
  Elem "model" [("name", "arm")] None
    [Elem "link" [("name", "a")] None [];
     bare_joint_elem;
     Elem "link" [] None []].

(** ** The run: the calls of the asset converter, the log and the stage *)

(** The calls of the asset converter made so far are kept, in their order. *)
Definition conversions_kept (st st' : RunState) : Prop :=
  conversions st `prefix_of` conversions st'.



(** A later state in which a property of the state still holds. *)
Definition keeps (P : RunState -> Prop) (st st' : RunState) : Prop := P st -> P st'.

#[global] Instance LogLevel_eq_dec : EqDecision LogLevel.
Proof. solve_decision. Defined.







(** A later state of the run: the log and the cache have kept what they
    held. *)
Definition log_cache_kept (st st' : RunState) : Prop :=
  (forall r, r ∈ log st -> r ∈ log st')
  /\ (forall k v, mesh_cache st !! k = Some v -> mesh_cache st' !! k = Some v).
(** * Properties *)

(** ** The naming sanitizer *)

Example sanitize_left_leg : sanitize_usd_name "left-leg.01" = "left_leg_01".
Proof. reflexivity. Qed.

Example sanitize_9wheel : sanitize_usd_name "9wheel" = "_9wheel".
Proof. reflexivity. Qed.

Example sanitize_empty : sanitize_usd_name "" = "_unnamed".
Proof. reflexivity. Qed.

(** C4.  The sanitizer tests the first character before it drops the
    characters that are not allowed.  On ["@9wheel"] the first character is
    ['@'], no underscore is put in front, then ['@'] is dropped: the name
    returned starts with the digit 9. *)
Theorem sanitize_usd_name_leading_digit :
  sanitize_usd_name "@9wheel" = "9wheel"
  /\ (exists c rest, sanitize_usd_name "@9wheel" = String c rest /\ Py.isdigit c = true).
Proof.
  split; [reflexivity|].
  exists "9"%char, "wheel". split; reflexivity.
Qed.

(** ** Axis snapping *)

Section Axis.

Local Open Scope R_scope.

(** C7.  The axis returned is the first of X, Y, Z whose component has the
    largest magnitude: X when no other magnitude exceeds that of x, Y when
    the magnitude of y exceeds that of x and is not exceeded by that of z,
    Z when the magnitude of z exceeds both.  The two axes of the spec snap
    to Y and to Z. *)
Theorem determine_axis_largest (vx vy vz : R) :
  let axis := _determine_axis (vx, vy, vz) in
  (axis = "X" \/ axis = "Y" \/ axis = "Z")
  /\ (axis = "X" <-> Rabs vx >= Rabs vy /\ Rabs vx >= Rabs vz)
  /\ (axis = "Y" <-> Rabs vy > Rabs vx /\ Rabs vy >= Rabs vz)
  /\ (axis = "Z" <-> Rabs vz > Rabs vx /\ Rabs vz > Rabs vy)
  /\ _determine_axis (0.1, 0.9, 0.05) = "Y"
  /\ _determine_axis (0, 0, 1) = "Z".
Proof.
  assert (Hy : _determine_axis (0.1, 0.9, 0.05) = "Y").
  { unfold _determine_axis, Rabs.
    repeat destruct Rcase_abs; try lra;
      repeat case_bool_decide; simpl; try reflexivity; lra. }
  assert (Hz : _determine_axis (0, 0, 1) = "Z").
  { unfold _determine_axis, Rabs.
    repeat destruct Rcase_abs; try lra;
      repeat case_bool_decide; simpl; try reflexivity; lra. }
  cbv zeta. rewrite Hy, Hz. clear Hy Hz. unfold _determine_axis.
  repeat case_bool_decide; simpl;
    (split; [auto|]); (split; [|split; [|split; [|split; reflexivity]]]);
    split; intros; try discriminate; try lra; try reflexivity.
Qed.

End Axis.

(** ** Joint limits *)

Section Limits.

Local Open Scope R_scope.

Lemma attr_value_app (ops1 ops2 : list StageOp) (path attr : string) :
  attr_value (ops1 ++ ops2) path attr =
  match attr_value ops2 path attr with
  | Some v => Some v
  | None => attr_value ops1 path attr
  end.
Proof.
  unfold attr_value. rewrite omap_app.
  destruct (omap _ ops2) as [|v l] eqn:E using rev_ind.
  - by rewrite app_nil_r.
  - by rewrite app_assoc, !last_snoc.
Qed.

Lemma degrees_huge (v : R) : 1e10 <= Rabs v -> ~ Rabs (PyMath.degrees v) < 1e10.
Proof.
  intros Hv. unfold PyMath.degrees.
  pose proof PI_RGT_0 as Hpos. pose proof PI_4 as H4.
  rewrite Rabs_mult, (Rabs_pos_eq (180 / PI)).
  2:{ apply Rlt_le, Rdiv_lt_0_compat; lra. }
  assert (1 <= 180 / PI).
  { apply Rmult_le_reg_r with PI; [lra|].
    unfold Rdiv. rewrite Rmult_assoc, Rinv_l by lra. lra. }
  pose proof (Rabs_pos v). nra.
Qed.

Lemma degrees_1e9 : ~ Rabs (PyMath.degrees 1e9) < 1e10.
Proof.
  unfold PyMath.degrees.
  pose proof PI_RGT_0 as Hpos. pose proof PI_4 as H4.
  assert (45 <= 180 / PI).
  { apply Rmult_le_reg_r with PI; [lra|].
    unfold Rdiv. rewrite Rmult_assoc, Rinv_l by lra. lra. }
  rewrite Rabs_pos_eq by nra. nra.
Qed.

Ltac joint_attr_tac :=
  unfold attr_value; repeat case_bool_decide; simpl;
  rewrite ?String.eqb_refl; simpl; try reflexivity; try lra.

Lemma revolute_attr (jp pp cp : string) (joint : SdfJoint) :
  attr_value (_create_revolute_joint jp pp cp joint) jp "LowerLimit" =
    (if bool_decide (Rabs (PyMath.degrees (axis_lower_limit (joint_axis joint))) < 1e10)
     then Some (VFloat (PyMath.degrees (axis_lower_limit (joint_axis joint))))
     else None)
  /\ attr_value (_create_revolute_joint jp pp cp joint) jp "UpperLimit" =
    (if bool_decide (Rabs (PyMath.degrees (axis_upper_limit (joint_axis joint))) < 1e10)
     then Some (VFloat (PyMath.degrees (axis_upper_limit (joint_axis joint))))
     else None).
Proof. unfold _create_revolute_joint. split; joint_attr_tac. Qed.

Lemma prismatic_attr (jp pp cp : string) (joint : SdfJoint) :
  attr_value (_create_prismatic_joint jp pp cp joint) jp "LowerLimit" =
    (if bool_decide (Rabs (axis_lower_limit (joint_axis joint)) < 1e10)
     then Some (VFloat (axis_lower_limit (joint_axis joint))) else None)
  /\ attr_value (_create_prismatic_joint jp pp cp joint) jp "UpperLimit" =
    (if bool_decide (Rabs (axis_upper_limit (joint_axis joint)) < 1e10)
     then Some (VFloat (axis_upper_limit (joint_axis joint))) else None).
Proof. unfold _create_prismatic_joint. split; joint_attr_tac. Qed.

Lemma fixed_attr (jp pp cp : string) (joint : SdfJoint) :
  attr_value (_create_fixed_joint jp pp cp joint) jp "LowerLimit" = None
  /\ attr_value (_create_fixed_joint jp pp cp joint) jp "UpperLimit" = None.
Proof. unfold _create_fixed_joint. split; joint_attr_tac. Qed.

Lemma create_joint_limits (model_path : string) (j : SdfJoint) :
  joint_attr model_path j "LowerLimit"
    = emitted_limit (joint_type j) (axis_lower_limit (joint_axis j))
  /\ joint_attr model_path j "UpperLimit"
    = emitted_limit (joint_type j) (axis_upper_limit (joint_axis j)).
Proof.
  unfold joint_attr, create_joint, emitted_limit.
  destruct (String.eqb (joint_type j) "revolute"); [apply revolute_attr|].
  destruct (String.eqb (joint_type j) "prismatic"); [apply prismatic_attr|].
  destruct (String.eqb (joint_type j) "fixed"); [apply fixed_attr|].
  destruct (String.eqb (joint_type j) "ball"); [apply fixed_attr|].
  split; reflexivity.
Qed.

(** C3, as the code has it.  A revolute joint emits a limit in degrees,
    and emits it when the magnitude of the value in degrees is below 1e10;
    a prismatic joint emits the stored limit when its magnitude is below
    1e10; a joint of another type emits no limit.  A lower limit of -1e16
    is never emitted. *)
Theorem joint_limits_emitted (model_path : string) (joint : SdfJoint) :
  joint_attr model_path joint "LowerLimit"
    = emitted_limit (joint_type joint) (axis_lower_limit (joint_axis joint))
  /\ joint_attr model_path joint "UpperLimit"
    = emitted_limit (joint_type joint) (axis_upper_limit (joint_axis joint))
  /\ (forall type upper,
        joint_attr model_path (joint_with type (-1e16) upper) "LowerLimit" = None).
Proof.
  split; [apply create_joint_limits|]. split; [apply create_joint_limits|].
  intros type upper. rewrite (proj1 (create_joint_limits _ _)).
  unfold emitted_limit. simpl.
  assert (Hbig : 1e10 <= Rabs (-1e16)).
  { rewrite Rabs_left by lra. lra. }
  rewrite (bool_decide_eq_false_2 _ (degrees_huge _ Hbig)).
  rewrite (bool_decide_eq_false_2 (Rabs (-1e16) < 1e10)) by lra.
  destruct (String.eqb type "revolute"); [reflexivity|].
  destruct (String.eqb type "prismatic"); reflexivity.
Qed.

(** C3, as stated, fails on a revolute joint whose lower limit is 1e9
    radians: the magnitude of the limit is below 1e10, and no lower limit
    is emitted, because the value in degrees is not below 1e10. *)
Lemma revolute_limit_1e9_not_emitted :
  Rabs (axis_lower_limit (joint_axis (joint_with "revolute" 1e9 0))) < 1e10
  /\ joint_attr "/m" (joint_with "revolute" 1e9 0) "LowerLimit" = None.
Proof.
  split.
  - simpl. rewrite Rabs_pos_eq; lra.
  - rewrite (proj1 (create_joint_limits _ _)). unfold emitted_limit. simpl.
    by rewrite (bool_decide_eq_false_2 _ degrees_1e9).
Qed.

End Limits.

(** ** Pose parsing *)

Section PoseParsing.

Variable py_float : string -> option R.

Lemma float_of_str_some (s : string) (v : R) :
  py_float s = Some v -> float_of_str py_float s = Ok v [].
Proof. unfold float_of_str. by intros ->. Qed.

Lemma float_of_str_none (s : string) :
  py_float s = None ->
  float_of_str py_float s
  = Raised (ValueError ("could not convert string to float: " ++ s)).
Proof. unfold float_of_str. by intros ->. Qed.

Lemma for_each_cons {A B : Type} (f : A -> Outcome B) (a : A) (r : list A) :
  for_each f (a :: r) = b ← f a; bs ← for_each f r; mret (b :: bs).
Proof. reflexivity. Qed.

Lemma for_each_float_ok (tokens : list string) :
  Forall (fun t => is_Some (py_float t)) tokens ->
  exists parts, for_each (float_of_str py_float) tokens = Ok parts []
                /\ length parts = length tokens.
Proof.
  induction 1 as [|t ts [v Hv] _ (parts & IH & Hlen)].
  - by exists [].
  - exists (v :: parts). rewrite for_each_cons, (float_of_str_some _ _ Hv), IH.
    split; [reflexivity|]. simpl. by rewrite Hlen.
Qed.

Lemma for_each_float_raises (tokens : list string) :
  Exists (fun t => py_float t = None) tokens ->
  exists msg, for_each (float_of_str py_float) tokens = Raised (ValueError msg).
Proof.
  induction 1 as [t ts Ht | t ts _ (msg & IH)]; rewrite for_each_cons.
  - rewrite (float_of_str_none _ Ht). simpl. eauto.
  - destruct (py_float t) as [v|] eqn:Ht.
    + rewrite (float_of_str_some _ _ Ht), IH. simpl. eauto.
    + rewrite (float_of_str_none _ Ht). simpl. eauto.
Qed.

(** C5, as the code has it.  When [float] accepts every token and the
    tokens are not six, the identity pose is returned and one warning is
    logged; when [float] rejects a token, [ValueError] is raised, whatever
    the number of tokens. *)
Theorem parse_pose_string_malformed (pose_str : string) (degrees : bool) :
  (Forall (fun t => is_Some (py_float t)) (Py.split (Py.strip pose_str)) ->
   length (Py.split (Py.strip pose_str)) <> 6 ->
   parse_pose_string py_float pose_str degrees
   = Ok Pose.identity
        [(WARNING, "Invalid pose string (expected 6 values): '" ++ pose_str ++ "'")])
  /\ (Exists (fun t => py_float t = None) (Py.split (Py.strip pose_str)) ->
      exists msg,
        parse_pose_string py_float pose_str degrees = Raised (ValueError msg)).
Proof.
  unfold parse_pose_string. split.
  - intros Hall Hlen.
    destruct (for_each_float_ok _ Hall) as (parts & -> & Hparts).
    rewrite <- Hparts in Hlen. simpl.
    destruct parts as [|? [|? [|? [|? [|? [|? [|? ?]]]]]]]; simpl in *;
      try reflexivity; lia.
  - intros Hex. destruct (for_each_float_raises _ Hex) as (msg & ->).
    simpl. eauto.
Qed.

End PoseParsing.

Lemma parse_pose_string_malformed_witness :
  parse_pose_string float_of_decimal "1 2 3 4 5" false
  = Ok Pose.identity
       [(WARNING, "Invalid pose string (expected 6 values): '1 2 3 4 5'")].
Proof.
  apply (proj1 (parse_pose_string_malformed float_of_decimal "1 2 3 4 5" false)).
  - repeat constructor; eexists; reflexivity.
  - simpl. lia.
Defined.

(** C5, as stated, fails on a text of five tokens one of which is not a
    number: the list of floats is built before the tokens are counted, and
    [float] raises on the fourth token. *)
Lemma parse_pose_string_five_tokens_raise :
  length (Py.split (Py.strip "1 2 3 abc 5")) = 5
  /\ parse_pose_string float_of_decimal "1 2 3 abc 5" false
     = Raised (ValueError "could not convert string to float: abc").
Proof. split; reflexivity. Qed.

(** ** The loader *)

Lemma bind_Ok_inv {A B : Type} (m : Outcome A) (f : A -> Outcome B) (b : B)
    (l : list LogRecord) :
  m ≫= f = Ok b l ->
  exists a l1 l2, m = Ok a l1 /\ f a = Ok b l2 /\ l = (l1 ++ l2)%list.
Proof.
  destruct m as [a l1|e]; simpl; [|discriminate].
  destruct (f a) as [b' l2|e] eqn:Hf; [|discriminate].
  intros [= <- <-]. eauto 6.
Qed.

Lemma mret_Ok_inv {A : Type} (a b : A) (l : list LogRecord) :
  mret a = Ok b l -> a = b /\ l = [].
Proof. by intros [= <- <-]. Qed.

Ltac inv_bind H :=
  let a := fresh "a" in
  let l1 := fresh "l" in
  let l2 := fresh "l" in
  let H1 := fresh "H" in
  let El := fresh "El" in
  apply bind_Ok_inv in H as (a & l1 & l2 & H1 & H & El).

Section Loader.

Variable py_float : string -> option R.
Variable model_dir : string.

Lemma field_of_option {A : Type} (name : string) (e : Element)
    (f : Element -> Outcome A) (o : option A) (l : list LogRecord) :
  field_of name e (fun c => a ← f c; mret (Some a)) None = Ok o l ->
  is_set o = is_set (find name e).
Proof.
  unfold field_of. destruct (find name e) as [c|]; intros H.
  - inv_bind H. apply mret_Ok_inv in H as [<- _]. reflexivity.
  - apply mret_Ok_inv in H as [<- _]. reflexivity.
Qed.

Lemma _parse_visual_geometry (e : Element) (v : SdfVisual) (l : list LogRecord) :
  _parse_visual py_float model_dir e = Ok v l ->
  is_set (visual_geometry v) = is_set (find "geometry" e).
Proof.
  unfold _parse_visual. intros H.
  inv_bind H. inv_bind H. inv_bind H. apply mret_Ok_inv in H as [<- _]. simpl.
  eapply field_of_option; eassumption.
Qed.

Lemma _parse_collision_geometry (e : Element) (c : SdfCollision) (l : list LogRecord) :
  _parse_collision py_float model_dir e = Ok c l ->
  is_set (collision_geometry c) = is_set (find "geometry" e).
Proof.
  unfold _parse_collision. intros H.
  inv_bind H. inv_bind H. apply mret_Ok_inv in H as [<- _]. simpl.
  eapply field_of_option; eassumption.
Qed.

Lemma is_set_is_Some {A : Type} (o : option A) : is_set o = true <-> is_Some o.
Proof.
  destruct o; simpl; split; intros H; eauto; try discriminate.
  by destruct H.
Qed.

(** The visuals kept by the loop: those parsed from the elements that have
    a geometry child, in the order of the document. *)
Lemma parse_visuals_kept (elems : list Element) (vs : list SdfVisual)
    (l : list LogRecord) :
  parse_visuals py_float model_dir elems = Ok vs l ->
  Forall (fun v => is_Some (visual_geometry v)) vs
  /\ Forall2 (fun e v => exists l', _parse_visual py_float model_dir e = Ok v l')
             (List.filter (fun e => is_set (find "geometry" e)) elems) vs.
Proof.
  revert vs l. induction elems as [|e elems IH]; intros vs l H.
  - apply mret_Ok_inv in H as [<- _]. split; constructor.
  - simpl in H. inv_bind H. inv_bind H. apply mret_Ok_inv in H as [<- _].
    destruct (IH _ _ H1) as [IH1 IH2].
    pose proof (_parse_visual_geometry _ _ _ H0) as Hg. simpl. rewrite <- Hg.
    destruct (is_set (visual_geometry a)) eqn:Hset.
    + split; constructor; eauto. by apply is_set_is_Some.
    + by split.
Qed.

Lemma parse_collisions_kept (elems : list Element) (cs : list SdfCollision)
    (l : list LogRecord) :
  parse_collisions py_float model_dir elems = Ok cs l ->
  Forall (fun c => is_Some (collision_geometry c)) cs
  /\ Forall2 (fun e c => exists l', _parse_collision py_float model_dir e = Ok c l')
             (List.filter (fun e => is_set (find "geometry" e)) elems) cs.
Proof.
  revert cs l. induction elems as [|e elems IH]; intros cs l H.
  - apply mret_Ok_inv in H as [<- _]. split; constructor.
  - simpl in H. inv_bind H. inv_bind H. apply mret_Ok_inv in H as [<- _].
    destruct (IH _ _ H1) as [IH1 IH2].
    pose proof (_parse_collision_geometry _ _ _ H0) as Hg. simpl. rewrite <- Hg.
    destruct (is_set (collision_geometry a)) eqn:Hset.
    + split; constructor; eauto. by apply is_set_is_Some.
    + by split.
Qed.

Lemma _parse_link_items (elem : Element) (link : SdfLink) (l : list LogRecord) :
  _parse_link py_float model_dir elem = Ok link l ->
  (Forall (fun v => is_Some (visual_geometry v)) (link_visuals link)
   /\ Forall2 (fun e v => exists l', _parse_visual py_float model_dir e = Ok v l')
        (List.filter (fun e => is_set (find "geometry" e)) (findall "visual" elem))
        (link_visuals link))
  /\ (Forall (fun c => is_Some (collision_geometry c)) (link_collisions link)
      /\ Forall2 (fun e c => exists l', _parse_collision py_float model_dir e = Ok c l')
           (List.filter (fun e => is_set (find "geometry" e)) (findall "collision" elem))
           (link_collisions link)).
Proof.
  unfold _parse_link. intros H.
  inv_bind H. inv_bind H. inv_bind H. inv_bind H. apply mret_Ok_inv in H as [<- _].
  simpl. split; [eapply parse_visuals_kept | eapply parse_collisions_kept]; eassumption.
Qed.

Lemma for_each_Forall2 {A B : Type} (f : A -> Outcome B) (xs : list A) (ys : list B)
    (l : list LogRecord) :
  for_each f xs = Ok ys l -> Forall2 (fun x y => exists l', f x = Ok y l') xs ys.
Proof.
  revert ys l. induction xs as [|x xs IH]; intros ys l H.
  - apply mret_Ok_inv in H as [<- _]. constructor.
  - rewrite for_each_cons in H. inv_bind H. inv_bind H.
    apply mret_Ok_inv in H as [<- _]. constructor; eauto.
Qed.

Lemma _parse_model_links (elem : Element) (model : SdfModel) (l : list LogRecord) :
  _parse_model py_float model_dir elem = Ok model l ->
  Forall2 (fun e link => exists l', _parse_link py_float model_dir e = Ok link l')
          (findall "link" elem) (model_links model).
Proof.
  unfold _parse_model. intros H.
  inv_bind H. inv_bind H. inv_bind H. apply mret_Ok_inv in H as [<- _]. simpl.
  eapply for_each_Forall2; eassumption.
Qed.

Lemma parse_links (root : Element) (model : SdfModel) (l : list LogRecord) :
  parse py_float model_dir root = Ok model l ->
  exists model_elem,
    Forall2 (fun e link => exists l', _parse_link py_float model_dir e = Ok link l')
            (findall "link" model_elem) (model_links model).
Proof.
  unfold parse. intros H. destruct (find "model" root) as [m|].
  - exists m. eapply _parse_model_links; eassumption.
  - destruct (String.eqb (tag root) "model"); [|discriminate].
    exists root. eapply _parse_model_links; eassumption.
Qed.

(** C10.  In a loaded model every visual and every collision has a
    geometry; the visuals (collisions) of a link are those parsed from the
    visual (collision) elements of the link element that have a geometry
    child, in document order, the other elements being left out. *)
Theorem loaded_items_have_geometry (root : Element) (model : SdfModel)
    (l : list LogRecord) :
  parse py_float model_dir root = Ok model l ->
  Forall (fun link =>
            Forall (fun v => is_Some (visual_geometry v)) (link_visuals link)
            /\ Forall (fun c => is_Some (collision_geometry c)) (link_collisions link))
         (model_links model)
  /\ exists model_elem,
       Forall2 (fun e link =>
                  Forall2 (fun ve v => exists l', _parse_visual py_float model_dir ve = Ok v l')
                    (List.filter (fun ve => is_set (find "geometry" ve)) (findall "visual" e))
                    (link_visuals link)
                  /\ Forall2 (fun ce c =>
                                exists l', _parse_collision py_float model_dir ce = Ok c l')
                       (List.filter (fun ce => is_set (find "geometry" ce))
                                    (findall "collision" e))
                       (link_collisions link))
               (findall "link" model_elem) (model_links model).
Proof.
  intros H. destruct (parse_links _ _ _ H) as (model_elem & Hlinks). split.
  - eapply Forall2_Forall_r; [exact Hlinks|].
    apply Forall_forall. intros e _ link (l' & Hl).
    apply _parse_link_items in Hl. tauto.
  - exists model_elem. eapply Forall2_impl; [exact Hlinks|].
    intros e link (l' & Hl). apply _parse_link_items in Hl. tauto.
Qed.

End Loader.

Lemma loaded_items_have_geometry_witness :
  exists model l,
    parse float_of_decimal "/models/m" mixed_doc = Ok model l
    /\ Forall (fun link =>
                 Forall (fun v => is_Some (visual_geometry v)) (link_visuals link)
                 /\ Forall (fun c => is_Some (collision_geometry c))
                           (link_collisions link))
              (model_links model)
    /\ List.map (fun link => (List.map visual_name (link_visuals link),
                              List.map collision_name (link_collisions link)))
                (model_links model)
       = [(["body"], ["hull"])].
Proof.
  edestruct (loaded_items_have_geometry float_of_decimal "/models/m" mixed_doc)
    as [H _]; [reflexivity|].
  eexists _, _. split; [reflexivity|]. split; [exact H|reflexivity].
Defined.

(** ** Geometry dispatch *)

(** The container returned by [_parse_geometry] has at most one field set:
    the one of the first shape child found in the order mesh, box,
    cylinder, sphere, capsule; with no such child no field is set. *)
Lemma _parse_geometry_priority (py_float : string -> option R) (model_dir : string)
    (elem : Element) (g : SdfGeometry) (l : list LogRecord) :
  _parse_geometry py_float model_dir elem = Ok g l ->
  let has name := is_set (find name elem) in
  is_set (geom_mesh g) = has "mesh"
  /\ is_set (geom_box g) = negb (has "mesh") && has "box"
  /\ is_set (geom_cylinder g) = negb (has "mesh") && negb (has "box") && has "cylinder"
  /\ is_set (geom_sphere g)
     = negb (has "mesh") && negb (has "box") && negb (has "cylinder") && has "sphere"
  /\ is_set (geom_capsule g)
     = negb (has "mesh") && negb (has "box") && negb (has "cylinder")
       && negb (has "sphere") && has "capsule"
  /\ populated g
     = if has "mesh" || has "box" || has "cylinder" || has "sphere" || has "capsule"
       then 1 else 0.
Proof.
  unfold _parse_geometry. intros H. cbv zeta.
  destruct (find "mesh" elem);
    [inv_bind H; apply mret_Ok_inv in H as [<- _]; by repeat split|].
  destruct (find "box" elem);
    [inv_bind H; apply mret_Ok_inv in H as [<- _]; by repeat split|].
  destruct (find "cylinder" elem);
    [inv_bind H; apply mret_Ok_inv in H as [<- _]; by repeat split|].
  destruct (find "sphere" elem);
    [inv_bind H; apply mret_Ok_inv in H as [<- _]; by repeat split|].
  destruct (find "capsule" elem);
    [inv_bind H; apply mret_Ok_inv in H as [<- _]; by repeat split|].
  apply mret_Ok_inv in H as [<- _]. by repeat split.
Qed.

(** C8.  A geometry element whose only child is a shape that the loader
    does not read (here a plane) is loaded as a container with no field
    set, and the visual that holds it is kept in the model. *)
Theorem parse_plane_geometry_unpopulated (py_float : string -> option R)
    (model_dir : string) :
  exists model link visual g,
    parse py_float model_dir plane_doc = Ok model []
    /\ model_links model = [link]
    /\ link_visuals link = [visual]
    /\ visual_geometry visual = Some g
    /\ populated g = 0
    /\ type_name g = "unknown".
Proof.
  eexists _, _, _, _. split; [reflexivity|]. simpl. by repeat split.
Qed.

(** ** The pose algebra *)

Section PoseAlgebra.

Local Open Scope R_scope.

Lemma scaled_tan (k a : R) : 0 < k -> cos a <> 0 -> k * sin a / (k * cos a) = tan a.
Proof. intros Hk Hc. unfold tan. field. split; lra. Qed.

(** [atan2] recovers an angle of (-PI, PI] from its sine and cosine scaled
    by a positive factor. *)
Lemma atan2_scaled (k a : R) :
  0 < k -> - PI < a <= PI -> PyMath.atan2 (k * sin a) (k * cos a) = a.
Proof.
  intros Hk [Hlo Hhi]. pose proof PI_RGT_0 as Hpi. unfold PyMath.atan2.
  destruct (Rtotal_order a (- (PI / 2))) as [Ha | [Ha | Ha]].
  - (* -PI < a < -PI/2 *)
    assert (Hc : cos a < 0).
    { rewrite <- cos_neg. apply cos_lt_0; lra. }
    assert (Hs : sin a < 0) by (apply sin_lt_0_var; lra).
    rewrite bool_decide_eq_false_2 by nra.
    rewrite bool_decide_eq_true_2 by nra.
    rewrite bool_decide_eq_false_2 by nra.
    rewrite scaled_tan by lra.
    assert (Ht : tan a = tan (a + PI)).
    { unfold tan. rewrite neg_sin, neg_cos. field. lra. }
    rewrite Ht, atan_tan by lra. lra.
  - (* a = -PI/2 *)
    subst a. rewrite sin_neg, cos_neg, sin_PI2, cos_PI2.
    rewrite bool_decide_eq_false_2 by lra.
    rewrite bool_decide_eq_false_2 by lra.
    rewrite bool_decide_eq_false_2 by lra.
    rewrite bool_decide_eq_true_2 by lra. reflexivity.
  - destruct (Rtotal_order a (PI / 2)) as [Hb | [Hb | Hb]].
    + (* -PI/2 < a < PI/2 *)
      assert (Hc : 0 < cos a) by (apply cos_gt_0; lra).
      rewrite bool_decide_eq_true_2 by nra.
      rewrite scaled_tan by lra. apply atan_tan. lra.
    + (* a = PI/2 *)
      subst a. rewrite sin_PI2, cos_PI2.
      rewrite bool_decide_eq_false_2 by lra.
      rewrite bool_decide_eq_false_2 by lra.
      rewrite bool_decide_eq_true_2 by lra. reflexivity.
    + (* PI/2 < a <= PI *)
      assert (Hc : cos a < 0) by (apply cos_lt_0; lra).
      assert (Hs : 0 <= sin a) by (apply sin_ge_0; lra).
      rewrite bool_decide_eq_false_2 by nra.
      rewrite bool_decide_eq_true_2 by nra.
      rewrite bool_decide_eq_true_2 by nra.
      rewrite scaled_tan by lra.
      assert (Ht : tan a = tan (a - PI)).
      { unfold tan. replace a with ((a - PI) + PI) at 1 2 by ring.
        rewrite neg_sin, neg_cos. field.
        intros Hz. replace a with ((a - PI) + PI) in Hc by ring.
        rewrite neg_cos in Hc. lra. }
      rewrite Ht, atan_tan by lra. lra.
Qed.

(** The transform of the identity pose is the unit of the product. *)
Lemma matmul_identity (m : Pose.Matrix) (i j : nat) :
  (i < 4)%nat ->
  Pose.entry (Pose.matmul (Pose.to_matrix Pose.identity) m) i j = Pose.entry m i j.
Proof.
  intros Hi. unfold Pose.matmul, Pose.entry, Pose.to_matrix. simpl.
  rewrite cos_0, sin_0.
  destruct i as [|[|[|[|i]]]]; try lia; ring.
Qed.

Lemma clip_sin (a : R) : PyMath.clip (- sin a) (-1) 1 = - sin a.
Proof.
  pose proof (SIN_bound a). unfold PyMath.clip.
  rewrite Rmax_left by lra. rewrite Rmin_left by lra. reflexivity.
Qed.

(** [atan2] returns an angle of (-PI, PI]. *)
Lemma atan2_bound (b a : R) : - PI < PyMath.atan2 b a <= PI.
Proof.
  pose proof PI_RGT_0 as Hpi. unfold PyMath.atan2.
  pose proof (atan_bound (b / a)) as Hat.
  case_bool_decide as Ha; [lra|].
  case_bool_decide as Ha'.
  - assert (Hinv : / a < 0) by (apply Rinv_lt_0_compat; exact Ha').
    case_bool_decide as Hb.
    + assert (Hq : b / a <= 0) by (unfold Rdiv; nra).
      assert (atan (b / a) <= 0).
      { destruct Hq as [Hq|Hq].
        - pose proof (atan_increasing _ _ Hq) as H. rewrite atan_0 in H. lra.
        - rewrite Hq, atan_0. lra. }
      lra.
    + assert (Hq : 0 < b / a) by (unfold Rdiv; nra).
      pose proof (atan_increasing _ _ Hq) as H. rewrite atan_0 in H. lra.
  - repeat case_bool_decide; lra.
Qed.

(** An angle that the arc sine of its sine gives back lies in
    [-PI/2, PI/2]. *)
Lemma asin_sin_fixed (a : R) : asin (sin a) = a -> - (PI / 2) <= a <= PI / 2.
Proof. intros <-. apply asin_bound. Qed.

(** C2, as the code has it.  Composing the identity pose with a pose [p]
    gives [p] back, exactly over the reals, if and only if the roll of [p]
    lies in (-PI, PI], its pitch lies in [-PI/2, PI/2] and either [p] is
    away from gimbal lock (the absolute value of the cosine of the pitch
    exceeds 1e-6) with a yaw in (-PI, PI], or the yaw of [p] is zero.  The
    position of [p] plays no part. *)
Theorem compose_identity_left (p : Pose) :
  Pose.compose Pose.identity p = p
  <-> (- PI < Pose.roll p <= PI
       /\ - (PI / 2) <= Pose.pitch p <= PI / 2
       /\ ((Rabs (cos (Pose.pitch p)) > 1e-6 /\ - PI < Pose.yaw p <= PI)
           \/ Pose.yaw p = 0)).
Proof.
  pose proof PI_RGT_0 as Hpi.
  destruct p as [px py pz r pt yw]. cbn [Pose.roll Pose.pitch Pose.yaw].
  unfold Pose.compose, Pose.from_matrix.
  rewrite !matmul_identity by lia.
  unfold Pose.entry, Pose.to_matrix. cbn [Pose.x Pose.y Pose.z Pose.roll Pose.pitch Pose.yaw].
  rewrite clip_sin, Ropp_involutive.
  split.
  - intros H.
    assert (Hpt : - (PI / 2) <= pt <= PI / 2).
    { apply asin_sin_fixed. destruct (bool_decide _); by injection H. }
    rewrite asin_sin in H by lra.
    destruct (bool_decide (Rabs (cos pt) > 1e-6)) eqn:Hcos.
    + apply bool_decide_eq_true in Hcos.
      injection H as Hr Hy. split; [|split; [exact Hpt|left; split; [exact Hcos|]]].
      * rewrite <- Hr. apply atan2_bound.
      * rewrite <- Hy. apply atan2_bound.
    + injection H as Hr Hy. split; [|split; [exact Hpt|right; congruence]].
      rewrite <- Hr. apply atan2_bound.
  - intros (Hroll & Hpitch & Hyaw).
    rewrite asin_sin by lra.
    assert (Hc0 : 0 <= cos pt) by (apply cos_ge_0; lra).
    destruct (bool_decide (Rabs (cos pt) > 1e-6)) eqn:Hcos.
    + apply bool_decide_eq_true in Hcos.
      assert (Hc : 0 < cos pt) by (rewrite Rabs_pos_eq in Hcos; lra).
      assert (Hyw : - PI < yw <= PI) by (destruct Hyaw as [[_ H] | ->]; lra).
      rewrite (atan2_scaled (cos pt) r Hc Hroll).
      rewrite (Rmult_comm (sin yw)), (Rmult_comm (cos yw)).
      rewrite (atan2_scaled (cos pt) yw Hc Hyw).
      reflexivity.
    + apply bool_decide_eq_false in Hcos.
      destruct Hyaw as [[Hcos' _]|Hyw]; [contradiction|]. subst yw.
      rewrite sin_0, cos_0.
      replace (- (0 * sin pt * cos r - 1 * sin r)) with (1 * sin r) by ring.
      replace (0 * sin pt * sin r + 1 * cos r) with (1 * cos r) by ring.
      rewrite atan2_scaled by lra. reflexivity.
Qed.

Lemma compose_identity_left_witness :
  Pose.compose Pose.identity (Pose.make 1 2 3 1 (1 / 2) 0) = Pose.make 1 2 3 1 (1 / 2) 0.
Proof.
  pose proof PI2_1 as Hpi.
  apply (proj2 (compose_identity_left (Pose.make 1 2 3 1 (1 / 2) 0))). simpl.
  split; [lra|]. split; [lra|]. right. reflexivity.
Defined.

(** C2, as stated, fails on the pose of pitch 3 radians: the pitch that
    [from_matrix] extracts is an arc sine, at most PI/2, so the pitch of the
    composed pose is more than 1/2 away from 3. *)
Lemma compose_identity_pitch_3 :
  Rabs (Pose.pitch (Pose.compose Pose.identity (Pose.make 0 0 0 0 3 0))
        - Pose.pitch (Pose.make 0 0 0 0 3 0)) > 1 / 2.
Proof.
  unfold Pose.compose, Pose.from_matrix.
  set (a := asin _).
  assert (Ha : a <= PI / 2) by apply asin_bound.
  pose proof PI_4 as H4.
  clearbody a.
  case_bool_decide; cbn [Pose.pitch]; rewrite Rabs_left by lra; lra.
Qed.

End PoseAlgebra.

(** ** The mesh converter *)

Lemma string_app_cons (c : ascii) (s t : string) : String c s ++ t = String c (s ++ t).
Proof. reflexivity. Qed.

Lemma string_app_length (s t : string) :
  String.length (s ++ t) = String.length s + String.length t.
Proof.
  induction s as [|c s IH]; [reflexivity|].
  rewrite string_app_cons. simpl. by rewrite IH.
Qed.

Lemma string_app_assoc (s t u : string) : (s ++ t) ++ u = s ++ (t ++ u).
Proof.
  induction s as [|c s IH]; [reflexivity|].
  rewrite !string_app_cons. by rewrite IH.
Qed.

Lemma string_app_inj_r (s1 s2 t : string) : s1 ++ t = s2 ++ t -> s1 = s2.
Proof.
  revert s2. induction s1 as [|c s1 IH]; intros [|d s2] H.
  - reflexivity.
  - apply (f_equal String.length) in H.
    rewrite !string_app_length in H. simpl in H. lia.
  - apply (f_equal String.length) in H.
    rewrite !string_app_length in H. simpl in H. lia.
  - rewrite !string_app_cons in H. injection H as -> H. f_equal. by apply IH.
Qed.

Lemma usd_suffix_inj (j k : nat) : usd_suffix j = usd_suffix k -> j = k.
Proof.
  destruct j as [|j], k as [|k]; simpl; intros H; try reflexivity; try discriminate.
  rewrite !string_app_cons in H. injection H as H.
  change ("" ++ ?s) with s in H.
  apply string_app_inj_r in H. by apply (inj pretty) in H.
Qed.

Lemma isabs_cons (c : ascii) (s : string) :
  OsPath.isabs (String c s) = if ascii_dec "/" c then true else false.
Proof.
  unfold OsPath.isabs, Py.startswith.
  destruct s; cbn -[ascii_dec]; by destruct (ascii_dec "/" c).
Qed.

Lemma usd_suffix_not_abs (base : string) (k : nat) :
  OsPath.isabs (base ++ usd_suffix k) = OsPath.isabs (base ++ ".").
Proof.
  destruct base as [|c r]; [destruct k; reflexivity|].
  rewrite !string_app_cons. by rewrite !isabs_cons.
Qed.

Lemma usd_candidate_eq (output_dir base_name : string) (k : nat) :
  usd_candidate output_dir base_name k
  = (if OsPath.isabs (base_name ++ ".") then ""
     else if (String.eqb output_dir "" || OsPath.ends_with_slash output_dir)%bool
          then output_dir else output_dir ++ "/")
    ++ base_name ++ usd_suffix k.
Proof.
  assert (H : usd_candidate output_dir base_name k
              = OsPath.join output_dir (base_name ++ usd_suffix k)) by by destruct k.
  rewrite H. unfold OsPath.join. rewrite usd_suffix_not_abs.
  destruct (OsPath.isabs (base_name ++ ".")); [reflexivity|].
  destruct (String.eqb output_dir "" || OsPath.ends_with_slash output_dir)%bool;
    [reflexivity|].
  by rewrite string_app_assoc.
Qed.

Lemma usd_candidate_inj (output_dir base_name : string) (j k : nat) :
  usd_candidate output_dir base_name j = usd_candidate output_dir base_name k -> j = k.
Proof.
  rewrite !usd_candidate_eq. intros H.
  apply (inj (String.app _)) in H. apply (inj (String.app _)) in H.
  by apply usd_suffix_inj.
Qed.

(** The loop over the names ends: with as many further names allowed as
    there are names in use, a free name is found. *)
Lemma unique_usd_path_free (used : list string) (output_dir base_name : string)
    (fuel k : nat) (seen : list string) :
  NoDup seen ->
  (forall x, x ∈ seen -> x ∈ used) ->
  (forall j, k <= j -> usd_candidate output_dir base_name j ∉ seen) ->
  length used <= length seen + fuel ->
  exists usd_path,
    unique_usd_path fuel used output_dir base_name k = Some usd_path
    /\ usd_path ∉ used.
Proof.
  revert k seen. induction fuel as [|fuel IH]; intros k seen Hnd Hsub Hfresh Hlen;
    simpl; case_bool_decide as Hin; eauto.
  - exfalso.
    assert (Hle : length (usd_candidate output_dir base_name k :: seen) <= length used).
    { apply submseteq_length, NoDup_submseteq.
      - constructor; [apply Hfresh; lia|done].
      - intros x [->|Hx]%elem_of_cons; auto. }
    simpl in Hle. lia.
  - apply (IH (S k) (usd_candidate output_dir base_name k :: seen)).
    + constructor; [apply Hfresh; lia|done].
    + intros x [->|Hx]%elem_of_cons; auto.
    + intros j Hj [Heq|Hx]%elem_of_cons.
      * apply usd_candidate_inj in Heq. lia.
      * by apply (Hfresh j); [lia|].
    + simpl. lia.
Qed.

Lemma unique_usd_path_total (used : list string) (output_dir base_name : string) :
  exists usd_path,
    unique_usd_path (length used) used output_dir base_name 0 = Some usd_path
    /\ usd_path ∉ used.
Proof.
  apply (unique_usd_path_free used output_dir base_name (length used) 0 []).
  - constructor.
  - intros x Hx. by apply elem_of_nil in Hx.
  - intros j _ Hx. by apply elem_of_nil in Hx.
  - simpl. lia.
Qed.

(** ** The run: what the steps keep *)

Lemma foldl_rel {S A : Type} (R : relation S) `{!PreOrder R} (f : S -> A -> S)
    (l : list A) (st : S) :
  (forall st x, R st (f st x)) -> R st (foldl f st l).
Proof.
  intros Hf. revert st. induction l as [|x l IH]; intros st; simpl; [reflexivity|].
  etrans; [apply Hf|apply IH].
Qed.

Lemma foldl_rel_at {S A : Type} (R : relation S) `{!PreOrder R} (f : S -> A -> S)
    (l : list A) (st : S) (x : A) :
  (forall st x, R st (f st x)) -> x ∈ l ->
  exists st1, R st st1 /\ R (f st1 x) (foldl f st l).
Proof.
  intros Hf (l1 & l2 & ->)%list_elem_of_split. rewrite foldl_app. simpl.
  exists (foldl f st l1). split; apply (foldl_rel R); exact Hf.
Qed.

#[global] Instance str_le_total : Total str_le.
Proof. intros a b. apply String.leb_total. Qed.


Section Run.

Variable env : Env.
Variable cfg : Config.

Lemma path_exists_created (st st' : RunState) (p : string) :
  (forall x, x ∈ created st -> x ∈ created st') ->
  path_exists env st p = true -> path_exists env st' p = true.
Proof.
  unfold path_exists. intros Hsub [H|H]%orb_true_iff; apply orb_true_iff; [by left|].
  right. apply bool_decide_eq_true. apply bool_decide_eq_true in H. auto.
Qed.


(** The texture copies touch neither the cache, nor the calls of the asset
    converter, nor the stage. *)
Lemma _copy_adjacent_textures_frame (output_dir mesh_path : string) (st : RunState) :
  let st' := _copy_adjacent_textures env output_dir mesh_path st in
  mesh_cache st' = mesh_cache st
  /\ conversions st' = conversions st
  /\ stage st' = stage st
  /\ (forall x, x ∈ created st -> x ∈ created st').
Proof.
  unfold _copy_adjacent_textures.
  generalize (listdir env (OsPath.dirname mesh_path)) as names.
  intros names. revert st. induction names as [|n names IH]; intros st; simpl.
  - done.
  - match goal with |- context [foldl ?f ?st0 names] =>
      destruct (IH st0) as (H1 & H2 & H3 & H4)
    end.
    simpl in *. rewrite H1, H2, H3.
    case_bool_decide; [|done]. destruct (path_exists env st _); [done|].
    repeat split; try done.
    intros x Hx. apply H4. simpl. apply elem_of_app. by left.
Qed.

(** What one call of [mesh_convert] does, by cases. *)
Lemma mesh_convert_spec (output_dir q : string) (st : RunState) :
  let s := abspath env q in
  exists res st',
    mesh_convert env output_dir q st = (res, st')
    /\ stage st' = stage st
    /\ (forall p, path_exists env st p = true -> path_exists env st' p = true)
    /\ ((mesh_cache st' = mesh_cache st /\ conversions st' = conversions st
         /\ match res with
            | inr usd => path_exists env st s = true /\ mesh_cache st !! s = Some usd
            | inl _ => path_exists env st s = false
                       \/ (mesh_cache st !! s = None /\ supported_source s = false)
            end)
        \/ (path_exists env st s = true /\ mesh_cache st !! s = None
            /\ supported_source s = true
            /\ exists usd,
                 conversions st' = (conversions st ++ [(s, usd)])%list
                 /\ match res with
                    | inr usd' => usd' = usd /\ run_conversion env s usd = true
                                  /\ mesh_cache st' = <[s := usd]> (mesh_cache st)
                    | inl _ => run_conversion env s usd = false
                               /\ mesh_cache st' = mesh_cache st
                    end)).
Proof.
  cbv zeta. unfold mesh_convert, supported_source.
  set (s := abspath env q).
  destruct (path_exists env st s) eqn:Hex; simpl.
  2:{ eexists _, _. split; [reflexivity|]. repeat split; try done. left. by repeat split; [..|left]. }
  destruct (mesh_cache st !! s) as [usd|] eqn:Hc.
  { eexists _, _. split; [reflexivity|]. repeat split; try done. by left. }
  case_bool_decide as Hsup; simpl.
  2:{ eexists _, _. split; [reflexivity|]. repeat split; try done. left.
      repeat split; try done. by right. }
  destruct (unique_usd_path_total (cache_values (mesh_cache st)) output_dir
              (OsPath.splitext (OsPath.basename s)).1) as (usd & -> & _).
  destruct (_copy_adjacent_textures_frame output_dir s st) as (F1 & F2 & F3 & F4).
  destruct (run_conversion env s usd) eqn:Hrun.
  - eexists _, _. split; [reflexivity|]. simpl. rewrite F1, F2, F3.
    repeat split; try done.
    + intros p Hp. eapply path_exists_created; [|exact Hp].
      intros x Hx. simpl. apply elem_of_app. left. by apply F4.
    + right. repeat split; try done. exists usd. by repeat split.
  - eexists _, _. split; [reflexivity|]. simpl. rewrite F1, F2, F3.
    repeat split; try done.
    + intros p Hp. eapply path_exists_created; [|exact Hp].
      intros x Hx. simpl. by apply F4.
    + right. repeat split; try done. exists usd. by repeat split.
Qed.


(** *** A source that the asset converter converts *)

Section GoodSource.

Variable s : string.
Hypothesis s_exists : fs_exists env s = true.
Hypothesis s_supported : supported_source s = true.
Hypothesis s_converts : forall usd_path, run_conversion env s usd_path = true.


#[local] Instance extends_preorder : PreOrder (extends s).
Proof.
  split.
  - intros st. by repeat split.
  - intros a b c (H1 & H2 & H3) (H4 & H5 & H6). repeat split; auto.
Qed.








Lemma copy_texture_frame (output_dir source_path : string) (st : RunState) :
  let st' := (copy_texture env output_dir source_path st).2 in
  mesh_cache st' = mesh_cache st /\ conversions st' = conversions st
  /\ stage st' = stage st.
Proof.
  unfold copy_texture. destruct (negb _); [done|]. by destruct (path_exists env st _).
Qed.
























#[local] Instance extends_fst_preorder : PreOrder (extends_fst s).
Proof.
  split.
  - intros a. unfold extends_fst. reflexivity.
  - intros a b c. unfold extends_fst. apply transitivity.
Qed.





Lemma final_convert (model : SdfModel) :
  final (convert env cfg model)
  = build env cfg model (preconvert env cfg model initial_state).1.
Proof. unfold convert. by destruct (preconvert env cfg model initial_state). Qed.

End GoodSource.

End Run.

(** ** The run: a source on which the asset converter fails *)





Section FailingSource.

Variable env : Env.
Variable cfg : Config.
Variable s p : string.
Hypothesis s_exists : fs_exists env s = true.
Hypothesis s_supported : supported_source s = true.
Hypothesis s_fails : forall usd_path, run_conversion env s usd_path = false.
Hypothesis p_abs : abspath env p = s.
Hypothesis p_nonempty : p <> "".
Hypothesis p_exists : fs_exists env p = true.






















End FailingSource.

(** ** Materials *)

Section Materials.

Variable env : Env.
Variable cfg : Config.

Lemma bindings_app (ops1 ops2 : list StageOp) :
  bindings (ops1 ++ ops2) = (bindings ops1 ++ bindings ops2)%list.
Proof. apply omap_app. Qed.

Lemma materials_defined_app (ops1 ops2 : list StageOp) :
  materials_defined (ops1 ++ ops2)
  = (materials_defined ops1 ++ materials_defined ops2)%list.
Proof. apply omap_app. Qed.

Lemma _set_xform_quiet (path : string) (pose : Pose) (scale_arg : option Vec3) :
  bindings (_set_xform cfg path pose scale_arg) = []
  /\ materials_defined (_set_xform cfg path pose scale_arg) = [].
Proof.
  unfold _set_xform. rewrite bindings_app, materials_defined_app.
  destruct scale_arg; repeat case_bool_decide; simpl; done.
Qed.

Lemma cache_lookup_snoc_None (key k : MaterialKey) (v : string)
    (cache : list (MaterialKey * string)) :
  cache_lookup key cache = None -> k <> key ->
  cache_lookup key (cache ++ [(k, v)]) = None.
Proof.
  intros Hc Hne. induction cache as [|[k' v'] cache IH]; simpl in *.
  - by rewrite decide_False.
  - destruct (decide (k' = key)); [discriminate|auto].
Qed.

(** A material that is not in the cache, created for a visual: the path of
    the material is made of the name of the visual alone. *)
Lemma create_material_new (dir looks_path name_hint : string) (sdf_mat : SdfMaterial)
    (st : RunState) :
  cache_lookup (_material_hash sdf_mat) (material_cache st) = None ->
  name_hint <> "" ->
  mat_pbr sdf_mat = None ->
  let mat_path := looks_path ++ "/" ++ sanitize_usd_name name_hint in
  let r := create_material env dir looks_path sdf_mat name_hint st in
  r.1 = mat_path
  /\ bindings (stage r.2) = bindings (stage st)
  /\ materials_defined (stage r.2) = (materials_defined (stage st) ++ [mat_path])%list
  /\ material_cache r.2 = (material_cache st ++ [(_material_hash sdf_mat, mat_path)])%list.
Proof.
  intros Hc Hne Hpbr. cbv zeta. unfold create_material. rewrite Hc, Hpbr.
  apply String.eqb_neq in Hne. rewrite Hne. simpl.
  destruct (mat_specular sdf_mat) as [[sr sg] sb].
  case_bool_decide; simpl;
    rewrite ?bindings_app, ?materials_defined_app; simpl;
    rewrite ?app_nil_r, <- ?app_assoc; done.
Qed.

(** A material that is in the cache: the cached path is returned and the
    state is left as it is. *)
Lemma create_material_cached (dir looks_path name_hint mat_path : string)
    (sdf_mat : SdfMaterial) (st : RunState) :
  cache_lookup (_material_hash sdf_mat) (material_cache st) = Some mat_path ->
  create_material env dir looks_path sdf_mat name_hint st = (mat_path, st).
Proof. intros Hc. unfold create_material. by rewrite Hc. Qed.

Lemma sanitize_usd_name_nonempty (name : string) : sanitize_usd_name name <> "".
Proof.
  unfold sanitize_usd_name.
  destruct (String.eqb _ "") eqn:E; [discriminate|]. by apply String.eqb_neq.
Qed.

(** The build of a link that holds one box visual with a material that is
    not in the cache. *)
Lemma _build_link_box (looks_path model_path name vname : string) (diffuse : Vec3)
    (st : RunState) :
  let material := {| mat_diffuse := diffuse; mat_specular := (0.1, 0.1, 0.1)%R;
                     mat_pbr := None |} in
  cache_lookup (_material_hash material) (material_cache st) = None ->
  let mat_path := looks_path ++ "/" ++ sanitize_usd_name (sanitize_usd_name vname) in
  let box_path :=
    (((model_path ++ "/" ++ sanitize_usd_name name) ++ "/visuals")
     ++ "/" ++ sanitize_usd_name vname) ++ "/Box" in
  let st' := _build_link env cfg looks_path model_path
               (link_of name [box_visual vname diffuse]) st in
  bindings (stage st') = (bindings (stage st) ++ [(box_path, mat_path)])%list
  /\ materials_defined (stage st')
     = (materials_defined (stage st) ++ [mat_path])%list
  /\ material_cache st'
     = (material_cache st ++ [(_material_hash material, mat_path)])%list.
Proof.
  cbv zeta. intros Hc.
  unfold _build_link, build_collisions, build_visuals, link_of, box_visual. cbn [link_name link_pose link_inertial link_visuals link_collisions foldl].
  unfold _build_visual, _build_geometry, box_geometry, _build_box.
  cbn [visual_name visual_pose visual_geometry visual_material geom_mesh geom_box].
  match goal with |- context [create_material env ?d ?l ?m ?h ?st0] =>
    destruct (create_material_new d l h m st0) as (H1 & H2 & H3 & H4);
      [| apply sanitize_usd_name_nonempty | reflexivity |];
      [|destruct (create_material env d l m h st0) as [mat_path st2]]
  end.
  { cbn [material_cache emit]. destruct (include_physics cfg); exact Hc. }
  cbn [fst snd] in *. subst mat_path.
  destruct (_set_xform_quiet (model_path ++ "/" ++ sanitize_usd_name name)
              Pose.identity None) as [Q1 Q2].
  destruct (_set_xform_quiet
              (((model_path ++ "/" ++ sanitize_usd_name name) ++ "/visuals")
               ++ "/" ++ sanitize_usd_name vname) Pose.identity None) as [Q3 Q4].
  assert (Hb : forall ops st0, bindings (stage (emit ops st0))
                               = (bindings (stage st0) ++ bindings ops)%list)
    by (intros; apply bindings_app).
  assert (Hm : forall ops st0, materials_defined (stage (emit ops st0))
                               = (materials_defined (stage st0)
                                  ++ materials_defined ops)%list)
    by (intros; apply materials_defined_app).
  destruct (include_collision cfg), (include_physics cfg);
    unfold assign_material; (split; [|split]);
    rewrite ?Hb, ?Hm, ?H2, ?H3;
    rewrite ?Hb, ?Hm, ?bindings_app, ?materials_defined_app, ?Q1, ?Q2, ?Q3, ?Q4;
    cbn [material_cache emit]; rewrite ?H4; cbn [material_cache emit];
    simpl; rewrite ?app_nil_r; done.
Qed.

End Materials.

(** C6.  Two links hold one box visual each, both named [visual]; the first
    material is red, the second is blue.  The build defines the material
    prim [/m/Looks/visual] twice, once for each material, and binds both
    boxes to it: the two visuals, whose materials differ in the diffuse
    colour, get the same material handle. *)
Theorem two_colours_share_material :
  let run := final (convert (example_env [] true) example_cfg two_colours) in
  bindings (stage run)
  = [("/m/a/visuals/visual/Box", "/m/Looks/visual");
     ("/m/b/visuals/visual/Box", "/m/Looks/visual")]
  /\ materials_defined (stage run) = ["/m/Looks/visual"; "/m/Looks/visual"]
  /\ List.map snd (material_cache run) = ["/m/Looks/visual"; "/m/Looks/visual"]
  /\ List.map (fun v => mat_diffuse <$> visual_material v)
       (flat_map link_visuals (model_links two_colours))
     = [Some (1, 0, 0)%R; Some (0, 0, 1)%R]
  /\ (1, 0, 0)%R <> (0, 0, 1)%R.
Proof.
  cbv zeta. rewrite final_convert.
  assert (Hpre : preconvert (example_env [] true) example_cfg two_colours initial_state
                 = (initial_state, 0)) by reflexivity.
  rewrite Hpre. cbn [fst].
  set (env := example_env [] true).
  unfold build. cbv zeta.
  change (model_links two_colours)
    with [link_of "a" [box_visual "visual" (1, 0, 0)%R];
          link_of "b" [box_visual "visual" (0, 0, 1)%R]].
  change (model_joints two_colours) with (@nil SdfJoint).
  change (include_physics example_cfg) with true. cbn iota.
  cbn [foldl].
  match goal with |- context [_build_link env example_cfg ?lp ?mp (link_of "a" _) _] =>
    set (looks := lp); set (mp0 := mp)
  end.
  match goal with |- context [_build_link env example_cfg looks mp0 (link_of "a" _) ?st0] =>
    set (st1 := st0)
  end.
  assert (H1 : bindings (stage st1) = [] /\ materials_defined (stage st1) = []
               /\ material_cache st1 = []).
  { subst st1. cbn [stage emit material_cache initial_state].
    destruct (_set_xform_quiet example_cfg mp0 (model_pose two_colours) None) as [Q1 Q2].
    unfold mp0 in *.
    rewrite !bindings_app, !materials_defined_app, Q1, Q2. by repeat split. }
  destruct H1 as (B1 & M1 & C1). clearbody st1.
  destruct (_build_link_box env example_cfg looks mp0 "a" "visual" (1, 0, 0)%R st1)
    as (B2 & M2 & C2); [by rewrite C1|].
  set (st2 := _build_link env example_cfg looks mp0 (link_of "a" _) st1) in *.
  clearbody st2.
  destruct (_build_link_box env example_cfg looks mp0 "b" "visual" (0, 0, 1)%R st2)
    as (B3 & M3 & C3).
  { rewrite C2, C1. simpl. rewrite decide_False; [done|].
    intros [= H _]. lra. }
  set (st3 := _build_link env example_cfg looks mp0 (link_of "b" _) st2) in *.
  clearbody st3.
  cbn [stage emit material_cache].
  rewrite bindings_app, materials_defined_app, B3, M3, C3, B2, M2, C2, B1, M1, C1.
  repeat split; try reflexivity.
  intros [= H _]. lra.
Qed.

(** * Further properties *)

(** ** The pose algebra, continued *)

Section PoseAlgebraMore.

Local Open Scope R_scope.

Lemma unit_after_division (a b c d : R) :
  0 < a * a + b * b + c * c + d * d ->
  let n := sqrt (a * a + b * b + c * c + d * d) in
  a / n * (a / n) + b / n * (b / n) + c / n * (c / n) + d / n * (d / n) = 1.
Proof.
  intros Hpos n.
  assert (Hn : 0 < n) by (apply sqrt_lt_R0; exact Hpos).
  assert (Hsq : n * n = a * a + b * b + c * c + d * d)
    by (apply sqrt_sqrt; lra).
  replace (a / n * (a / n) + b / n * (b / n) + c / n * (c / n) + d / n * (d / n))
    with ((a * a + b * b + c * c + d * d) / (n * n)) by (field; lra).
  rewrite Hsq. field. lra.
Qed.

Lemma sumsq_pos_1 (a b c d : R) : 0 < a -> 0 < a * a + b * b + c * c + d * d.
Proof. intros. nra. Qed.

Lemma sumsq_pos_2 (a b c d : R) : 0 < b -> 0 < a * a + b * b + c * c + d * d.
Proof. intros. nra. Qed.

Lemma sumsq_pos_3 (a b c d : R) : 0 < c -> 0 < a * a + b * b + c * c + d * d.
Proof. intros. nra. Qed.

Lemma sumsq_pos_4 (a b c d : R) : 0 < d -> 0 < a * a + b * b + c * c + d * d.
Proof. intros. nra. Qed.

(** X1.  The quaternion of a pose has norm 1: in each of the four branches the
    square root is taken of a positive number, the component computed from
    it is positive, and the division by the norm is a division by a positive
    number. *)
Theorem to_quaternion_wxyz_unit (p : Pose) :
  let '(w, qx, qy, qz) := Pose.to_quaternion_wxyz p in
  w * w + qx * qx + qy * qy + qz * qz = 1.
Proof.
  unfold Pose.to_quaternion_wxyz.
  generalize (Pose.entry (Pose.to_matrix p) 0 0) as m00.
  generalize (Pose.entry (Pose.to_matrix p) 0 1) as m01.
  generalize (Pose.entry (Pose.to_matrix p) 0 2) as m02.
  generalize (Pose.entry (Pose.to_matrix p) 1 0) as m10.
  generalize (Pose.entry (Pose.to_matrix p) 1 1) as m11.
  generalize (Pose.entry (Pose.to_matrix p) 1 2) as m12.
  generalize (Pose.entry (Pose.to_matrix p) 2 0) as m20.
  generalize (Pose.entry (Pose.to_matrix p) 2 1) as m21.
  generalize (Pose.entry (Pose.to_matrix p) 2 2) as m22.
  intros m22 m21 m20 m12 m11 m10 m02 m01 m00. cbv zeta.
  case_bool_decide as Ht.
  - apply unit_after_division, sumsq_pos_1.
    assert (0 < sqrt (m00 + m11 + m22 + 1)) by (apply sqrt_lt_R0; lra).
    apply Rdiv_lt_0_compat; [lra|]. apply Rdiv_lt_0_compat; lra.
  - destruct (bool_decide (m00 > m11)) eqn:H1;
      [destruct (bool_decide (m00 > m22)) eqn:H2|]; simpl.
    + apply bool_decide_eq_true in H1, H2.
      apply unit_after_division, sumsq_pos_2.
      assert (0 < sqrt (1 + m00 - m11 - m22)) by (apply sqrt_lt_R0; lra). lra.
    + apply bool_decide_eq_true in H1. apply bool_decide_eq_false in H2.
      case_bool_decide as H3; [lra|].
      apply unit_after_division, sumsq_pos_4.
      assert (0 < sqrt (1 + m22 - m00 - m11)) by (apply sqrt_lt_R0; lra). lra.
    + apply bool_decide_eq_false in H1.
      case_bool_decide as H3.
      * apply unit_after_division, sumsq_pos_3.
        assert (0 < sqrt (1 + m11 - m00 - m22)) by (apply sqrt_lt_R0; lra). lra.
      * apply unit_after_division, sumsq_pos_4.
        assert (0 < sqrt (1 + m22 - m00 - m11)) by (apply sqrt_lt_R0; lra). lra.
Qed.


(** X2.  [from_matrix] undoes [to_matrix] on the poses whose roll and yaw lie in
    (-PI, PI], whose pitch lies in (-PI/2, PI/2) and is away from gimbal
    lock. *)
Theorem from_matrix_to_matrix (p : Pose) :
  - PI < Pose.roll p <= PI ->
  - (PI / 2) < Pose.pitch p < PI / 2 ->
  Rabs (cos (Pose.pitch p)) > 1e-6 ->
  - PI < Pose.yaw p <= PI ->
  Pose.from_matrix (Pose.to_matrix p) = p.
Proof.
  intros Hroll Hpitch Hcos Hyaw. destruct p as [px py pz r pt yw]. simpl in *.
  unfold Pose.from_matrix, Pose.entry, Pose.to_matrix. simpl.
  rewrite clip_sin, Ropp_involutive, asin_sin by lra.
  rewrite bool_decide_eq_true_2 by exact Hcos.
  assert (Hc : 0 < cos pt) by (apply cos_gt_0; lra).
  rewrite (atan2_scaled (cos pt) r Hc Hroll).
  rewrite (Rmult_comm (sin yw)), (Rmult_comm (cos yw)).
  rewrite (atan2_scaled (cos pt) yw Hc Hyaw).
  reflexivity.
Qed.

Lemma from_matrix_to_matrix_witness :
  Pose.from_matrix (Pose.to_matrix (Pose.make 1 2 3 0 0 0)) = Pose.make 1 2 3 0 0 0.
Proof.
  pose proof PI_RGT_0 as Hpi.
  apply from_matrix_to_matrix; simpl.
  - lra.
  - lra.
  - rewrite cos_0, Rabs_pos_eq; lra.
  - lra.
Defined.

Lemma atan2_unscaled (a : R) : - PI < a <= PI -> PyMath.atan2 (sin a) (cos a) = a.
Proof.
  intros Ha. rewrite <- (Rmult_1_l (sin a)), <- (Rmult_1_l (cos a)).
  apply atan2_scaled; lra.
Qed.

(** X3.  The gimbal-lock convention.  At a pitch of PI/2 the pose extracted from
    the transform has yaw 0 and carries the difference of roll and yaw as
    its roll; the position and the pitch are kept. *)
Theorem from_matrix_gimbal_lock (px py pz r yw : R) :
  - PI < r - yw <= PI ->
  Pose.from_matrix (Pose.to_matrix (Pose.make px py pz r (PI / 2) yw))
  = Pose.make px py pz (r - yw) (PI / 2) 0.
Proof.
  intros Hd. unfold Pose.from_matrix, Pose.entry, Pose.to_matrix. simpl.
  pose proof PI_RGT_0 as Hpi.
  rewrite clip_sin, Ropp_involutive, asin_sin by lra.
  rewrite cos_PI2, sin_PI2.
  rewrite bool_decide_eq_false_2 by (rewrite Rabs_R0; lra).
  f_equal.
  transitivity (PyMath.atan2 (sin (r - yw)) (cos (r - yw))).
  - rewrite sin_minus, cos_minus. f_equal; ring.
  - apply atan2_unscaled, Hd.
Qed.

Lemma from_matrix_gimbal_lock_witness :
  Pose.from_matrix (Pose.to_matrix (Pose.make 0 0 0 1 (PI / 2) 1))
  = Pose.make 0 0 0 (1 - 1) (PI / 2) 0.
Proof.
  pose proof PI_RGT_0 as Hpi.
  apply from_matrix_gimbal_lock. lra.
Defined.

End PoseAlgebraMore.

(** ** Pose texts, URIs and names *)

Section PoseTexts.

Variable py_float : string -> option R.

(** X4.  Reading a text in degrees is reading it in radians and then converting
    the three angles: the same texts raise, the same records are logged,
    and the position is the same. *)
Theorem parse_pose_string_degrees (pose_str : string) :
  parse_pose_string py_float pose_str true
  = p ← parse_pose_string py_float pose_str false;
    mret (Pose.make (Pose.x p) (Pose.y p) (Pose.z p)
                    (PyMath.radians (Pose.roll p)) (PyMath.radians (Pose.pitch p))
                    (PyMath.radians (Pose.yaw p))).
Proof.
  assert (Hid : Pose.identity
                = Pose.make (Pose.x Pose.identity) (Pose.y Pose.identity)
                            (Pose.z Pose.identity)
                            (PyMath.radians (Pose.roll Pose.identity))
                            (PyMath.radians (Pose.pitch Pose.identity))
                            (PyMath.radians (Pose.yaw Pose.identity))).
  { unfold Pose.identity, PyMath.radians. simpl. f_equal; ring. }
  unfold parse_pose_string.
  destruct (for_each _ _) as [parts l|e]; [|reflexivity].
  destruct parts as [|? [|? [|? [|? [|? [|? [|? ?]]]]]]]; cbn;
    rewrite ?app_nil_r; try (by rewrite Hid at 1); reflexivity.
Qed.

End PoseTexts.

Section Uris.

Lemma startswith_app (p s : string) : Py.startswith p (p ++ s) = true.
Proof.
  unfold Py.startswith. induction p as [|c p IH]; [by destruct s|].
  rewrite string_app_cons. cbn. by destruct (ascii_dec c c).
Qed.

Lemma drop_app (p s : string) : Py.drop (String.length p) (p ++ s) = s.
Proof. induction p as [|c p IH]; [by destruct s|]. by rewrite string_app_cons. Qed.

Lemma split_once_app (name rest : string) :
  no_slash name ->
  Py.split_once "/" (name ++ "/" ++ rest) = (name, Some rest).
Proof.
  unfold no_slash. induction name as [|c name IH]; intros H.
  - reflexivity.
  - rewrite string_app_cons. cbn [list_ascii_of_string existsb] in H.
    apply orb_false_iff in H as [Hc H].
    rewrite Ascii.eqb_sym in Hc. cbn [Py.split_once]. rewrite Hc, (IH H). reflexivity.
Qed.

Lemma split_once_none (name : string) :
  no_slash name -> Py.split_once "/" name = (name, None).
Proof.
  unfold no_slash. induction name as [|c name IH]; intros H.
  - reflexivity.
  - cbn [list_ascii_of_string existsb] in H.
    apply orb_false_iff in H as [Hc H].
    rewrite Ascii.eqb_sym in Hc. cbn [Py.split_once]. rewrite Hc, (IH H). reflexivity.
Qed.

(** X5.  The model name of a [model://] URI plays no part: what follows the
    first slash after it is joined to the model directory, and a URI that
    stops at the model name is the model directory itself. *)
Theorem resolve_model_uri_model (name rest model_dir : string) :
  no_slash name ->
  resolve_model_uri ("model://" ++ name ++ "/" ++ rest) model_dir
  = OsPath.join model_dir rest
  /\ resolve_model_uri ("model://" ++ name) model_dir = model_dir.
Proof.
  intros H. unfold resolve_model_uri. rewrite !startswith_app.
  change 8 with (String.length "model://"). rewrite !drop_app.
  by rewrite (split_once_app _ _ H), (split_once_none _ H).
Qed.

Lemma resolve_model_uri_model_witness :
  resolve_model_uri ("model://" ++ "robot" ++ "/" ++ "meshes/a.dae") "/models/robot"
  = OsPath.join "/models/robot" "meshes/a.dae"
  /\ resolve_model_uri ("model://" ++ "robot") "/models/robot" = "/models/robot".
Proof. apply resolve_model_uri_model. reflexivity. Defined.

Lemma isabs_inv (p : string) :
  OsPath.isabs p = true -> exists r, p = String "/" r.
Proof.
  destruct p as [|c r]; [discriminate|]. rewrite isabs_cons.
  destruct (ascii_dec "/" c) as [<-|]; [eauto|discriminate].
Qed.

Lemma join_isabs (a b : string) :
  OsPath.isabs a = true -> OsPath.isabs (OsPath.join a b) = true.
Proof.
  intros Ha. unfold OsPath.join. destruct (OsPath.isabs b) eqn:Hb; [exact Hb|].
  apply isabs_inv in Ha as [r ->].
  destruct (_ || _); rewrite string_app_cons, isabs_cons; reflexivity.
Qed.

Lemma resolve_model_uri_abs (p model_dir : string) :
  OsPath.isabs p = true -> resolve_model_uri p model_dir = p.
Proof.
  intros Hp. unfold resolve_model_uri. rewrite Hp.
  apply isabs_inv in Hp as [r ->]. by destruct r.
Qed.

(** X6.  With an absolute model directory, every URI other than a [file://] one
    resolves to an absolute path, and resolving that path again changes
    nothing. *)
Theorem resolve_model_uri_absolute (uri model_dir : string) :
  OsPath.isabs model_dir = true ->
  Py.startswith "file://" uri = false ->
  OsPath.isabs (resolve_model_uri uri model_dir) = true
  /\ resolve_model_uri (resolve_model_uri uri model_dir) model_dir
     = resolve_model_uri uri model_dir.
Proof.
  intros Hdir Hfile.
  assert (Habs : OsPath.isabs (resolve_model_uri uri model_dir) = true).
  { unfold resolve_model_uri. rewrite Hfile.
    destruct (Py.startswith "model://" uri).
    - destruct (Py.split_once _ _) as [? [rest|]]; [by apply join_isabs|exact Hdir].
    - destruct (OsPath.isabs uri) eqn:Hu; [exact Hu|by apply join_isabs]. }
  split; [exact Habs|by apply resolve_model_uri_abs].
Qed.

Lemma resolve_model_uri_absolute_witness :
  OsPath.isabs (resolve_model_uri "meshes/a.dae" "/models/robot") = true
  /\ resolve_model_uri (resolve_model_uri "meshes/a.dae" "/models/robot") "/models/robot"
     = resolve_model_uri "meshes/a.dae" "/models/robot".
Proof. apply resolve_model_uri_absolute; reflexivity. Defined.

End Uris.

Section Names.

Lemma filter_chars_Forall (p : ascii -> bool) (s : string) :
  Forall (fun c => p c = true) (list_ascii_of_string (Py.filter_chars p s)).
Proof.
  induction s as [|c s IH]; simpl; [constructor|].
  destruct (p c) eqn:Hc; [by constructor|exact IH].
Qed.

(** X7.  Every name returned by the sanitizer is non-empty and made of letters,
    digits and underscores only. *)
Theorem sanitize_usd_name_chars (name : string) :
  sanitize_usd_name name <> ""
  /\ Forall (fun c => name_char c = true)
            (list_ascii_of_string (sanitize_usd_name name)).
Proof.
  split; [apply sanitize_usd_name_nonempty|].
  unfold sanitize_usd_name.
  destruct (String.eqb _ "").
  - repeat constructor.
  - apply (filter_chars_Forall name_char).
Qed.

Lemma replace_cons (c : ascii) (r : string) :
  Py.replace " " "_" (Py.replace "." "_" (Py.replace "-" "_" (String c r)))
  = String (replaced c)
           (Py.replace " " "_" (Py.replace "." "_" (Py.replace "-" "_" r))).
Proof. reflexivity. Qed.

(** X8.  When the first character of a name is one that the sanitizer keeps or
    replaces (a letter, a digit, an underscore, a hyphen, a dot or a
    space), the name returned does not start with a digit. *)
Theorem sanitize_usd_name_first_kept (c : ascii) (r : string) :
  name_char (replaced c) = true ->
  exists c' r', sanitize_usd_name (String c r) = String c' r'
                /\ Py.isdigit c' = false.
Proof.
  intros Hc. unfold sanitize_usd_name. rewrite replace_cons.
  set (rest := Py.replace " " "_" _).
  destruct (Py.isdigit (replaced c)) eqn:Hd.
  - exists "_"%char. eexists. split; [reflexivity|reflexivity].
  - exists (replaced c). eexists. split; [|exact Hd].
    simpl. fold (name_char (replaced c)). rewrite Hc. reflexivity.
Qed.

Lemma sanitize_usd_name_first_kept_witness :
  exists c' r', sanitize_usd_name (String "9" "wheel") = String c' r'
                /\ Py.isdigit c' = false.
Proof. apply sanitize_usd_name_first_kept. reflexivity. Defined.

Lemma name_char_replaced (c : ascii) : name_char c = true -> replaced c = c.
Proof.
  intros H. unfold replaced.
  destruct (Ascii.eqb c "-") eqn:E1; [apply Ascii.eqb_eq in E1; by subst|].
  destruct (Ascii.eqb c ".") eqn:E2; [apply Ascii.eqb_eq in E2; by subst|].
  destruct (Ascii.eqb c " ") eqn:E3; [apply Ascii.eqb_eq in E3; by subst|].
  reflexivity.
Qed.

Lemma replace_valid (s : string) :
  Forall (fun c => name_char c = true) (list_ascii_of_string s) ->
  Py.replace " " "_" (Py.replace "." "_" (Py.replace "-" "_" s)) = s.
Proof.
  induction s as [|c s IH]; [reflexivity|]. simpl list_ascii_of_string.
  intros H. apply Forall_cons in H as [Hc H].
  rewrite replace_cons, (name_char_replaced _ Hc). f_equal. by apply IH.
Qed.

Lemma filter_chars_valid (s : string) :
  Forall (fun c => name_char c = true) (list_ascii_of_string s) ->
  Py.filter_chars name_char s = s.
Proof.
  induction s as [|c s IH]; [reflexivity|]. simpl list_ascii_of_string.
  intros H. apply Forall_cons in H as [Hc H].
  simpl. rewrite Hc. f_equal. by apply IH.
Qed.

(** X9.  The sanitizer returns unchanged a name that is already valid: one made
    of letters, digits and underscores that does not start with a digit. *)
Theorem sanitize_usd_name_valid (c : ascii) (r : string) :
  Py.isdigit c = false ->
  Forall (fun c => name_char c = true) (list_ascii_of_string (String c r)) ->
  sanitize_usd_name (String c r) = String c r.
Proof.
  intros Hd H. unfold sanitize_usd_name.
  rewrite (replace_valid _ H), Hd.
  change (Py.filter_chars _ (String c r)) with (Py.filter_chars name_char (String c r)).
  by rewrite (filter_chars_valid _ H).
Qed.

Lemma sanitize_usd_name_valid_witness :
  sanitize_usd_name (String "b" "ase_link") = String "b" "ase_link".
Proof.
  apply sanitize_usd_name_valid; [reflexivity|]. repeat constructor.
Defined.

End Names.

(** ** Joints and rigid bodies *)

Section JointsMore.

Local Open Scope R_scope.

Ltac drive_attr_tac :=
  unfold attr_value; repeat case_bool_decide; simpl;
  rewrite ?String.eqb_refl; simpl; try reflexivity; try lra.

Lemma revolute_drive (jp pp cp : string) (joint : SdfJoint) :
  attr_value (_create_revolute_joint jp pp cp joint) jp "angular:Damping" =
    (if bool_decide (axis_damping (joint_axis joint) > 0)
     then Some (VFloat (axis_damping (joint_axis joint))) else None)
  /\ attr_value (_create_revolute_joint jp pp cp joint) jp "angular:Stiffness" =
    (if bool_decide (axis_damping (joint_axis joint) > 0)
        && bool_decide (axis_stiffness (joint_axis joint) > 0)
     then Some (VFloat (axis_stiffness (joint_axis joint))) else None)
  /\ attr_value (_create_revolute_joint jp pp cp joint) jp "linear:Damping" = None.
Proof. unfold _create_revolute_joint. repeat split; drive_attr_tac. Qed.

Lemma prismatic_drive (jp pp cp : string) (joint : SdfJoint) :
  attr_value (_create_prismatic_joint jp pp cp joint) jp "linear:Damping" =
    (if bool_decide (axis_damping (joint_axis joint) > 0)
     then Some (VFloat (axis_damping (joint_axis joint))) else None)
  /\ attr_value (_create_prismatic_joint jp pp cp joint) jp "angular:Damping" = None
  /\ attr_value (_create_prismatic_joint jp pp cp joint) jp "angular:Stiffness" = None.
Proof. unfold _create_prismatic_joint. repeat split; drive_attr_tac. Qed.

Lemma fixed_drive (jp pp cp : string) (joint : SdfJoint) (attr : string) :
  attr ∈ ["angular:Damping"; "angular:Stiffness"; "linear:Damping"; "linear:Stiffness"] ->
  attr_value (_create_fixed_joint jp pp cp joint) jp attr = None.
Proof.
  intros H. unfold _create_fixed_joint.
  repeat (apply elem_of_cons in H as [->|H]); [..|by apply elem_of_nil in H];
    drive_attr_tac.
Qed.

(** X10.  The drive of a joint.  A revolute joint gets an angular damping when
    its damping is positive, and a stiffness when its damping and its
    stiffness are both positive: a stiffness without damping is dropped.  A
    prismatic joint gets a linear damping when its damping is positive and
    never a stiffness.  Joints of the other types get no drive attribute. *)
Theorem create_joint_drive (model_path : string) (joint : SdfJoint) :
  let damping := axis_damping (joint_axis joint) in
  let stiffness := axis_stiffness (joint_axis joint) in
  joint_attr model_path joint "angular:Damping"
  = (if String.eqb (joint_type joint) "revolute" && bool_decide (damping > 0)
     then Some (VFloat damping) else None)
  /\ joint_attr model_path joint "angular:Stiffness"
     = (if String.eqb (joint_type joint) "revolute" && bool_decide (damping > 0)
           && bool_decide (stiffness > 0)
        then Some (VFloat stiffness) else None)
  /\ joint_attr model_path joint "linear:Damping"
     = (if String.eqb (joint_type joint) "prismatic" && bool_decide (damping > 0)
        then Some (VFloat damping) else None)
  /\ joint_attr model_path joint "linear:Stiffness" = None.
Proof.
  cbv zeta. unfold joint_attr, create_joint.
  destruct (String.eqb (joint_type joint) "revolute") eqn:Er.
  { apply String.eqb_eq in Er. rewrite Er. cbn [fst andb String.eqb Ascii.eqb].
    pose proof (revolute_drive
                  (model_path ++ "/" ++ sanitize_usd_name (joint_name joint))
                  (model_path ++ "/" ++ sanitize_usd_name (joint_parent joint))
                  (model_path ++ "/" ++ sanitize_usd_name (joint_child joint)) joint)
      as (H1 & H2 & H3).
    split; [exact H1|]. split; [exact H2|]. split; [exact H3|].
    unfold _create_revolute_joint. drive_attr_tac. }
  destruct (String.eqb (joint_type joint) "prismatic") eqn:Ep.
  { cbn [fst andb].
    pose proof (prismatic_drive
                  (model_path ++ "/" ++ sanitize_usd_name (joint_name joint))
                  (model_path ++ "/" ++ sanitize_usd_name (joint_parent joint))
                  (model_path ++ "/" ++ sanitize_usd_name (joint_child joint)) joint)
      as (H1 & H2 & H3).
    split; [exact H2|]. split; [exact H3|]. split; [exact H1|].
    unfold _create_prismatic_joint. drive_attr_tac. }
  cbn [andb].
  destruct (String.eqb (joint_type joint) "fixed");
    [cbn [fst]; repeat split; apply fixed_drive; set_solver|].
  destruct (String.eqb (joint_type joint) "ball");
    [cbn [fst]; repeat split; apply fixed_drive; set_solver|].
  repeat split.
Qed.

(** X11.  The dispatch on the joint type.  Calls are made exactly for the types
    revolute, prismatic, fixed and ball; a ball joint gets the calls of the
    same joint taken as fixed, and one warning; a joint of any other type
    gets no call and one warning; the three types mapped to their own
    schema log nothing. *)
Theorem create_joint_dispatch (model_path : string) (joint : SdfJoint) :
  ((create_joint model_path joint).1 = [] <-> mapped_joint_type (joint_type joint) = false)
  /\ ((create_joint model_path joint).2 = []
      <-> joint_type joint ∈ ["revolute"; "prismatic"; "fixed"])
  /\ (length (create_joint model_path joint).2 <= 1)%nat
  /\ (joint_type joint = "ball" ->
      (create_joint model_path joint).1
      = (create_joint model_path (with_type "fixed" joint)).1).
Proof.
  unfold create_joint, mapped_joint_type.
  destruct (String.eqb (joint_type joint) "revolute") eqn:Er.
  { apply String.eqb_eq in Er. rewrite Er. cbn [fst snd].
    split; [split; [discriminate|]|].
    - intros H. apply bool_decide_eq_false in H. exfalso. apply H. set_solver.
    - split; [split; [set_solver|reflexivity]|]. split; [simpl; lia|discriminate]. }
  destruct (String.eqb (joint_type joint) "prismatic") eqn:Ep.
  { apply String.eqb_eq in Ep. rewrite Ep. cbn [fst snd].
    split; [split; [discriminate|]|].
    - intros H. apply bool_decide_eq_false in H. exfalso. apply H. set_solver.
    - split; [split; [set_solver|reflexivity]|]. split; [simpl; lia|discriminate]. }
  destruct (String.eqb (joint_type joint) "fixed") eqn:Ef.
  { apply String.eqb_eq in Ef. rewrite Ef. cbn [fst snd].
    split; [split; [discriminate|]|].
    - intros H. apply bool_decide_eq_false in H. exfalso. apply H. set_solver.
    - split; [split; [set_solver|reflexivity]|]. split; [simpl; lia|discriminate]. }
  destruct (String.eqb (joint_type joint) "ball") eqn:Eb.
  { apply String.eqb_eq in Eb. rewrite Eb. cbn [fst snd].
    split; [split; [discriminate|]|].
    - intros H. apply bool_decide_eq_false in H. exfalso. apply H. set_solver.
    - split; [split; [discriminate|]|].
      + intros H. exfalso.
        repeat (apply elem_of_cons in H as [H|H]; [discriminate|]).
        by apply elem_of_nil in H.
      + split; [simpl; lia|]. intros _. reflexivity. }
  apply String.eqb_neq in Er, Ep, Ef, Eb. cbn [fst snd].
  split; [split; [|reflexivity]|].
  - intros _. apply bool_decide_eq_false. intros H.
    repeat (apply elem_of_cons in H as [H|H]; [congruence|]).
    by apply elem_of_nil in H.
  - split; [split; [discriminate|]|].
    + intros H. exfalso.
      repeat (apply elem_of_cons in H as [H|H]; [congruence|]).
      by apply elem_of_nil in H.
    + split; [simpl; lia|]. intros H. by destruct Eb.
Qed.

(** X12.  A link gets the rigid-body call alone exactly when it has no inertial
    or an inertial whose mass is not positive; otherwise it gets the mass,
    the centre of mass and the diagonal of the inertia as well. *)
Theorem apply_rigid_body_massless (link_path : string) (link : SdfLink) :
  (apply_rigid_body link_path link = [Apply "RigidBodyAPI" link_path]
   <-> (forall inertial, link_inertial link = Some inertial -> inertial_mass inertial <= 0))
  /\ (forall inertial,
        link_inertial link = Some inertial -> inertial_mass inertial > 0 ->
        attr_value (apply_rigid_body link_path link) link_path "Mass"
        = Some (VFloat (inertial_mass inertial))
        /\ attr_value (apply_rigid_body link_path link) link_path "CenterOfMass"
           = Some (VVec3 (Pose.position (inertial_pose inertial)))
        /\ attr_value (apply_rigid_body link_path link) link_path "DiagonalInertia"
           = Some (VVec3 (ixx (inertial_inertia inertial),
                          iyy (inertial_inertia inertial),
                          izz (inertial_inertia inertial)))).
Proof.
  unfold apply_rigid_body. split.
  - destruct (link_inertial link) as [i|].
    + case_bool_decide as Hm.
      * split; [discriminate|]. intros H. specialize (H i eq_refl). lra.
      * split; [|reflexivity]. intros _ ? [= <-]. lra.
    + split; [|reflexivity]. intros _ ? [=].
  - intros i -> Hm. rewrite bool_decide_eq_true_2 by exact Hm.
    unfold attr_value. simpl. rewrite !String.eqb_refl. simpl. auto.
Qed.

End JointsMore.

(** ** Whole runs *)

(** *** Relations kept by every step of a run

    A preorder on the states that the five primitive steps respect (a call
    on the scene writer, a log record, an update of the material cache, a
    texture copy, a mesh conversion) is respected by the build and by the
    conversions made ahead of it. *)

Section Steps.

Variable env : Env.
Variable cfg : Config.
Variable R : relation RunState.
Context `{!PreOrder R}.

Hypothesis R_emit : forall ops st, R st (emit ops st).
Hypothesis R_add_log : forall records st, R st (add_log records st).
Hypothesis R_set_materials : forall c n st, R st (set_materials c n st).
Hypothesis R_copy_texture : forall dir p st, R st (copy_texture env dir p st).2.
Hypothesis R_mesh_convert : forall dir q st, R st (mesh_convert env dir q st).2.

Lemma steps__setup_texture (dir mat_path texture_file : string) (st : RunState) :
  R st (_setup_texture env dir mat_path texture_file st).
Proof.
  unfold _setup_texture.
  pose proof (R_copy_texture dir texture_file st) as H.
  destruct (copy_texture env dir texture_file st) as [tf st1]. simpl in H.
  etrans; [exact H|apply R_emit].
Qed.

Lemma steps_create_material (dir looks_path : string) (sdf_mat : SdfMaterial)
    (name_hint : string) (st : RunState) :
  R st (create_material env dir looks_path sdf_mat name_hint st).2.
Proof.
  unfold create_material.
  destruct (cache_lookup _ _); [reflexivity|].
  destruct (mat_specular sdf_mat) as [[sr sg] sb]. simpl.
  etrans; [|apply R_set_materials].
  etrans; [|apply R_emit].
  etrans; [apply R_emit|].
  etrans; [|case_bool_decide; [apply R_emit|reflexivity]].
  destruct (mat_pbr sdf_mat) as [pbr|]; [|apply R_emit].
  etrans; [apply R_emit|].
  destruct (negb _ && _); [apply steps__setup_texture|reflexivity].
Qed.

Lemma steps__build_mesh_reference (prim_path : string) (mesh_geom : SdfMeshGeometry)
    (pose : Pose) (st : RunState) :
  R st (_build_mesh_reference env cfg prim_path mesh_geom pose st).2.
Proof.
  unfold _build_mesh_reference.
  destruct (String.eqb _ "" || _); [apply R_add_log|].
  pose proof (R_mesh_convert (meshes_dir env cfg) (mesh_resolved_path mesh_geom) st)
    as Hext.
  destruct (mesh_convert env (meshes_dir env cfg) (mesh_resolved_path mesh_geom) st)
    as [[e|usd] st1]; simpl in *.
  - etrans; [exact Hext|apply R_add_log].
  - etrans; [exact Hext|apply R_emit].
Qed.

Lemma steps__build_geometry (prim_path : string) (geometry : SdfGeometry)
    (pose : Pose) (st : RunState) :
  R st (_build_geometry env cfg prim_path geometry pose st).2.
Proof.
  unfold _build_geometry.
  destruct (geom_mesh geometry); [apply steps__build_mesh_reference|].
  destruct (geom_box geometry); [apply R_emit|].
  destruct (geom_cylinder geometry); [apply R_emit|].
  destruct (geom_sphere geometry); [apply R_emit|].
  destruct (geom_capsule geometry); [apply R_emit|reflexivity].
Qed.

Lemma steps__build_visual (looks_path parent_path : string) (visual : SdfVisual)
    (st : RunState) :
  R st (_build_visual env cfg looks_path parent_path visual st).
Proof.
  unfold _build_visual. destruct (visual_geometry visual) as [g|]; [|reflexivity].
  pose proof (steps__build_geometry
                (parent_path ++ "/" ++ sanitize_usd_name (visual_name visual))
                g (visual_pose visual) st) as Hext.
  destruct (_build_geometry _ _ _ _ _ _) as [[geom_path|] st1]; simpl in *; [|done].
  destruct (visual_material visual) as [m|]; [|done].
  pose proof (steps_create_material (meshes_dir env cfg) looks_path m
                (sanitize_usd_name (visual_name visual)) st1) as Hmat.
  destruct (create_material _ _ _ _ _ _) as [mat_path st2]. simpl in *.
  etrans; [exact Hext|]. etrans; [exact Hmat|]. apply R_emit.
Qed.

Lemma steps__build_collision (parent_path : string) (collision : SdfCollision)
    (st : RunState) :
  R st (_build_collision env cfg parent_path collision st).
Proof.
  unfold _build_collision. destruct (collision_geometry collision) as [g|]; [|reflexivity].
  pose proof (steps__build_geometry
                (parent_path ++ "/" ++ sanitize_usd_name (collision_name collision))
                g (collision_pose collision) st) as Hext.
  destruct (_build_geometry _ _ _ _ _ _) as [[geom_path|] st1]; simpl in *; [|done].
  etrans; [exact Hext|]. apply R_emit.
Qed.

Lemma steps_build_visuals (looks_path link_path : string) (visuals : list SdfVisual)
    (st : RunState) :
  R st (build_visuals env cfg looks_path link_path visuals st).
Proof.
  unfold build_visuals. destruct visuals; [reflexivity|].
  etrans; [apply R_emit|].
  apply (foldl_rel R). intros. apply steps__build_visual.
Qed.

Lemma steps_build_collisions (link_path : string) (collisions : list SdfCollision)
    (st : RunState) :
  R st (build_collisions env cfg link_path collisions st).
Proof.
  unfold build_collisions. destruct (include_collision cfg); [|reflexivity].
  destruct collisions; [reflexivity|].
  etrans; [apply R_emit|].
  apply (foldl_rel R). intros. apply steps__build_collision.
Qed.

Lemma steps__build_link (looks_path model_path : string) (link : SdfLink)
    (st : RunState) :
  R st (_build_link env cfg looks_path model_path link st).
Proof.
  unfold _build_link. cbv zeta.
  etrans; [|apply steps_build_collisions].
  etrans; [|apply steps_build_visuals].
  etrans; [apply R_emit|].
  destruct (include_physics cfg); [apply R_emit|reflexivity].
Qed.

Lemma steps_create_joint (model_path : string) (st : RunState) (joint : SdfJoint) :
  R st (let '(ops, records) := create_joint model_path joint in
        add_log records (emit ops st)).
Proof.
  destruct (create_joint model_path joint) as [ops records].
  etrans; [apply R_emit|apply R_add_log].
Qed.

Lemma steps_build (model : SdfModel) (st : RunState) : R st (build env cfg model st).
Proof.
  unfold build. cbv zeta.
  set (st0 := emit _ st).
  set (st1 := foldl _ st0 (model_links model)).
  assert (H0 : R st st0) by apply R_emit.
  assert (H1 : R st0 st1).
  { apply (foldl_rel R). intros. apply steps__build_link. }
  clearbody st0 st1.
  trans st1; [by trans st0|].
  etrans; [|apply R_emit].
  destruct (include_physics cfg); [|reflexivity].
  apply (foldl_rel R). intros. apply steps_create_joint.
Qed.

#[local] Instance on_fst_preorder : PreOrder (on_fst R).
Proof.
  split.
  - intros a. unfold on_fst. reflexivity.
  - intros a b c. unfold on_fst. intros H1 H2. by etrans.
Qed.

Lemma steps_preconvert_step (acc : RunState * nat) (q : string) :
  on_fst R acc (preconvert_step env cfg acc q).
Proof.
  unfold on_fst, preconvert_step. destruct acc as [st n].
  destruct (path_exists env st q); [|reflexivity].
  pose proof (R_mesh_convert (meshes_dir env cfg) q st) as Hext.
  destruct (mesh_convert env (meshes_dir env cfg) q st) as [[e|usd] st1]; simpl in *.
  - etrans; [exact Hext|apply R_add_log].
  - exact Hext.
Qed.

Lemma steps_preconvert (model : SdfModel) (st : RunState) :
  R st (preconvert env cfg model st).1.
Proof.
  unfold preconvert.
  apply (foldl_rel (on_fst R) (preconvert_step env cfg) _ (st, 0)).
  apply steps_preconvert_step.
Qed.

Lemma steps_convert (model : SdfModel) : R initial_state (final (convert env cfg model)).
Proof.
  rewrite final_convert. etrans; [apply steps_preconvert|apply steps_build].
Qed.

End Steps.

(** *** The mesh converter *)

Section MeshConverterMore.

Variable env : Env.

(** The loop over the names returns the name of least rank that is not in
    use. *)
Lemma unique_usd_path_rank (used : list string) (output_dir base_name usd_path : string)
    (fuel k : nat) :
  unique_usd_path fuel used output_dir base_name k = Some usd_path ->
  exists n, k <= n
    /\ usd_path = usd_candidate output_dir base_name n
    /\ (usd_path ∉ used)
    /\ (forall j, k <= j < n -> usd_candidate output_dir base_name j ∈ used).
Proof.
  revert k. induction fuel as [|fuel IH]; intros k; simpl; case_bool_decide as Hin;
    try discriminate.
  - intros [= <-]. exists k. repeat split; [lia|done|]. intros j Hj. lia.
  - intros H. destruct (IH _ H) as (n & Hn & Heq & Hfree & Hused).
    exists n. repeat split; [lia|done|done|].
    intros j Hj. destruct (decide (j = k)) as [->|]; [done|]. apply Hused. lia.
  - intros [= <-]. exists k. repeat split; [lia|done|]. intros j Hj. lia.
Qed.

(** X13.  The name given to a converted mesh is the first of [base.usd],
    [base_1.usd], [base_2.usd], ... that no source of the cache has: such a
    name is found, the names before it are all taken, and it is not. *)
Theorem unique_usd_path_least (used : list string) (output_dir base_name : string) :
  exists n,
    unique_usd_path (length used) used output_dir base_name 0
    = Some (usd_candidate output_dir base_name n)
    /\ (usd_candidate output_dir base_name n ∉ used)
    /\ (forall j, j < n -> usd_candidate output_dir base_name j ∈ used).
Proof.
  destruct (unique_usd_path_total used output_dir base_name) as (usd & Hsome & _).
  destruct (unique_usd_path_rank _ _ _ _ _ _ Hsome) as (n & _ & -> & Hfree & Hused).
  exists n. repeat split; [done|done|]. intros j Hj. apply Hused. lia.
Qed.

(** One call of [mesh_convert], by cases: either the state is returned as
    it was (a missing file, a source in the cache, a format that is not
    supported), or the asset converter is called with a name that no source
    of the cache has. *)
Lemma mesh_convert_cases (output_dir q : string) (st : RunState) :
  let s := abspath env q in
  ((mesh_convert env output_dir q st).2 = st
   /\ (path_exists env st s = false
       /\ (mesh_convert env output_dir q st).1
          = inl (FileNotFoundError ("Mesh file not found: " ++ s))
       \/ path_exists env st s = true
          /\ (exists usd, mesh_cache st !! s = Some usd
                          /\ (mesh_convert env output_dir q st).1 = inr usd)
       \/ path_exists env st s = true /\ mesh_cache st !! s = None
          /\ supported_source s = false
          /\ exists msg, (mesh_convert env output_dir q st).1 = inl (RuntimeError msg)))
  \/ (path_exists env st s = true /\ mesh_cache st !! s = None
      /\ supported_source s = true
      /\ exists usd,
           (usd ∉ cache_values (mesh_cache st))
           /\ let st2 := add_conversion s usd
                           (_copy_adjacent_textures env output_dir s st) in
              mesh_convert env output_dir q st
              = if run_conversion env s usd
                then (inr usd, set_mesh_cache (<[s := usd]> (mesh_cache st2))
                                              (add_created usd st2))
                else (inl (RuntimeError ("Mesh conversion failed for " ++ s)), st2)).
Proof.
  cbv zeta. unfold mesh_convert, supported_source.
  set (s := abspath env q).
  destruct (path_exists env st s) eqn:Hex; simpl.
  2:{ left. split; [done|]. left. done. }
  destruct (mesh_cache st !! s) as [usd|] eqn:Hc.
  { left. split; [done|]. right. left. split; [done|]. by exists usd. }
  case_bool_decide as Hsup; simpl.
  2:{ left. split; [done|]. right. right. repeat split; try done. eauto. }
  right. repeat split; try done.
  destruct (unique_usd_path_total (cache_values (mesh_cache st)) output_dir
              (OsPath.splitext (OsPath.basename s)).1) as (usd & -> & Hfree).
  exists usd. split; [done|]. reflexivity.
Qed.

Lemma cache_values_elem (c : gmap string string) (k v : string) :
  c !! k = Some v -> v ∈ cache_values c.
Proof.
  intros H. unfold cache_values. apply list_elem_of_fmap. exists (k, v).
  split; [done|]. by apply elem_of_map_to_list.
Qed.

Lemma insert_injective (c : gmap string string) (s usd : string) :
  cache_injective c -> usd ∉ cache_values c -> cache_injective (<[s := usd]> c).
Proof.
  intros Hinj Hfree s1 s2 v H1 H2.
  destruct (decide (s1 = s)) as [->|N1], (decide (s2 = s)) as [->|N2]; [done|..].
  - rewrite lookup_insert_eq in H1. rewrite lookup_insert_ne in H2 by done.
    injection H1 as <-. destruct Hfree. by eapply cache_values_elem.
  - rewrite lookup_insert_eq in H2. rewrite lookup_insert_ne in H1 by done.
    injection H2 as <-. destruct Hfree. by eapply cache_values_elem.
  - rewrite lookup_insert_ne in H1, H2 by done. by eapply Hinj.
Qed.

Lemma mesh_convert_keeps_injective (output_dir q : string) (st : RunState) :
  keeps_injective st (mesh_convert env output_dir q st).2.
Proof.
  unfold keeps_injective. intros Hinj.
  destruct (mesh_convert_cases output_dir q st)
    as [[-> _] | (_ & _ & _ & usd & Hfree & Heq)]; [done|].
  cbv zeta in Heq. rewrite Heq.
  pose proof (_copy_adjacent_textures_frame env output_dir (abspath env q) st)
    as (F1 & _).
  destruct (run_conversion env (abspath env q) usd); simpl; rewrite F1; [|done].
  by apply insert_injective.
Qed.


(** X14.  A call that returns a converted file leaves a state in which the same
    call returns the same file and changes nothing: no second conversion
    is made. *)
Theorem mesh_convert_again (output_dir q usd : string) (st : RunState) :
  (mesh_convert env output_dir q st).1 = inr usd ->
  mesh_convert env output_dir q (mesh_convert env output_dir q st).2
  = (inr usd, (mesh_convert env output_dir q st).2).
Proof.
  intros Hres.
  destruct (mesh_convert_spec env output_dir q st)
    as (res & st' & Heq & _ & Hmono & Hcases).
  rewrite Heq in *. simpl in *. subst res.
  assert (Hboth : path_exists env st (abspath env q) = true
                  /\ mesh_cache st' !! abspath env q = Some usd).
  { destruct Hcases as [(Hc & _ & Hex & Hhit) | (Hex & _ & _ & usd' & _ & Hu & _ & Hc)].
    - by rewrite Hc.
    - subst usd'. split; [done|]. rewrite Hc. apply lookup_insert_eq. }
  destruct Hboth as [Hex Hc]. apply Hmono in Hex.
  unfold mesh_convert. by rewrite Hex, Hc.
Qed.


End MeshConverterMore.

Lemma mesh_convert_again_witness :
  mesh_convert (example_env ["/models/m/meshes/a.dae"] true) "/out/meshes"
               "/models/m/meshes/a.dae"
               (mesh_convert (example_env ["/models/m/meshes/a.dae"] true) "/out/meshes"
                             "/models/m/meshes/a.dae" initial_state).2
  = (inr "/out/meshes/a.usd",
     (mesh_convert (example_env ["/models/m/meshes/a.dae"] true) "/out/meshes"
                   "/models/m/meshes/a.dae" initial_state).2).
Proof. apply mesh_convert_again. vm_compute. reflexivity. Defined.


(** *** Invariants of a run *)

#[global] Instance keeps_injective_preorder : PreOrder keeps_injective.
Proof.
  split.
  - intros st H. exact H.
  - intros a b c H1 H2 H. apply H2, H1, H.
Qed.

#[global] Instance stage_kept_preorder : PreOrder stage_kept.
Proof.
  split.
  - intros st. reflexivity.
  - intros a b c H1 H2. unfold stage_kept in *. congruence.
Qed.

#[global] Instance stage_appended_preorder : PreOrder stage_appended.
Proof.
  split.
  - intros st. exists []. by rewrite app_nil_r.
  - intros a b c [o1 H1] [o2 H2]. exists (o1 ++ o2)%list.
    by rewrite H2, H1, app_assoc.
Qed.

Section RunMore.

Variable env : Env.
Variable cfg : Config.

(** X16.  At the end of a run no two mesh sources share a converted file: the
    names given by the converter keep the sources apart, whatever their
    base names. *)
Theorem run_cache_injective (model : SdfModel) :
  cache_injective (mesh_cache (final (convert env cfg model))).
Proof.
  apply (steps_convert env cfg keeps_injective).
  - intros ops st H. exact H.
  - intros records st H. exact H.
  - intros c n st H. exact H.
  - intros dir p st H.
    by rewrite (proj1 (copy_texture_frame env dir p st)).
  - intros dir q st. apply mesh_convert_keeps_injective.
  - intros s1 s2 usd H. simpl in H. by rewrite lookup_empty in H.
Qed.

Lemma mesh_convert_stage (dir q : string) (st : RunState) :
  stage (mesh_convert env dir q st).2 = stage st.
Proof.
  destruct (mesh_convert_spec env dir q st) as (res & st' & -> & Hst & _). exact Hst.
Qed.

Lemma stage_kept_appended (st st' : RunState) : stage_kept st st' -> stage_appended st st'.
Proof. intros H. exists []. by rewrite app_nil_r. Qed.

Lemma build_stage (model : SdfModel) (st : RunState) :
  exists mid,
    stage (build env cfg model st)
    = (stage st ++ CreateNew (abs_output_path env cfg) :: mid ++ [Save])%list.
Proof.
  assert (Hemit : forall ops st0, stage_appended st0 (emit ops st0)).
  { intros ops st0. by exists ops. }
  assert (Hlog : forall records st0, stage_appended st0 (add_log records st0)).
  { intros records st0. exists []. simpl. by rewrite app_nil_r. }
  assert (Hmat : forall c n st0, stage_appended st0 (set_materials c n st0)).
  { intros c n st0. exists []. simpl. by rewrite app_nil_r. }
  assert (Htex : forall dir p st0, stage_appended st0 (copy_texture env dir p st0).2).
  { intros dir p st0. apply stage_kept_appended.
    apply (copy_texture_frame env dir p st0). }
  assert (Hmesh : forall dir q st0, stage_appended st0 (mesh_convert env dir q st0).2).
  { intros dir q st0. apply stage_kept_appended, mesh_convert_stage. }
  unfold build. cbv zeta.
  match goal with |- context [foldl ?f (emit ?ops st) (model_links model)] =>
    set (st0 := emit ops st);
    assert (H0 : exists r, stage st0 = (stage st ++ CreateNew (abs_output_path env cfg) :: r)%list)
      by (eexists; reflexivity);
    set (st1 := foldl f st0 (model_links model));
    assert (H1 : stage_appended st0 st1)
      by (apply (foldl_rel stage_appended); intros;
          apply (steps__build_link env cfg stage_appended); assumption)
  end.
  clearbody st0 st1.
  match goal with |- context [emit [Save] ?s2] =>
    assert (H2 : stage_appended st1 s2)
  end.
  { destruct (include_physics cfg); [|reflexivity].
    apply (foldl_rel stage_appended). intros.
    apply (steps_create_joint stage_appended); assumption. }
  destruct H0 as [r0 E0], H1 as [r1 E1], H2 as [r2 E2].
  exists (r0 ++ r1 ++ r2)%list. simpl. rewrite E2, E1, E0.
  by rewrite <- !app_assoc.
Qed.

(** X17.  Nothing is written on the stage by the conversions made ahead of the
    build; the stage of a run starts with the creation of the output file
    and ends with its save. *)
Theorem convert_stage_shape (model : SdfModel) :
  stage (preconvert env cfg model initial_state).1 = []
  /\ exists mid,
       stage (final (convert env cfg model))
       = CreateNew (abs_output_path env cfg) :: mid ++ [Save].
Proof.
  assert (H : stage (preconvert env cfg model initial_state).1 = []).
  { apply (steps_preconvert env cfg stage_kept).
    - intros records st. reflexivity.
    - intros dir q st. apply mesh_convert_stage. }
  split; [exact H|].
  rewrite final_convert.
  destruct (build_stage model (preconvert env cfg model initial_state).1) as [mid E].
  exists mid. by rewrite E, H.
Qed.

Lemma copies_fresh_frame (st st' : RunState) :
  copies st' = copies st ->
  (forall x, x ∈ created st -> x ∈ created st') ->
  keeps_copies_fresh env st st'.
Proof.
  intros Hc Hsub [Hnd Hin]. unfold copies_fresh. rewrite Hc.
  split; [exact Hnd|]. intros d Hd. destruct (Hin d Hd). auto.
Qed.

Lemma copy2_fresh (src dst : string) (st : RunState) :
  path_exists env st dst = false -> keeps_copies_fresh env st (copy2 src dst st).
Proof.
  unfold path_exists. intros [Hfs Hcr]%orb_false_iff [Hnd Hin].
  apply bool_decide_eq_false in Hcr.
  unfold copies_fresh. simpl. rewrite fmap_app. simpl. split.
  - apply NoDup_app. split; [exact Hnd|]. split; [|apply NoDup_singleton].
    intros d Hd ->%list_elem_of_singleton. by destruct (Hin dst Hd).
  - intros d [Hd | ->%list_elem_of_singleton]%elem_of_app.
    + destruct (Hin d Hd). split; [|done]. apply elem_of_app. by left.
    + split; [|done]. apply elem_of_app. right. by apply list_elem_of_singleton.
Qed.

#[local] Instance keeps_copies_fresh_preorder : PreOrder (keeps_copies_fresh env).
Proof.
  split.
  - intros st H. exact H.
  - intros a b c H1 H2 H. apply H2, H1, H.
Qed.

Lemma _copy_adjacent_textures_fresh (output_dir mesh_path : string) (st : RunState) :
  keeps_copies_fresh env st (_copy_adjacent_textures env output_dir mesh_path st).
Proof.
  unfold _copy_adjacent_textures.
  apply (foldl_rel (keeps_copies_fresh env)). intros st0 fname.
  case_bool_decide; [|reflexivity].
  destruct (path_exists env st0 _) eqn:E; [reflexivity|]. by apply copy2_fresh.
Qed.

Lemma mesh_convert_fresh (output_dir q : string) (st : RunState) :
  keeps_copies_fresh env st (mesh_convert env output_dir q st).2.
Proof.
  destruct (mesh_convert_cases env output_dir q st)
    as [[-> _] | (_ & _ & _ & usd & _ & Heq)]; [reflexivity|].
  cbv zeta in Heq. rewrite Heq.
  etrans; [apply (_copy_adjacent_textures_fresh output_dir (abspath env q))|].
  destruct (run_conversion env (abspath env q) usd); simpl.
  - apply copies_fresh_frame; [done|]. intros x Hx. simpl. apply elem_of_app. by left.
  - by apply copies_fresh_frame.
Qed.

Lemma copy_texture_fresh (dir p : string) (st : RunState) :
  keeps_copies_fresh env st (copy_texture env dir p st).2.
Proof.
  unfold copy_texture. destruct (negb _); [by apply copies_fresh_frame|].
  destruct (path_exists env st _) eqn:E; [reflexivity|]. by apply copy2_fresh.
Qed.

Lemma path_exists_false (st : RunState) (d : string) :
  path_exists env st d = false <-> fs_exists env d = false /\ d ∉ created st.
Proof.
  unfold path_exists. rewrite orb_false_iff, bool_decide_eq_false. reflexivity.
Qed.

#[local] Instance copied_fresh_preorder : PreOrder (copied_fresh env).
Proof.
  split.
  - intros st. exists []. rewrite !app_nil_r. split; [done|]. split; [done|].
    split; [constructor|]. intros d Hd. by apply elem_of_nil in Hd.
  - intros a b c (l1 & Hc1 & Hw1 & Hnd1 & Hf1) (l2 & Hc2 & Hw2 & Hnd2 & Hf2).
    exists (l1 ++ l2)%list. rewrite Hc2, Hc1, Hw2, Hw1, fmap_app, !app_assoc.
    split; [done|]. split; [done|]. split.
    + apply NoDup_app. split; [exact Hnd1|]. split; [|exact Hnd2].
      intros d Hd1 Hd2. apply Hf2, path_exists_false in Hd2 as [_ Hd2].
      apply Hd2. rewrite Hw1. apply elem_of_app. by right.
    + intros d [Hd|Hd]%elem_of_app; [by apply Hf1|].
      apply Hf2, path_exists_false in Hd as [Hfs Hd].
      apply path_exists_false. split; [exact Hfs|].
      intros Hin. apply Hd. rewrite Hw1. apply elem_of_app. by left.
Qed.

Lemma copy2_copied_fresh (src dst : string) (st : RunState) :
  path_exists env st dst = false -> copied_fresh env st (copy2 src dst st).
Proof.
  intros H. exists [(src, dst)]. simpl. split; [done|]. split; [done|].
  split; [apply NoDup_singleton|]. by intros d ->%list_elem_of_singleton.
Qed.

Lemma _copy_adjacent_textures_copied (output_dir mesh_path : string) (st : RunState) :
  copied_fresh env st (_copy_adjacent_textures env output_dir mesh_path st).
Proof.
  unfold _copy_adjacent_textures.
  apply (foldl_rel (copied_fresh env)). intros st0 fname.
  case_bool_decide; [|reflexivity].
  destruct (path_exists env st0 _) eqn:E; [reflexivity|]. by apply copy2_copied_fresh.
Qed.

Lemma copy_texture_copied (output_dir source_path : string) (st : RunState) :
  let r := copy_texture env output_dir source_path st in
  (copies r.2 = copies st /\ created r.2 = created st)
  \/ (r.2 = copy2 source_path r.1 st /\ path_exists env st r.1 = false).
Proof.
  cbv zeta. unfold copy_texture. destruct (negb _); [by left|].
  destruct (path_exists env st (OsPath.join output_dir (OsPath.basename source_path)))
    eqn:E; [by left|by right].
Qed.

(** X18.  Texture copies go to paths that hold no file.  A call of
    [copy_texture], from any state, either copies nothing or makes one copy,
    to a destination that holds no file in that state (neither on disk when
    the run started nor written by the run so far).  A call of
    [_copy_adjacent_textures], from any state, writes nothing but its
    copies, whose destinations are pairwise distinct and hold no file in
    that state.  Over a whole run, no two copies go to the same path, and
    every path a copy went to is among the files the run has written and
    held no file when the run started. *)
Theorem run_copies_fresh (model : SdfModel) :
  copies_fresh env (final (convert env cfg model))
  /\ (forall output_dir source_path st,
        let r := copy_texture env output_dir source_path st in
        (copies r.2 = copies st /\ created r.2 = created st)
        \/ (r.2 = copy2 source_path r.1 st /\ path_exists env st r.1 = false))
  /\ (forall output_dir mesh_path st,
        copied_fresh env st (_copy_adjacent_textures env output_dir mesh_path st)).
Proof.
  split; [|split; [apply copy_texture_copied|apply _copy_adjacent_textures_copied]].
  apply (steps_convert env cfg (keeps_copies_fresh env)).
  - intros ops st. by apply copies_fresh_frame.
  - intros records st. by apply copies_fresh_frame.
  - intros c n st. by apply copies_fresh_frame.
  - apply copy_texture_fresh.
  - apply mesh_convert_fresh.
  - split; [constructor|]. intros d Hd. by apply elem_of_nil in Hd.
Qed.

Lemma preconvert_count (l : list string) (st : RunState) (n : nat) :
  (foldl (preconvert_step env cfg) (st, n) l).2 <= n + length l.
Proof.
  revert st n. induction l as [|q l IH]; intros st n; cbn [foldl length snd]; [lia|].
  destruct (preconvert_step env cfg (st, n) q) as [st1 n1] eqn:E.
  specialize (IH st1 n1).
  assert (n1 <= S n); [|lia].
  unfold preconvert_step in E. destruct (path_exists env st q).
  - destruct (mesh_convert _ _ _ _) as [[e|usd] st2]; injection E as <- <-; lia.
  - injection E as <- <-. lia.
Qed.

(** X19.  The counts of the summary: the meshes converted are at most the
    distinct mesh paths, which are at most the mesh references of the
    model. *)
Theorem summary_counts (model : SdfModel) :
  summary_converted (convert env cfg model) <= summary_unique_meshes (convert env cfg model)
  /\ summary_unique_meshes (convert env cfg model) <= length (collect_mesh_paths cfg model).
Proof.
  unfold convert.
  pose proof (preconvert_count (sorted_mesh_paths cfg model) initial_state 0) as H.
  fold (preconvert env cfg model initial_state) in H.
  destruct (preconvert env cfg model initial_state) as [st n]. simpl in *.
  split; [lia|].
  unfold sorted_mesh_paths. rewrite merge_sort_Permutation.
  apply submseteq_length, NoDup_submseteq; [apply NoDup_remove_dups|].
  intros x Hx. by apply elem_of_remove_dups.
Qed.

End RunMore.

(** *** Textures and materials *)

Section MaterialsMore.

Variable env : Env.

(** X20.  A texture that is present is copied at most once: the path returned is
    the base name of the texture in the output directory, nothing is
    logged, and the same call on the state left returns the same path and
    changes nothing. *)
Theorem copy_texture_again (dir p : string) (st : RunState) :
  path_exists env st p = true ->
  (copy_texture env dir p st).1 = OsPath.join dir (OsPath.basename p)
  /\ copy_texture env dir p (copy_texture env dir p st).2 = copy_texture env dir p st
  /\ log (copy_texture env dir p st).2 = log st
  /\ length (copies (copy_texture env dir p st).2) <= S (length (copies st)).
Proof.
  intros Hex. unfold copy_texture. rewrite Hex. simpl.
  destruct (path_exists env st (OsPath.join dir (OsPath.basename p))) eqn:Hd; simpl.
  - rewrite Hex, Hd. simpl. repeat split; lia.
  - assert (H1 : path_exists env (copy2 p (OsPath.join dir (OsPath.basename p)) st) p
                 = true).
    { eapply path_exists_created; [|exact Hex]. intros x Hx. simpl.
      apply elem_of_app. by left. }
    assert (H2 : path_exists env (copy2 p (OsPath.join dir (OsPath.basename p)) st)
                   (OsPath.join dir (OsPath.basename p)) = true).
    { unfold path_exists. apply orb_true_iff. right. apply bool_decide_eq_true.
      simpl. apply elem_of_app. right. by apply list_elem_of_singleton. }
    rewrite H1, H2. simpl. rewrite length_app. simpl. repeat split; lia.
Qed.

Lemma copy_texture_quiet (dir p : string) (st : RunState) :
  path_exists env st p = true ->
  log (copy_texture env dir p st).2 = log st
  /\ length (copies (copy_texture env dir p st).2) <= S (length (copies st)).
Proof.
  intros Hex. unfold copy_texture. rewrite Hex. simpl.
  destruct (path_exists env st (OsPath.join dir (OsPath.basename p))); simpl;
    [split; [done|lia]|].
  rewrite length_app. simpl. split; [done|lia].
Qed.

Lemma copy_texture_materials (dir p : string) (st : RunState) :
  material_cache (copy_texture env dir p st).2 = material_cache st
  /\ material_counter (copy_texture env dir p st).2 = material_counter st.
Proof.
  unfold copy_texture. destruct (negb _); [done|]. by destruct (path_exists env st _).
Qed.

Lemma cache_lookup_snoc_hit (key : MaterialKey) (v : string)
    (cache : list (MaterialKey * string)) :
  cache_lookup key cache = None -> cache_lookup key (cache ++ [(key, v)]) = Some v.
Proof.
  intros Hc. induction cache as [|[k' v'] cache IH]; simpl in *.
  - by rewrite decide_True.
  - destruct (decide (k' = key)); [discriminate|auto].
Qed.

(** What the creation of a material leaves alone, and the entry it adds to
    the cache of materials. *)
Lemma create_material_effect (dir looks_path : string) (sdf_mat : SdfMaterial)
    (name_hint : string) (st : RunState) :
  let r := create_material env dir looks_path sdf_mat name_hint st in
  log r.2 = log st
  /\ length (copies r.2) <= S (length (copies st))
  /\ match cache_lookup (_material_hash sdf_mat) (material_cache st) with
     | Some mat_path => r = (mat_path, st)
     | None =>
         material_cache r.2 = (material_cache st ++ [(_material_hash sdf_mat, r.1)])%list
         /\ material_counter r.2 = S (material_counter st)
     end.
Proof.
  cbv zeta. unfold create_material.
  destruct (cache_lookup _ _); [simpl; repeat split; lia|].
  destruct (mat_specular sdf_mat) as [[sr sg] sb]. simpl.
  destruct (mat_pbr sdf_mat) as [pbr|]; [|case_bool_decide; simpl; repeat split; lia].
  destruct (negb (String.eqb (pbr_albedo_map_resolved pbr) "")) eqn:Hne; simpl;
    [|case_bool_decide; simpl; repeat split; lia].
  match goal with |- context [path_exists env ?st0 ?p] =>
    destruct (path_exists env st0 p) eqn:Hex;
      [|by case_bool_decide; simpl; repeat split; try lia]
  end.
  unfold _setup_texture.
  match goal with |- context [copy_texture env dir ?t ?st0] =>
    pose proof (copy_texture_quiet dir t st0 Hex) as (Hlog & Hlen);
    pose proof (copy_texture_materials dir t st0) as Hmat;
    destruct (copy_texture env dir t st0) as [tf st1]
  end.
  simpl in *. destruct Hmat as [Hm Hn].
  case_bool_decide; simpl; rewrite Hlog, Hm; repeat split; lia.
Qed.

(** X21.  The creation of a material logs nothing: the texture is looked for
    before it is copied, so the warning of [copy_texture] for a missing
    texture does not occur; and at most one file is copied. *)
Theorem create_material_quiet (dir looks_path : string) (sdf_mat : SdfMaterial)
    (name_hint : string) (st : RunState) :
  log (create_material env dir looks_path sdf_mat name_hint st).2 = log st
  /\ length (copies (create_material env dir looks_path sdf_mat name_hint st).2)
     <= S (length (copies st)).
Proof.
  pose proof (create_material_effect dir looks_path sdf_mat name_hint st) as (H1 & H2 & _).
  by split.
Qed.

(** X22.  A material is created once per key.  After a material has been asked
    for, asking for a material with the same colours and the same
    metalness, roughness and map name returns the same path and changes
    nothing, whatever the name hint and the resolved path of the map. *)
Theorem create_material_again (dir looks_path : string) (sdf_mat sdf_mat' : SdfMaterial)
    (name_hint name_hint' : string) (st : RunState) :
  _material_hash sdf_mat' = _material_hash sdf_mat ->
  create_material env dir looks_path sdf_mat' name_hint'
                  (create_material env dir looks_path sdf_mat name_hint st).2
  = create_material env dir looks_path sdf_mat name_hint st.
Proof.
  intros Hkey.
  pose proof (create_material_effect dir looks_path sdf_mat name_hint st) as (_ & _ & H).
  cbv zeta in H.
  destruct (cache_lookup (_material_hash sdf_mat) (material_cache st)) as [p|] eqn:Hc.
  - rewrite H. simpl. apply create_material_cached. by rewrite Hkey.
  - destruct H as [Hm _].
    rewrite (create_material_cached env dir looks_path name_hint'
               (create_material env dir looks_path sdf_mat name_hint st).1).
    + by destruct (create_material env dir looks_path sdf_mat name_hint st).
    + rewrite Hkey, Hm. by apply cache_lookup_snoc_hit.
Qed.

End MaterialsMore.

Lemma copy_texture_again_witness :
  (copy_texture (example_env ["/models/m/tex/a.png"] true) "/out/meshes"
                "/models/m/tex/a.png" initial_state).1
  = OsPath.join "/out/meshes" (OsPath.basename "/models/m/tex/a.png").
Proof.
  apply (proj1 (copy_texture_again (example_env ["/models/m/tex/a.png"] true)
                  "/out/meshes" "/models/m/tex/a.png" initial_state eq_refl)).
Defined.

Lemma create_material_again_witness :
  create_material (example_env [] true) "/out/meshes" "/m/Looks"
                  SdfMaterial_default "other"
                  (create_material (example_env [] true) "/out/meshes" "/m/Looks"
                                   SdfMaterial_default "visual" initial_state).2
  = create_material (example_env [] true) "/out/meshes" "/m/Looks"
                    SdfMaterial_default "visual" initial_state.
Proof. apply create_material_again. reflexivity. Defined.

(** *** The options of a run *)

Section Options.

Variable env : Env.

Lemma foldl_map_eq {S A : Type} (f : S -> A -> S) (g : A -> A) (l : list A) (st : S) :
  (forall st x, f st (g x) = f st x) -> foldl f st (map g l) = foldl f st l.
Proof.
  intros H. revert st. induction l as [|x l IH]; intros st; simpl; [done|].
  by rewrite H, IH.
Qed.

Lemma flat_map_map_eq {A B : Type} (f : A -> list B) (g : A -> A) (l : list A) :
  (forall x, f (g x) = f x) -> flat_map f (map g l) = flat_map f l.
Proof.
  intros H. induction l as [|x l IH]; simpl; [done|]. by rewrite H, IH.
Qed.

(** X23.  Without collisions among the options, the collisions of the model play
    no part in a run: neither their meshes are converted nor their prims
    built. *)
Theorem convert_without_collisions (cfg : Config) (model : SdfModel) :
  include_collision cfg = false ->
  convert env cfg (without_collisions model) = convert env cfg model.
Proof.
  intros Hc.
  assert (Hpaths : sorted_mesh_paths cfg (without_collisions model)
                   = sorted_mesh_paths cfg model).
  { unfold sorted_mesh_paths, collect_mesh_paths. simpl.
    rewrite flat_map_map_eq; [done|].
    intros link. unfold link_mesh_paths. by rewrite Hc. }
  assert (Hbuild : forall st, build env cfg (without_collisions model) st
                              = build env cfg model st).
  { intros st. unfold build. simpl.
    rewrite foldl_map_eq; [done|].
    intros st0 link. unfold _build_link, build_collisions. by rewrite Hc. }
  unfold convert, preconvert. rewrite Hpaths.
  destruct (foldl _ _ _) as [st n]. rewrite Hbuild. simpl.
  by rewrite length_map.
Qed.

(** X24.  Without physics among the options, the joints of the model and the
    inertials of its links play no part in what a run writes. *)
Theorem convert_without_physics (cfg : Config) (model : SdfModel) :
  include_physics cfg = false ->
  final (convert env cfg (without_physics model)) = final (convert env cfg model).
Proof.
  intros Hp.
  assert (Hpaths : sorted_mesh_paths cfg (without_physics model)
                   = sorted_mesh_paths cfg model).
  { unfold sorted_mesh_paths, collect_mesh_paths. simpl.
    by rewrite flat_map_map_eq. }
  assert (Hbuild : forall st, build env cfg (without_physics model) st
                              = build env cfg model st).
  { intros st. unfold build. simpl. rewrite Hp.
    rewrite foldl_map_eq; [done|].
    intros st0 link. unfold _build_link. by rewrite Hp. }
  rewrite !final_convert. unfold preconvert. by rewrite Hpaths, Hbuild.
Qed.

(** X25.  A run depends on the options only through the output path, the
    scale, the two inclusion flags and whether the up axis is the text [Z]:
    the option [merge_fixed_joints] is never read, and every up axis other
    than [Z] gives the same run. *)
Theorem convert_options (cfg cfg' : Config) (model : SdfModel) :
  output_path cfg' = output_path cfg ->
  String.eqb (up_axis cfg') "Z" = String.eqb (up_axis cfg) "Z" ->
  scale cfg' = scale cfg ->
  include_physics cfg' = include_physics cfg ->
  include_collision cfg' = include_collision cfg ->
  convert env cfg' model = convert env cfg model.
Proof.
  destruct cfg as [o u s p c m], cfg' as [o' u' s' p' c' m']. simpl.
  intros -> Hup -> -> ->.
  set (cfg := {| output_path := o; up_axis := u; scale := s; include_physics := p;
                 include_collision := c; merge_fixed_joints := m |}).
  set (cfg' := {| output_path := o; up_axis := u'; scale := s; include_physics := p;
                  include_collision := c; merge_fixed_joints := m' |}).
  assert (Hbuild : forall st, build env cfg' model st = build env cfg model st).
  { intros st. unfold build. cbv zeta.
    change (up_axis cfg') with u'. change (up_axis cfg) with u. rewrite Hup.
    reflexivity. }
  unfold convert.
  change (preconvert env cfg' model initial_state)
    with (preconvert env cfg model initial_state).
  destruct (preconvert env cfg model initial_state) as [st n].
  rewrite Hbuild. reflexivity.
Qed.

End Options.

Lemma convert_without_collisions_witness :
  convert (example_env [] true) visual_only_cfg (without_collisions two_colours)
  = convert (example_env [] true) visual_only_cfg two_colours.
Proof. apply convert_without_collisions. reflexivity. Defined.

Lemma convert_without_physics_witness :
  final (convert (example_env [] true) no_physics_cfg (without_physics two_colours))
  = final (convert (example_env [] true) no_physics_cfg two_colours).
Proof. apply convert_without_physics. reflexivity. Defined.

Lemma convert_options_witness :
  convert (example_env [] true) (with_merge_fixed_joints true example_cfg) two_colours
  = convert (example_env [] true) example_cfg two_colours.
Proof. apply convert_options; reflexivity. Defined.

(** *** The builder *)

Section BuilderMore.

Variable env : Env.
Variable cfg : Config.

Lemma stage_appended_elem (st st' : RunState) (op : StageOp) :
  stage_appended st st' -> op ∈ stage st -> op ∈ stage st'.
Proof. intros [ops ->] H. apply elem_of_app. by left. Qed.

Lemma stage_appended_emit (ops : list StageOp) (st : RunState) :
  stage_appended st (emit ops st).
Proof. by exists ops. Qed.

Lemma stage_appended_frame (st st' : RunState) :
  stage st' = stage st -> stage_appended st st'.
Proof. intros H. exists []. by rewrite app_nil_r. Qed.

Lemma _build_link_appended (looks_path model_path : string) (link : SdfLink)
    (st : RunState) :
  stage_appended st (_build_link env cfg looks_path model_path link st).
Proof.
  apply (steps__build_link env cfg stage_appended).
  - apply stage_appended_emit.
  - intros records st0. by apply stage_appended_frame.
  - intros c n st0. by apply stage_appended_frame.
  - intros dir p st0. apply stage_appended_frame.
    apply (copy_texture_frame env dir p st0).
  - intros dir q st0. apply stage_appended_frame.
    destruct (mesh_convert_spec env dir q st0) as (res & st' & -> & Hst & _). exact Hst.
Qed.

Lemma _build_link_scale (looks_path model_path : string) (link : SdfLink)
    (st : RunState) :
  scale cfg <> 1%R ->
  AddScaleOp (model_path ++ "/" ++ sanitize_usd_name (link_name link))
             (scale cfg, scale cfg, scale cfg)
  ∈ stage (_build_link env cfg looks_path model_path link st).
Proof.
  intros Hs. unfold _build_link. cbv zeta.
  match goal with |- context [emit ?ops st] => set (st0 := emit ops st) end.
  assert (H0 : AddScaleOp (model_path ++ "/" ++ sanitize_usd_name (link_name link))
                          (scale cfg, scale cfg, scale cfg) ∈ stage st0).
  { unfold st0, _set_xform. simpl. rewrite bool_decide_eq_false_2 by done. simpl.
    apply elem_of_app. right. set_solver. }
  clearbody st0.
  eapply stage_appended_elem; [|exact H0].
  etrans; [|apply (steps_build_collisions env cfg stage_appended)].
  2: apply stage_appended_emit.
  2: intros records st1; by apply stage_appended_frame.
  2: intros dir q st1; apply stage_appended_frame;
     destruct (mesh_convert_spec env dir q st1) as (res & st' & -> & Hst & _); exact Hst.
  etrans; [|apply (steps_build_visuals env cfg stage_appended)].
  2: apply stage_appended_emit.
  2: intros records st1; by apply stage_appended_frame.
  2: intros c n st1; by apply stage_appended_frame.
  2: intros dir p st1; apply stage_appended_frame;
     apply (copy_texture_frame env dir p st1).
  2: intros dir q st1; apply stage_appended_frame;
     destruct (mesh_convert_spec env dir q st1) as (res & st' & -> & Hst & _); exact Hst.
  destruct (include_physics cfg); [apply stage_appended_emit|reflexivity].
Qed.

(** X26.  A global scale other than 1 is put on the prim of the model and again
    on the prim of every link below it. *)
Theorem build_scale_nested (model : SdfModel) (link : SdfLink) (st : RunState) :
  scale cfg <> 1%R ->
  link ∈ model_links model ->
  AddScaleOp (model_prim model) (scale cfg, scale cfg, scale cfg)
    ∈ stage (build env cfg model st)
  /\ AddScaleOp (link_prim model link) (scale cfg, scale cfg, scale cfg)
       ∈ stage (build env cfg model st).
Proof.
  intros Hs Hlink. unfold build. cbv zeta. fold (model_prim model).
  match goal with |- context [foldl ?f (emit ?ops st) (model_links model)] =>
    set (st0 := emit ops st); set (F := f)
  end.
  assert (H0 : AddScaleOp (model_prim model) (scale cfg, scale cfg, scale cfg)
               ∈ stage st0).
  { unfold st0, _set_xform. simpl. rewrite bool_decide_eq_false_2 by done. simpl.
    apply elem_of_app. right. set_solver. }
  clearbody st0.
  destruct (foldl_rel_at stage_appended F (model_links model) st0 link)
    as (st1 & H1 & H2); [intros; apply _build_link_appended|done|].
  assert (H3 : stage_appended st0 (foldl F st0 (model_links model))).
  { apply (foldl_rel stage_appended). intros. apply _build_link_appended. }
  match goal with |- context [emit [Save] ?s2] =>
    assert (H4 : stage_appended (foldl F st0 (model_links model)) s2)
  end.
  { destruct (include_physics cfg); [|reflexivity].
    apply (foldl_rel stage_appended). intros.
    apply (steps_create_joint stage_appended).
    - apply stage_appended_emit.
    - intros records ?. by apply stage_appended_frame. }
  split.
  - eapply stage_appended_elem; [apply stage_appended_emit|].
    eapply stage_appended_elem; [exact H4|].
    eapply stage_appended_elem; [exact H3|exact H0].
  - eapply stage_appended_elem; [apply stage_appended_emit|].
    eapply stage_appended_elem; [exact H4|].
    eapply stage_appended_elem; [exact H2|].
    unfold F, link_prim. by apply _build_link_scale.
Qed.

(** X27.  A visual whose mesh file is missing is left out of the stage with one
    warning, and its material is not created. *)
Theorem build_visual_missing_mesh (looks_path parent_path : string) (visual : SdfVisual)
    (g : SdfGeometry) (mesh : SdfMeshGeometry) (st : RunState) :
  visual_geometry visual = Some g ->
  geom_mesh g = Some mesh ->
  path_exists env st (mesh_resolved_path mesh) = false ->
  _build_visual env cfg looks_path parent_path visual st
  = add_log [(WARNING, "  Mesh file not found: " ++ mesh_resolved_path mesh)] st.
Proof.
  intros Hg Hm Hex. unfold _build_visual. rewrite Hg.
  unfold _build_geometry. rewrite Hm. unfold _build_mesh_reference.
  rewrite Hex. simpl. by rewrite orb_true_r.
Qed.

End BuilderMore.

Lemma build_scale_nested_witness :
  AddScaleOp (model_prim two_colours) (2, 2, 2)%R
    ∈ stage (build (example_env [] true) scaled_cfg two_colours initial_state)
  /\ AddScaleOp (link_prim two_colours (link_of "a" [box_visual "visual" (1, 0, 0)%R]))
                (2, 2, 2)%R
       ∈ stage (build (example_env [] true) scaled_cfg two_colours initial_state).
Proof.
  apply (build_scale_nested (example_env [] true) scaled_cfg two_colours
           (link_of "a" [box_visual "visual" (1, 0, 0)%R]) initial_state).
  - simpl. lra.
  - apply list_elem_of_here.
Defined.

Lemma build_visual_missing_mesh_witness :
  _build_visual (example_env [] true) example_cfg "/m/Looks" "/m/l/visuals"
                (mesh_visual "v" "/models/m/meshes/a.dae") initial_state
  = add_log [(WARNING, "  Mesh file not found: " ++ "/models/m/meshes/a.dae")]
            initial_state.
Proof.
  apply (build_visual_missing_mesh (example_env [] true) example_cfg "/m/Looks"
           "/m/l/visuals" (mesh_visual "v" "/models/m/meshes/a.dae")
           (mesh_geometry "/models/m/meshes/a.dae")
           {| mesh_uri := "/models/m/meshes/a.dae";
              mesh_resolved_path := "/models/m/meshes/a.dae";
              mesh_scale := (1, 1, 1)%R |}); reflexivity.
Defined.

(** ** The loader, further *)

Section LoaderMore.

Variable py_float : string -> option R.
Variable model_dir : string.

Lemma populated_le_1 (elem : Element) (g : SdfGeometry) (l : list LogRecord) :
  _parse_geometry py_float model_dir elem = Ok g l -> populated g <= 1.
Proof.
  intros H. apply _parse_geometry_priority in H. cbv zeta in H.
  destruct H as (_ & _ & _ & _ & _ & ->). destruct (_ || _); lia.
Qed.

Lemma field_of_geometry_populated (e : Element) (o : option SdfGeometry)
    (l : list LogRecord) :
  field_of "geometry" e (fun c => g ← _parse_geometry py_float model_dir c; mret (Some g))
           None = Ok o l ->
  forall g, o = Some g -> populated g <= 1.
Proof.
  unfold field_of. destruct (find "geometry" e) as [c|]; intros H g Hg.
  - inv_bind H. apply mret_Ok_inv in H as [<- _]. injection Hg as <-.
    eapply populated_le_1; eassumption.
  - apply mret_Ok_inv in H as [<- _]. discriminate.
Qed.

Lemma _parse_visual_populated (e : Element) (v : SdfVisual) (l : list LogRecord) :
  _parse_visual py_float model_dir e = Ok v l ->
  forall g, visual_geometry v = Some g -> populated g <= 1.
Proof.
  unfold _parse_visual. intros H.
  inv_bind H. inv_bind H. inv_bind H. apply mret_Ok_inv in H as [<- _]. simpl.
  eapply field_of_geometry_populated; eassumption.
Qed.

Lemma _parse_collision_populated (e : Element) (c : SdfCollision) (l : list LogRecord) :
  _parse_collision py_float model_dir e = Ok c l ->
  forall g, collision_geometry c = Some g -> populated g <= 1.
Proof.
  unfold _parse_collision. intros H.
  inv_bind H. inv_bind H. apply mret_Ok_inv in H as [<- _]. simpl.
  eapply field_of_geometry_populated; eassumption.
Qed.

(** X28.  In a loaded model the geometry of every visual and of every collision
    has at most one shape set. *)
Theorem loaded_geometry_at_most_one (root : Element) (model : SdfModel)
    (l : list LogRecord) :
  parse py_float model_dir root = Ok model l ->
  Forall (fun link =>
            Forall (fun v => forall g, visual_geometry v = Some g -> populated g <= 1)
                   (link_visuals link)
            /\ Forall (fun c => forall g, collision_geometry c = Some g -> populated g <= 1)
                      (link_collisions link))
         (model_links model).
Proof.
  intros H. destruct (parse_links _ _ _ _ _ H) as (model_elem & Hlinks).
  eapply Forall2_Forall_r; [exact Hlinks|].
  apply Forall_forall. intros e _ link (l' & Hl).
  apply _parse_link_items in Hl as [[_ Hv] [_ Hc]]. split.
  - eapply Forall2_Forall_r; [exact Hv|].
    apply Forall_forall. intros ve _ v (l1 & Hve).
    eapply _parse_visual_populated; eassumption.
  - eapply Forall2_Forall_r; [exact Hc|].
    apply Forall_forall. intros ce _ c (l1 & Hce).
    eapply _parse_collision_populated; eassumption.
Qed.

Lemma _parse_link_name (elem : Element) (link : SdfLink) (l : list LogRecord) :
  _parse_link py_float model_dir elem = Ok link l ->
  link_name link = get "name" "link" elem.
Proof.
  unfold _parse_link. intros H.
  inv_bind H. inv_bind H. inv_bind H. inv_bind H. by apply mret_Ok_inv in H as [<- _].
Qed.

Lemma _parse_joint_name (elem : Element) (joint : SdfJoint) (l : list LogRecord) :
  _parse_joint py_float elem = Ok joint l ->
  joint_name joint = get "name" "joint" elem
  /\ joint_type joint = get "type" "revolute" elem.
Proof.
  unfold _parse_joint. intros H.
  inv_bind H. inv_bind H. inv_bind H. inv_bind H. by apply mret_Ok_inv in H as [<- _].
Qed.

Lemma Forall2_map_eq {A B C : Type} (f : A -> C) (g : B -> C) (xs : list A)
    (ys : list B) :
  Forall2 (fun x y => g y = f x) xs ys -> map g ys = map f xs.
Proof. induction 1 as [|x y xs ys H _ IH]; simpl; [done|]. by rewrite H, IH. Qed.

(** X29.  A loaded model has one link for each link element and one joint for
    each joint element of the model element, in the order of the document,
    named by the name attribute; a link, a joint or a model without a name
    is called [link], [joint] or [model], and a joint without a type is
    revolute. *)
Theorem parse_model_names (elem : Element) (model : SdfModel) (l : list LogRecord) :
  _parse_model py_float model_dir elem = Ok model l ->
  model_name model = get "name" "model" elem
  /\ map link_name (model_links model) = map (get "name" "link") (findall "link" elem)
  /\ map joint_name (model_joints model)
     = map (get "name" "joint") (findall "joint" elem)
  /\ map joint_type (model_joints model)
     = map (get "type" "revolute") (findall "joint" elem).
Proof.
  unfold _parse_model. intros H.
  inv_bind H. inv_bind H. inv_bind H. apply mret_Ok_inv in H as [<- _]. simpl.
  apply for_each_Forall2 in H1, H2.
  split; [done|]. split; [|split]; apply Forall2_map_eq.
  - eapply Forall2_impl; [exact H1|]. intros e link (l' & Hl).
    eapply _parse_link_name; eassumption.
  - eapply Forall2_impl; [exact H2|]. intros e joint (l' & Hj).
    eapply _parse_joint_name; eassumption.
  - eapply Forall2_impl; [exact H2|]. intros e joint (l' & Hj).
    eapply _parse_joint_name; eassumption.
Qed.

Lemma _parse_joint_axis_limits (elem : Element) (axis : SdfJointAxis)
    (l : list LogRecord) :
  find "limit" elem = None ->
  _parse_joint_axis py_float elem = Ok axis l ->
  axis_lower_limit axis = (-1e16)%R /\ axis_upper_limit axis = 1e16%R.
Proof.
  unfold _parse_joint_axis. intros Hlim H. cbv zeta in H. rewrite Hlim in H.
  apply bind_Ok_inv in H as (xyz & l1 & l2 & _ & H & _).
  apply bind_Ok_inv in H as ([lower upper] & l3 & l4 & Hlu & H & _).
  apply mret_Ok_inv in Hlu as [[= <- <-] _].
  apply bind_Ok_inv in H as ([[dm stf] fr] & l5 & l6 & _ & H & _).
  by apply mret_Ok_inv in H as [<- _].
Qed.

Lemma _parse_joint_limits (elem : Element) (joint : SdfJoint) (l : list LogRecord) :
  (forall axis_elem, find "axis" elem = Some axis_elem -> find "limit" axis_elem = None) ->
  _parse_joint py_float elem = Ok joint l ->
  axis_lower_limit (joint_axis joint) = (-1e16)%R
  /\ axis_upper_limit (joint_axis joint) = 1e16%R.
Proof.
  unfold _parse_joint. intros Hlim H.
  apply bind_Ok_inv in H as (pose & l1 & l2 & _ & H & _).
  apply bind_Ok_inv in H as (parent & l3 & l4 & _ & H & _).
  apply bind_Ok_inv in H as (child & l5 & l6 & _ & H & _).
  apply bind_Ok_inv in H as (axis & l7 & l8 & Haxis & H & _).
  apply mret_Ok_inv in H as [<- _].
  simpl. unfold field_of in Haxis. destruct (find "axis" elem) as [axis_elem|].
  - eapply _parse_joint_axis_limits; [|eassumption]. by apply Hlim.
  - by apply mret_Ok_inv in Haxis as [<- _].
Qed.

(** X30.  A joint element without a limit element, loaded and then mapped, gets
    neither a lower nor an upper limit, whatever its type. *)
Theorem joint_without_limit (elem : Element) (joint : SdfJoint) (l : list LogRecord)
    (model_path : string) :
  (forall axis_elem, find "axis" elem = Some axis_elem -> find "limit" axis_elem = None) ->
  _parse_joint py_float elem = Ok joint l ->
  joint_attr model_path joint "LowerLimit" = None
  /\ joint_attr model_path joint "UpperLimit" = None.
Proof.
  intros Hlim H. destruct (_parse_joint_limits _ _ _ Hlim H) as [Hlo Hup].
  destruct (create_joint_limits model_path joint) as [-> ->].
  rewrite Hlo, Hup. unfold emitted_limit.
  assert (Hlow : (1e10 <= Rabs (-1e16))%R) by (rewrite Rabs_left; lra).
  assert (Hupp : (1e10 <= Rabs 1e16)%R) by (rewrite Rabs_pos_eq; lra).
  rewrite (bool_decide_eq_false_2 _ (degrees_huge _ Hlow)).
  rewrite (bool_decide_eq_false_2 _ (degrees_huge _ Hupp)).
  rewrite (bool_decide_eq_false_2 (Rabs (-1e16) < 1e10)%R) by lra.
  rewrite (bool_decide_eq_false_2 (Rabs 1e16 < 1e10)%R) by lra.
  destruct (String.eqb (joint_type joint) "revolute"); [done|].
  by destruct (String.eqb (joint_type joint) "prismatic").
Qed.

End LoaderMore.

Lemma loaded_geometry_at_most_one_witness :
  exists model l,
    parse float_of_decimal "/models/m" mixed_doc = Ok model l
    /\ Forall (fun link =>
                 Forall (fun v => forall g, visual_geometry v = Some g -> populated g <= 1)
                        (link_visuals link)
                 /\ Forall (fun c => forall g, collision_geometry c = Some g ->
                                               populated g <= 1)
                           (link_collisions link))
              (model_links model).
Proof.
  eexists _, _. split; [reflexivity|].
  eapply (loaded_geometry_at_most_one float_of_decimal "/models/m" mixed_doc).
  reflexivity.
Defined.

Lemma parse_model_names_witness :
  exists model l,
    _parse_model float_of_decimal "/models/m" two_link_elem = Ok model l
    /\ map link_name (model_links model) = ["a"; "link"]
    /\ map joint_type (model_joints model) = ["revolute"].
Proof.
  eexists _, _. split; [reflexivity|].
  edestruct (parse_model_names float_of_decimal "/models/m" two_link_elem)
    as (_ & H1 & _ & H2); [reflexivity|].
  split; [exact H1|exact H2].
Defined.

Lemma joint_without_limit_witness :
  exists joint l,
    _parse_joint float_of_decimal bare_joint_elem = Ok joint l
    /\ joint_attr "/arm" joint "LowerLimit" = None
    /\ joint_attr "/arm" joint "UpperLimit" = None.
Proof.
  eexists _, _. split; [reflexivity|].
  eapply (joint_without_limit float_of_decimal bare_joint_elem).
  - intros axis_elem [= <-]. reflexivity.
  - reflexivity.
Defined.

(** ** The run: the order of the conversions *)

#[global] Instance keeps_preorder (P : RunState -> Prop) : PreOrder (keeps P).
Proof.
  split.
  - intros st H. exact H.
  - intros a b c H1 H2 H. apply H2, H1, H.
Qed.

Section RunOrder.

Variable env : Env.
Variable cfg : Config.

#[local] Instance conversions_kept_preorder : PreOrder conversions_kept.
Proof.
  split.
  - intros st. unfold conversions_kept. reflexivity.
  - intros a b c. unfold conversions_kept. intros H1 H2. by etrans.
Qed.











End RunOrder.




(** ** The run: the log and the stage when the asset converter fails *)





Lemma filter_split_length {A : Type} (P : A -> Prop) `{!forall x, Decision (P x)}
    (l : list A) :
  length (filter P l) + length (filter (fun x => ~ P x) l) = length l.
Proof.
  induction l as [|x l IH]; [reflexivity|].
  rewrite !filter_cons. destruct (decide (P x)).
  - rewrite decide_False by tauto. simpl. lia.
  - rewrite decide_True by done. simpl. lia.
Qed.



Section FailingSourceLog.

Variable env : Env.
Variable cfg : Config.
Variable s p : string.
Hypothesis s_exists : fs_exists env s = true.
Hypothesis s_supported : supported_source s = true.
Hypothesis s_fails : forall usd_path, run_conversion env s usd_path = false.
Hypothesis p_abs : abspath env p = s.
Hypothesis p_nonempty : p <> "".
Hypothesis p_exists : fs_exists env p = true.





























#[local] Instance log_cache_kept_preorder : PreOrder log_cache_kept.
Proof.
  split.
  - intros st. by split.
  - intros a b c [H1 H2] [H3 H4]. split; auto.
Qed.

#[local] Instance log_cache_kept_on_fst : PreOrder (on_fst log_cache_kept).
Proof.
  split.
  - intros a. unfold on_fst. reflexivity.
  - intros a b c. unfold on_fst. intros H1 H2. by etrans.
Qed.






End FailingSourceLog.



